(** * Grizzly reduction oracle: [PuppetTarget] and [Interesting]

    A shallow embedding of [grizzly/target/puppet_target.py] and
    [grizzly/reduce/interesting.py].

    Conventions of the embedding.
    - Wall-clock readings, durations and CPU percentages are rationals ([Q]);
      the Python code only adds, scales and compares them.
    - Everything the code asks of a collaborator (FFPuppet, Sapphire, the
      file system, the crash reporter, the clock) is an observation supplied
      from outside: the result of the call, or the exception it raises.
    - Every effect on a collaborator is appended to a trace of [event]s, in
      program order.
    - A Python exception is a value that knows its class and the classes it
      derives from, so that [except C] and [isinstance] are list lookups. *)

From Stdlib Require Import ZArith QArith Qminmax Lqa String Ascii List Bool Lia.
From stdpp Require Import base option list strings gmap.
Import ListNotations.

Open Scope string_scope.
Open Scope Z_scope.
Open Scope list_scope.

(** ** Python primitives *)

(** [a < b] on numbers, as a boolean. *)
Definition Qlt_bool (a b : Q) : bool := negb (Qle_bool b a).

(** [max(a, b)]: the first argument unless the second is strictly larger. *)
Definition py_max (a b : Q) : Q := if Qlt_bool a b then b else a.

(** [min(a, b)]: the first argument unless the second is strictly smaller. *)
Definition py_min (a b : Q) : Q := if Qlt_bool b a then b else a.

(** [x in xs] for a sequence of strings. *)
Definition contains (x : string) (xs : list string) : bool :=
  bool_decide (x ∈ xs).

(** An exception instance: its class, the classes that class derives from,
    and its message. *)
Record exn := Exn {
  exn_class : string;
  exn_bases : list string;
  exn_msg : string
}.

(** [isinstance(e, cls)], which is also the test of [except cls]. *)
Definition isinstance (e : exn) (cls : string) : bool :=
  bool_decide (cls ∈ exn_class e :: exn_bases e).

(** Outcome of a call: a returned value or a raised exception. *)
Inductive result (A : Type) : Type :=
| Ok (a : A)
| Raise (e : exn).
Arguments Ok {A} a.
Arguments Raise {A} e.

(** [ffpuppet.LaunchError] and its subclass [ffpuppet.BrowserTimeoutError]. *)
Definition LaunchError (msg : string) : exn :=
  Exn "LaunchError" ["Exception"] msg.
Definition BrowserTimeoutError (msg : string) : exn :=
  Exn "BrowserTimeoutError" ["LaunchError"; "Exception"] msg.
Definition RuntimeError (msg : string) : exn :=
  Exn "RuntimeError" ["Exception"] msg.

(** ** Effects on collaborators

    One constructor per call that acts on the outside world.  The trace of a
    run is the list of these, oldest first. *)

Abbreviation environ := (gmap string (option string)).

(** [Interesting.location]: the landing page itself, or the harness page
    carrying [iter_timeout * 1000]. *)
Inductive location :=
| LocLandingPage (page : string)
| LocHarness (timeout_ms : Q).

Inductive event :=
(* FFPuppet *)
| EvPuppetLaunch (loc : location) (env : environ)
| EvPuppetClose
| EvPuppetWait (timeout : Z)
| EvAbortHungProc
(* Target, as seen from Interesting *)
| EvTargetLaunch (loc : location) (env : option environ)
| EvTargetClose
| EvDetectFailure
| EvSaveLogs (dir : string)
| EvCheckRelaunch
(* Sapphire *)
| EvServerNew (timeout : Q)
| EvServerClose
| EvSetRedirect (url : string)
| EvServe
(* time, threads, files, callbacks *)
| EvSleep (seconds : Q)
| EvMonitorStart
| EvIterationDoneSet
| EvMonitorJoin
| EvMkstemp
| EvUnlink
| EvMkdir (dir : string)
| EvCopy (src dst : string)
| EvCopyTree (src dst : string)
| EvInterestingCb (prefix : string)
| EvAltCrashCb (prefix : string).

(** ** [grizzly/target/puppet_target.py] *)

Module PuppetTarget.

(** [FFPuppet.RC_*]: why the browser process is gone. *)
Inductive reason := RC_ALERT | RC_CLOSED | RC_EXITED | RC_WORKER.

#[global] Instance reason_eq_dec : EqDecision reason.
Proof. solve_decision. Defined.

(** Modelled from the spec: the constants [Target.RESULT_NONE],
    [Target.RESULT_FAILURE] and [Target.RESULT_IGNORED] are declared in
    target.py, which is not part of the sources; the spec gives them as the
    three-valued enumeration FailureClass = None, Failure, Ignored. *)
Inductive failure_class := RESULT_NONE | RESULT_FAILURE | RESULT_IGNORED.

#[global] Instance failure_class_eq_dec : EqDecision failure_class.
Proof. solve_decision. Defined.

(** Modelled from the spec: [Target.POLL_BUSY] and [Target.POLL_IDLE] are
    declared in target.py; the spec gives the result of pollForIdle as
    Idle or Busy and has the monitor raise the idle signal on Idle, so Idle
    is the truthy one. *)
Inductive poll_result := POLL_BUSY | POLL_IDLE.

Definition truthy (r : poll_result) : bool :=
  match r with POLL_IDLE => true | POLL_BUSY => false end.

(** The fields of a [Target] that [launch] reads or writes. *)
Record target := Target {
  prefs : option string;
  rl_countdown : Z;
  rl_reset : Z
}.

(** [not self.prefs]: [None] and the empty string are falsy. *)
Definition prefs_missing (t : target) : bool :=
  match prefs t with
  | None => true
  | Some p => bool_decide (p = EmptyString)
  end.

(** The exception classes of target.py.  Their base classes are declared
    there and not in the sources, so they are a parameter [mro]: the list of
    classes a given class derives from. *)
Definition TargetError (mro : string -> list string) (msg : string) : exn :=
  Exn "TargetError" (mro "TargetError") msg.
Definition TargetLaunchError (mro : string -> list string) (msg : string) : exn :=
  Exn "TargetLaunchError" (mro "TargetLaunchError") msg.
Definition TargetLaunchTimeout (mro : string -> list string) (msg : string) : exn :=
  Exn "TargetLaunchTimeout" (mro "TargetLaunchTimeout") msg.

(** [env_mod = dict(env_mod or [])] followed by the two forced entries. *)
Definition launch_env (env_mod : option environ) : environ :=
  let env_mod := default ∅ env_mod in
  let env_mod := <["MOZ_DISABLE_NONLOCAL_CONNECTIONS" := Some "1"]> env_mod in
  <["MOZ_CRASHREPORTER_SHUTDOWN" := Some "1"]> env_mod.

(** [PuppetTarget.launch].  [puppet_launch] is what [FFPuppet.launch] does
    when called: return, or raise. *)
Definition launch (mro : string -> list string) (puppet_launch : result unit)
    (t : target) (loc : location) (env_mod : option environ)
  : result unit * target * list event :=
  if prefs_missing t then
    (Raise (TargetError mro "A prefs.js file is required"), t, [])
  else
    let t := Target (prefs t) (rl_reset t) (rl_reset t) in
    let env_mod := launch_env env_mod in
    match puppet_launch with
    | Ok _ => (Ok tt, t, [EvPuppetLaunch loc env_mod])
    | Raise exc =>
        if isinstance exc "LaunchError" then
          (* self.close() *)
          let tr := [EvPuppetLaunch loc env_mod; EvPuppetClose] in
          if isinstance exc "BrowserTimeoutError"
          then (Raise (TargetLaunchTimeout mro (exn_msg exc)), t, tr)
          else (Raise (TargetLaunchError mro (exn_msg exc)), t, tr)
        else (Raise exc, t, [EvPuppetLaunch loc env_mod])
    end.

(** What [detect_failure] learns from the puppet during one call:
    [is_healthy()] after the optional wait, [is_running()], the [reason]
    read after [close()], [available_logs()], and whether
    [platform.system()] is Linux. *)
Record puppet_obs := PuppetObs {
  expect_close : bool;
  is_healthy : bool;
  is_running : bool;
  reason_after_close : option reason;
  available_logs : list string;
  on_linux : bool
}.

(** [not is_healthy or was_timeout]: the condition under which
    [detect_failure] calls [self.close()]. *)
Definition detect_closes (o : puppet_obs) (was_timeout : bool) : bool :=
  negb (is_healthy o) || was_timeout.

(** [PuppetTarget.detect_failure]: the status and the calls made on the
    puppet. *)
Definition detect_failure (o : puppet_obs) (ignored : list string)
    (was_timeout : bool) : failure_class * list event :=
  let tr_wait :=
    if expect_close o && negb was_timeout then [EvPuppetWait 30] else [] in
  let tr_close :=
    if detect_closes o was_timeout then
      (if is_running o then
         if was_timeout && negb (contains "timeout" ignored) && on_linux o
         then [EvAbortHungProc; EvPuppetWait 1]
         else []
       else []) ++ [EvPuppetClose]
    else [] in
  let status :=
    if negb (is_healthy o) then
      if bool_decide (reason_after_close o = Some RC_CLOSED) then RESULT_NONE
      else if bool_decide (reason_after_close o = Some RC_EXITED) then RESULT_NONE
      else if bool_decide (reason_after_close o = Some RC_WORKER)
              && contains "memory" ignored
              && contains "ffp_worker_memory_usage" (available_logs o)
      then RESULT_IGNORED
      else if bool_decide (reason_after_close o = Some RC_WORKER)
              && contains "log-limit" ignored
              && contains "ffp_worker_log_size" (available_logs o)
      then RESULT_IGNORED
      else RESULT_FAILURE
    else if was_timeout then
      if contains "timeout" ignored then RESULT_IGNORED else RESULT_FAILURE
    else RESULT_NONE in
  (status, tr_wait ++ tr_close).

(** One reading of the world by the monitor thread: the clock, the
    iteration-done event, [FFPuppet.cpu_usage()] and [is_running()]. *)
Record instant := Instant {
  now : Q;
  done_set : bool;
  cpu_usage : list (Z * Q);
  running : bool
}.

(** The world of the monitor thread: the reading at each of its steps. *)
Definition timeline := nat -> instant.

(** [for _, cpu in cpu_usage(): if cpu >= threshold: return POLL_BUSY]. *)
Fixpoint any_busy (threshold : Q) (usage : list (Z * Q)) : bool :=
  match usage with
  | [] => false
  | (_, cpu) :: rest =>
      if Qle_bool threshold cpu then true else any_busy threshold rest
  end.

(** Every CPU sample of one reading is below the threshold. *)
Definition all_below (threshold : Q) (usage : list (Z * Q)) : Prop :=
  Forall (fun pc => (snd pc < threshold)%Q) usage.

(** The [while] loop of [poll_for_idle], started at [start_time], reading the
    world at step [c].  Returns the verdict and the step reached; [None]
    when [fuel] iterations were not enough. *)
Fixpoint poll_loop (fuel : nat) (w : timeline) (threshold interval : Q)
    (start_time : Q) (c : nat) : option (poll_result * nat) :=
  match fuel with
  | O => None
  | S fuel =>
      if Qlt_bool (now (w c) - start_time) interval then
        if any_busy threshold (cpu_usage (w c)) then Some (POLL_BUSY, c)
        else if negb (running (w c)) then Some (POLL_IDLE, c)
        else poll_loop fuel w threshold interval start_time (S c)
      else Some (POLL_IDLE, c)
  end.

(** [PuppetTarget.poll_for_idle]. *)
Definition poll_for_idle (fuel : nat) (w : timeline) (threshold interval : Q)
    (c : nat) : option (poll_result * nat) :=
  poll_loop fuel w threshold interval (now (w c)) c.

(** *** [PuppetTarget._abort_hung_proc] *)

(** [sorted(proc_usage, reverse=True, key=lambda x: x[1])]: by decreasing CPU
    share.  Python's sort is stable, also with [reverse=True]: samples with
    equal shares keep the order they had.  [insert_by_cpu] puts a sample that
    came earlier into the sorted later ones. *)
Fixpoint insert_by_cpu (x : Z * Q) (sorted : list (Z * Q)) : list (Z * Q) :=
  match sorted with
  | [] => [x]
  | y :: rest =>
      if Qlt_bool (snd x) (snd y) then y :: insert_by_cpu x rest
      else x :: sorted
  end.

Definition sorted_by_cpu (proc_usage : list (Z * Q)) : list (Z * Q) :=
  foldr insert_by_cpu [] proc_usage.

(** The pids sent SIGABRT, given what [cpu_usage()] returned.  The body of
    the [for] loop ends in [break]. *)
Definition _abort_hung_proc (proc_usage : list (Z * Q)) : list Z :=
  match sorted_by_cpu proc_usage with
  | [] => []
  | (pid, _) :: _ => [pid]
  end.

(** *** [PuppetTarget.dump_coverage] *)

(** [s.endswith(sfx)]. *)
Definition ends_with (sfx s : string) : bool :=
  let n := String.length s in
  let m := String.length sfx in
  (m <=? n)%nat && String.eqb (substring (n - m) m s) sfx.

(** One entry of [psutil.process_iter(attrs=["pid", "ppid", "open_files"])];
    [open_files] holds the paths, or [None]. *)
Record proc_info := ProcInfo {
  proc_pid : Z;
  proc_ppid : Z;
  open_files : option (list string)
}.

(** One pass of the wait loop over the world: the process table it
    iterates, and the clock and [is_healthy()] read after it. *)
Record coverage_instant := CoverageInstant {
  cov_procs : list proc_info;
  cov_now : Q;
  cov_healthy : bool
}.

(** What [dump_coverage] sees: [get_pid()], the first [is_healthy()], what
    [psutil.Process(pid).children(recursive=True)] gives, what [os.kill]
    raises for a pid, [start_time], and a reading per pass of the loop. *)
Record coverage_obs := CoverageObs {
  cov_pid : option Z;
  cov_is_healthy : bool;
  cov_children : result (list Z);
  cov_kill : Z -> option exn;
  cov_start_time : Q;
  cov_pass : nat -> coverage_instant
}.

(** The message that ends [dump_coverage]. *)
Inductive coverage_log :=
| LogSkipping          (* "Skipping coverage dump" *)
| LogDumpTook          (* "gcda dump took ..." *)
| LogStillOpen         (* "gcda files still open after ..." *)
| LogNoneSeen          (* "No gcda files seen after ..." *)
| LogBrowserFailure.   (* "Browser failure during dump_coverage()" *)

#[global] Instance coverage_log_eq_dec : EqDecision coverage_log.
Proof. solve_decision. Defined.

(** [except (psutil.AccessDenied, psutil.NoSuchProcess)]. *)
Definition psutil_caught (e : exn) : bool :=
  isinstance e "AccessDenied" || isinstance e "NoSuchProcess".

(** [for child in ...: os.kill(child.pid, SIGUSR1)]: the pids signalled, and
    the exception that ends the loop early. *)
Fixpoint signal_children (kill : Z -> option exn) (children : list Z)
  : result unit * list Z :=
  match children with
  | [] => (Ok tt, [])
  | child :: rest =>
      match kill child with
      | Some e => (Raise e, [])
      | None =>
          let '(r, sent) := signal_children kill rest in (r, child :: sent)
      end
  end.

(** The [for proc in psutil.process_iter(...)] pass: does the browser or one
    of its direct children hold a file ending in [.gcda] open? *)
Definition gcda_seen (pid : Z) (procs : list proc_info) : bool :=
  existsb (fun proc =>
    (Z.eqb (proc_pid proc) pid || Z.eqb (proc_ppid proc) pid) &&
    match open_files proc with
    | None => false
    | Some files => existsb (ends_with ".gcda") files
    end) procs.

(** The [while not gcda_found or gcda_open] loop, at pass [c].  Returns the
    closing message, the number of [time.sleep(0.1)] calls made and the pass
    reached; [None] when [fuel] passes were not enough. *)
Fixpoint gcda_loop (fuel : nat) (o : coverage_obs) (pid : Z) (timeout : Q)
    (gcda_found gcda_open : bool) (sleeps c : nat)
  : option (coverage_log * nat * nat) :=
  match fuel with
  | O => None
  | S fuel =>
      if negb gcda_found || gcda_open then
        let sleeps := if gcda_found && gcda_open then S sleeps else sleeps in
        let gcda_open := if gcda_found && gcda_open then false else gcda_open in
        let seen := gcda_seen pid (cov_procs (cov_pass o c)) in
        let gcda_found := gcda_found || seen in
        let gcda_open := gcda_open || seen in
        if Qle_bool timeout (cov_now (cov_pass o c) - cov_start_time o) then
          Some (if gcda_found then LogStillOpen else LogNoneSeen, sleeps, c)
        else if negb (cov_healthy (cov_pass o c)) then
          Some (LogBrowserFailure, sleeps, c)
        else gcda_loop fuel o pid timeout gcda_found gcda_open sleeps (S c)
      else Some (LogDumpTook, sleeps, c)
  end.

(** [PuppetTarget.dump_coverage]: the outcome, the pids sent SIGUSR1 in
    order, and the number of sleeps. *)
Definition dump_coverage (fuel : nat) (o : coverage_obs) (timeout : Q)
  : option (result coverage_log * list Z * nat) :=
  match cov_pid o with
  | None => Some (Ok LogSkipping, [], O)
  | Some pid =>
      if negb (cov_is_healthy o) then Some (Ok LogSkipping, [], O)
      else
        let '(r, sent) :=
          match cov_children o with
          | Ok children => signal_children (cov_kill o) children
          | Raise e => (Raise e, [])
          end in
        let escapes :=
          match r with
          | Raise e => if psutil_caught e then None else Some e
          | Ok _ => None
          end in
        match escapes with
        | Some e => Some (Raise e, sent, O)
        | None =>
            match cov_kill o pid with
            | Some e => Some (Raise e, sent, O)
            | None =>
                match gcda_loop fuel o pid timeout false false O O with
                | None => None
                | Some (msg, sleeps, _) => Some (Ok msg, sent ++ [pid], sleeps)
                end
            end
        end
  end.

End PuppetTarget.

(** ** [grizzly/reduce/interesting.py] *)

Module Interesting.

Import PuppetTarget.

(** *** Paths and strings *)

(** [os.path.basename]: what follows the last slash. *)
Fixpoint basename_from (acc p : string) : string :=
  match p with
  | EmptyString => acc
  | String c rest =>
      if Ascii.eqb c "/"%char then basename_from EmptyString rest
      else basename_from (acc +:+ String c EmptyString) rest
  end.

Definition basename (p : string) : string := basename_from EmptyString p.

(** The list without its longest prefix of characters satisfying [f]. *)
Fixpoint drop_while (f : ascii -> bool) (l : list ascii) : list ascii :=
  match l with
  | [] => []
  | c :: rest => if f c then drop_while f rest else l
  end.

(** [os.path.dirname]: the path up to the last slash, with trailing slashes
    stripped unless it consists of slashes only. *)
Definition dirname (p : string) : string :=
  let is_sep := fun c => Ascii.eqb c "/"%char in
  let rev_head := drop_while (fun c => negb (is_sep c)) (rev (list_ascii_of_string p)) in
  if forallb is_sep rev_head then string_of_list_ascii (rev rev_head)
  else string_of_list_ascii (rev (drop_while is_sep rev_head)).

(** [s.split("_", 1)]: [None] stands for the one-element list (no
    underscore), [Some (a, b)] for the two-element list [[a, b]]. *)
Fixpoint split_underscore (s : string) : option (string * string) :=
  match s with
  | EmptyString => None
  | String c rest =>
      if Ascii.eqb c "_"%char then Some (EmptyString, rest)
      else match split_underscore rest with
           | Some (a, b) => Some (String c a, b)
           | None => None
           end
  end.

Definition IndexError (msg : string) : exn :=
  Exn "IndexError" ["LookupError"; "Exception"] msg.

(** *** Collaborators *)

(** A crash signature is an opaque fingerprint. *)
Definition signature := string.

(** The [CrashInfo] built from the saved logs. *)
Record crash_info := CrashInfo {
  createShortSignature : string;
  createCrashSignature : nat -> signature;   (* argument: maxFrames *)
  matched_by : signature -> bool             (* sig.matches(crash) *)
}.

(** [sapphire.SERVED_*]. *)
Inductive serve_status := SERVED_ALL | SERVED_NONE | SERVED_REQUEST | SERVED_TIMEOUT.

#[global] Instance serve_status_eq_dec : EqDecision serve_status.
Proof. solve_decision. Defined.

(** The collaborator calls of one trial that may raise. *)
Inductive stage :=
| SServerNew | SHarnessOpen
| SMkstemp | SSetRedirect | SServe | SUnlink
| SDetectFailure
| STargetClose | SMkdir | SSaveLogs | SReport | SMatches | SCreateSignature
| SServerClose | SAltCrashCb
| SCheckRelaunch.

(** Everything one trial observes of the outside world. *)
Record trial_obs := TrialObs {
  raises : stage -> option exn;        (* the exception a call raises, if any *)
  launch_result : nat -> result unit;  (* k-th [target.launch] of the trial *)
  server_status : serve_status;        (* first component of [serve_path] *)
  run_time : Q;                        (* [end_time - start_time] *)
  puppet : puppet_obs;                 (* what [detect_failure] sees *)
  crash : crash_info;                  (* the report of the saved logs *)
  relaunch_due : bool                  (* [check_relaunch] closes the target *)
}.

(** The trials of a session, in the order they are run. *)
Definition world := nat -> trial_obs.

(** What one call of [interesting] observes besides its trials: the SHA-1 of
    the file being reduced and the file system. *)
Record call_obs := CallObs {
  cache_key : string;
  glob : string -> list string;
  isfile : string -> bool;
  isdir : string -> bool
}.

(** *** The oracle object *)

(** Attributes fixed once the oracle is set up. *)
Record config := Config {
  ignore : list string;
  no_harness : bool;
  any_crash : bool;
  skip : Z;
  min_crashes : Z;
  repeat : Z;
  use_result_cache : bool;
  alt_crash_cb : bool;          (* is the callback set? *)
  interesting_cb : bool;        (* is the callback set? *)
  env_mod : option environ
}.

Record cache_entry := CacheEntry {
  ce_result : bool;
  ce_prefix : string
}.

(** Attributes that change while the oracle runs.  [server] holds the
    timeout the Sapphire instance was built with.  [trials], [verdicts] and
    [trace] are ghost fields: the number of [_run] calls made, the values
    the completed ones returned, and the effects so far. *)
Record state := State {
  skipped : option Z;
  result_cache : gmap string cache_entry;
  orig_sig : option signature;
  idle_timeout : Q;
  iter_timeout : Q;
  server : option Q;
  target_closed : bool;
  landing_page : string;
  wwwdir : string;
  trials : nat;
  verdicts : list bool;
  trace : list event
}.

Definition set_skipped (v : option Z) (s : state) : state :=
  State v (result_cache s) (orig_sig s) (idle_timeout s) (iter_timeout s)
    (server s) (target_closed s) (landing_page s) (wwwdir s) (trials s) (verdicts s) (trace s).
Definition set_result_cache (v : gmap string cache_entry) (s : state) : state :=
  State (skipped s) v (orig_sig s) (idle_timeout s) (iter_timeout s)
    (server s) (target_closed s) (landing_page s) (wwwdir s) (trials s) (verdicts s) (trace s).
Definition set_orig_sig (v : option signature) (s : state) : state :=
  State (skipped s) (result_cache s) v (idle_timeout s) (iter_timeout s)
    (server s) (target_closed s) (landing_page s) (wwwdir s) (trials s) (verdicts s) (trace s).
Definition set_idle_timeout (v : Q) (s : state) : state :=
  State (skipped s) (result_cache s) (orig_sig s) v (iter_timeout s)
    (server s) (target_closed s) (landing_page s) (wwwdir s) (trials s) (verdicts s) (trace s).
Definition set_iter_timeout (v : Q) (s : state) : state :=
  State (skipped s) (result_cache s) (orig_sig s) (idle_timeout s) v
    (server s) (target_closed s) (landing_page s) (wwwdir s) (trials s) (verdicts s) (trace s).
Definition set_server (v : option Q) (s : state) : state :=
  State (skipped s) (result_cache s) (orig_sig s) (idle_timeout s) (iter_timeout s)
    v (target_closed s) (landing_page s) (wwwdir s) (trials s) (verdicts s) (trace s).
Definition set_target_closed (v : bool) (s : state) : state :=
  State (skipped s) (result_cache s) (orig_sig s) (idle_timeout s) (iter_timeout s)
    (server s) v (landing_page s) (wwwdir s) (trials s) (verdicts s) (trace s).
Definition set_pages (page dir : string) (s : state) : state :=
  State (skipped s) (result_cache s) (orig_sig s) (idle_timeout s) (iter_timeout s)
    (server s) (target_closed s) page dir (trials s) (verdicts s) (trace s).
Definition set_trials (v : nat) (s : state) : state :=
  State (skipped s) (result_cache s) (orig_sig s) (idle_timeout s) (iter_timeout s)
    (server s) (target_closed s) (landing_page s) (wwwdir s) v (verdicts s) (trace s).
Definition set_verdicts (v : list bool) (s : state) : state :=
  State (skipped s) (result_cache s) (orig_sig s) (idle_timeout s) (iter_timeout s)
    (server s) (target_closed s) (landing_page s) (wwwdir s) (trials s) v (trace s).
Definition set_trace (v : list event) (s : state) : state :=
  State (skipped s) (result_cache s) (orig_sig s) (idle_timeout s) (iter_timeout s)
    (server s) (target_closed s) (landing_page s) (wwwdir s) (trials s) (verdicts s) v.

(** *** Methods as state transformers that may raise *)

Definition M (A : Type) : Type := state -> result A * state.

Definition ret {A} (a : A) : M A := fun s => (Ok a, s).

Definition bind {A B} (m : M A) (k : A -> M B) : M B := fun s =>
  match m s with
  | (Ok a, s1) => k a s1
  | (Raise e, s1) => (Raise e, s1)
  end.

#[global] Instance M_ret : MRet M := @ret.
#[global] Instance M_bind : MBind M := fun A B k m => bind m k.

Definition raise {A} (e : exn) : M A := fun s => (Raise e, s).
Definition get : M state := fun s => (Ok s, s).
Definition modify (f : state -> state) : M unit := fun s => (Ok tt, f s).
Definition emit (evs : list event) : M unit :=
  modify (fun s => set_trace (trace s ++ evs) s).
Definition when (b : bool) (m : M unit) : M unit := if b then m else ret tt.

(** [try: body finally: fin].  An exception of [fin] replaces the outcome
    of [body]. *)
Definition try_finally {A} (body : M A) (fin : M unit) : M A := fun s =>
  let '(r, s1) := body s in
  match fin s1 with
  | (Ok _, s2) => (r, s2)
  | (Raise e, s2) => (Raise e, s2)
  end.

(** A collaborator call of the trial: raises what the world says, or else
    happens and is recorded. *)
Definition call (o : trial_obs) (st : stage) (evs : list event) : M unit :=
  match raises o st with
  | Some e => raise e
  | None => emit evs
  end.

(** *** [Interesting.init] *)

(** [realpath] is [os.path.realpath], an observation of the file system. *)
Definition init (realpath : string -> string) : M unit :=
  modify (fun s =>
    set_pages (basename (landing_page s)) (dirname (realpath (landing_page s))) s);;
  modify (set_skipped None);;
  modify (set_result_cache ∅).

(** *** [Interesting.monitor_process] *)

(** First loop: wait until [exp_time] has passed or the iteration is done,
    sleeping between checks.  Returns the step reached. *)
Fixpoint wait_loop (fuel : nat) (w : timeline) (exp_time : Q) (c : nat)
  : option nat :=
  match fuel with
  | O => None
  | S fuel =>
      if Qle_bool (now (w c)) exp_time && negb (done_set (w c))
      then wait_loop fuel w exp_time (S c)
      else Some c
  end.

(** Second loop: poll until idle or done.  Returns whether
    [idle_timeout_event] was set, and the step reached. *)
Fixpoint idle_loop (fuel : nat) (w : timeline) (threshold interval : Q)
    (c : nat) : option (bool * nat) :=
  match fuel with
  | O => None
  | S fuel =>
      if done_set (w c) then Some (false, c)
      else
        match poll_for_idle fuel w threshold interval c with
        | None => None
        | Some (r, c') =>
            if truthy r then Some (true, c')
            else idle_loop fuel w threshold interval (S c')
        end
  end.

Definition monitor_process (fuel : nat) (w : timeline)
    (idle_timeout_ idle_threshold idle_poll : Q) : option (bool * nat) :=
  let exp_time := (now (w O) + idle_timeout_)%Q in
  match wait_loop fuel w exp_time O with
  | None => None
  | Some c => idle_loop fuel w idle_threshold idle_poll c
  end.

(** *** [Interesting.update_timeout] *)

Definition update_timeout (o : trial_obs) (run_time_ : Q) : M unit :=
  s ← get;
  let new_poll_timeout := py_max 10 (py_min (run_time_ * 1.5) (idle_timeout s)) in
  when (Qlt_bool new_poll_timeout (idle_timeout s))
    (modify (set_idle_timeout new_poll_timeout));;
  s ← get;
  let new_iter_timeout := py_max 10 (py_min (run_time_ * 2) (iter_timeout s)) in
  when (Qlt_bool new_iter_timeout (iter_timeout s))
    (modify (set_iter_timeout new_iter_timeout);;
     match server s with
     | Some _ =>
         call o SServerClose [EvServerClose];;
         modify (set_server None)
     | None => ret tt
     end).

(** *** [Interesting.location] *)

Definition location_of (cfg : config) (s : state) : location :=
  if no_harness cfg then LocLandingPage (landing_page s)
  else LocHarness (iter_timeout s * 1000).

(** *** [Interesting._run] *)

(** [# launch sapphire if needed]. *)
Definition launch_sapphire (cfg : config) (o : trial_obs) : M unit :=
  s ← get;
  match server s with
  | Some _ => ret tt
  | None =>
      let serve_timeout :=
        if no_harness cfg then iter_timeout s else (iter_timeout s + 10)%Q in
      call o SServerNew [EvServerNew serve_timeout];;
      modify (set_server (Some serve_timeout));;
      when (negb (no_harness cfg))
        (call o SHarnessOpen [];;
         emit [EvSetRedirect "/first_test"])
  end.

(** [for _ in range(4): try: launch; break / except LaunchError: sleep(15)],
    with [n] iterations left and [k] launches made so far. *)
Fixpoint launch_loop (cfg : config) (o : trial_obs) (n k : nat) : M unit :=
  match n with
  | O => ret tt
  | S n =>
      s ← get;
      emit [EvTargetLaunch (location_of cfg s) (env_mod cfg)];;
      match launch_result o k with
      | Ok _ => modify (set_target_closed false)
      | Raise exc =>
          if isinstance exc "LaunchError"
          then emit [EvSleep 15];; launch_loop cfg o n (S k)
          else raise exc
      end
  end.

(** [# (re)launch FFPuppet]. *)
Definition relaunch (cfg : config) (o : trial_obs) : M unit :=
  s ← get;
  when (target_closed s) (launch_loop cfg o 4 0).

(** Serving the test case, and the status that comes back. *)
Definition serve (cfg : config) (o : trial_obs) : M serve_status :=
  (if no_harness cfg then
     call o SMkstemp [EvMkstemp];;
     try_finally (call o SServe [EvServe]) (call o SUnlink [EvUnlink])
   else
     call o SSetRedirect [EvSetRedirect "/next_test"];;
     call o SServe [EvServe]);;
  ret (server_status o).

(** [self.target.detect_failure(...)], the target being a [PuppetTarget]. *)
Definition target_detect_failure (cfg : config) (o : trial_obs)
    (was_timeout : bool) : M failure_class :=
  call o SDetectFailure [EvDetectFailure];;
  let '(status, evs) := detect_failure (puppet o) (ignore cfg) was_timeout in
  emit evs;;
  when (detect_closes (puppet o) was_timeout) (modify (set_target_closed true));;
  ret status.

(** [self.target.close()], [os.mkdir] and [save_logs] of both failure
    branches. *)
Definition close_and_save_logs (o : trial_obs) (temp_prefix : string) : M unit :=
  call o STargetClose [EvTargetClose];;
  modify (set_target_closed true);;
  let result_logs := temp_prefix +:+ "_logs" in
  call o SMkdir [EvMkdir result_logs];;
  call o SSaveLogs [EvSaveLogs result_logs].

(** [# handle failure if detected]: the value [result] ends up with. *)
Definition handle_failure (cfg : config) (o : trial_obs) (temp_prefix : string)
    (failure_detected : failure_class) : M bool :=
  match failure_detected with
  | RESULT_FAILURE =>
      close_and_save_logs o temp_prefix;;
      call o SReport [];;
      let short_sig := createShortSignature (crash o) in
      if String.eqb short_sig "No crash detected" then ret false
      else
        s ← get;
        sig_ok ← (match orig_sig s with
                  | None => ret true
                  | Some sg => call o SMatches [];; ret (matched_by (crash o) sg)
                  end : M bool);
        if (sig_ok : bool) then
          when (bool_decide (orig_sig s = None) && negb (any_crash cfg))
            (call o SCreateSignature [];;
             modify (set_orig_sig (Some (createCrashSignature (crash o) 5%nat))));;
          update_timeout o (run_time o);;
          ret true
        else
          when (alt_crash_cb cfg)
            (call o SAltCrashCb [EvAltCrashCb temp_prefix]);;
          ret false
  | RESULT_IGNORED =>
      close_and_save_logs o temp_prefix;;
      ret false
  | RESULT_NONE => ret false
  end.

(** The [try] block after the monitor thread has been started: serve,
    classify, ask for a relaunch. *)
Definition serve_and_classify (cfg : config) (o : trial_obs)
    (temp_prefix : string) : M bool :=
  status ← serve cfg o;
  failure_detected ←
    target_detect_failure cfg o (bool_decide (status = SERVED_TIMEOUT));
  result ← handle_failure cfg o temp_prefix failure_detected;
  call o SCheckRelaunch [EvCheckRelaunch];;
  when (relaunch_due o) (modify (set_target_closed true));;
  ret result.

(** The body of the [try] block. *)
Definition run_body (cfg : config) (o : trial_obs) (temp_prefix : string)
  : M bool :=
  emit [EvMonitorStart];;
  serve_and_classify cfg o temp_prefix.

(** The [finally] block. *)
Definition run_finally : M unit :=
  emit [EvIterationDoneSet; EvMonitorJoin].

Definition _run (cfg : config) (o : trial_obs) (temp_prefix : string) : M bool :=
  launch_sapphire cfg o;;
  relaunch cfg o;;
  try_finally (run_body cfg o temp_prefix) run_finally.

(** *** [Interesting.interesting] *)

(** The skip gate at the top of [interesting]: [true] when the call returns
    [False] at once. *)
Definition skip_gate (cfg : config) : M bool :=
  if bool_decide (skip cfg = 0) then ret false
  else
    s ← get;
    match skipped s with
    | None => modify (set_skipped (Some 0));; ret false
    | Some k =>
        if k <? skip cfg
        then modify (set_skipped (Some (k + 1)));; ret true
        else ret false
    end.

(** Copying the artifacts of a cached interesting result. *)
Fixpoint replay (c : call_obs) (temp_prefix : string) (files : list string)
  : M unit :=
  match files with
  | [] => ret tt
  | filename :: rest =>
      let suffix := split_underscore (basename filename) in
      let dest : M string :=
        match suffix with
        | Some (_, s1) => ret (temp_prefix +:+ "_" +:+ s1)
        | None => raise (IndexError "list index out of range")
        end in
      (if isfile c filename then
         d ← dest; emit [EvCopy filename d]
       else if isdir c filename then
         d ← dest; emit [EvCopyTree filename d]
       else
         raise (RuntimeError ("Cannot copy non-file/non-directory: " +:+ filename)));;
      replay c temp_prefix rest
  end.

(** [self.result_cache[cache_key] = {'result': .., 'prefix': ..}], done only
    [if self.use_result_cache]. *)
Definition cache_store (cfg : config) (key : string) (verdict : bool)
    (temp_prefix : string) : M unit :=
  when (use_result_cache cfg)
    (modify (fun s =>
       set_result_cache (<[key := CacheEntry verdict temp_prefix]> (result_cache s)) s)).

(** One call of [self._run], on the next trial of the world. *)
Definition run_trial (cfg : config) (w : world) (temp_prefix : string) : M bool :=
  s ← get;
  modify (set_trials (S (trials s)));;
  crashed ← _run cfg (w (trials s)) temp_prefix;
  modify (fun s => set_verdicts (verdicts s ++ [crashed]) s);;
  ret crashed.

(** [for i in range(n_tries)] with [togo] iterations to go, at index [i] and
    [n_crashes] crashes counted. *)
Fixpoint trial_loop (cfg : config) (w : world) (key temp_prefix : string)
    (n_tries : Z) (togo : nat) (i n_crashes : Z) : M bool :=
  match togo with
  | O => cache_store cfg key false temp_prefix;; ret false
  | S togo =>
      if n_tries - i <? min_crashes cfg - n_crashes then
        (* no longer possible to get min_crashes, so stop *)
        cache_store cfg key false temp_prefix;; ret false
      else
        crashed ← run_trial cfg w temp_prefix;
        if (crashed : bool) then
          let n_crashes := n_crashes + 1 in
          if min_crashes cfg <=? n_crashes then
            when (interesting_cb cfg) (emit [EvInterestingCb temp_prefix]);;
            cache_store cfg key true temp_prefix;;
            ret true
          else trial_loop cfg w key temp_prefix n_tries togo (i + 1) n_crashes
        else trial_loop cfg w key temp_prefix n_tries togo (i + 1) n_crashes
  end.

(** The trials of one call. *)
Definition run_trials (cfg : config) (w : world) (c : call_obs)
    (temp_prefix : string) : M bool :=
  let n_tries := Z.max (repeat cfg) (min_crashes cfg) in
  trial_loop cfg w (cache_key c) temp_prefix n_tries (Z.to_nat n_tries) 0 0.

(** [interesting] below the skip gate. *)
Definition evaluate (cfg : config) (w : world) (c : call_obs)
    (temp_prefix : string) : M bool :=
  if use_result_cache cfg then
    s ← get;
    match result_cache s !! cache_key c with
    | Some entry =>
        let result := ce_result entry in
        when result
          (let cached_prefix := ce_prefix entry in
           replay c temp_prefix (glob c (cached_prefix +:+ "_*")));;
        ret result
    | None => run_trials cfg w c temp_prefix
    end
  else run_trials cfg w c temp_prefix.

Definition interesting (cfg : config) (w : world) (c : call_obs)
    (temp_prefix : string) : M bool :=
  skipped_now ← skip_gate cfg;
  if (skipped_now : bool) then ret false
  else evaluate cfg w c temp_prefix.

(** A session: [interesting] called once per element of [calls]. *)
Fixpoint session (cfg : config) (w : world) (calls : list (call_obs * string))
    (s : state) : list (result bool) * state :=
  match calls with
  | [] => ([], s)
  | (c, temp_prefix) :: rest =>
      let '(r, s1) := interesting cfg w c temp_prefix s in
      let '(rs, s2) := session cfg w rest s1 in
      (r :: rs, s2)
  end.

(** *** [Interesting.config_environ] *)

(** [str.rstrip()]: the string without its trailing whitespace.  Which
    characters count as whitespace is Python's business; [is_space] is that
    test. *)
Definition rstrip (is_space : ascii -> bool) (s : string) : string :=
  string_of_list_ascii
    (rev (drop_while is_space (rev (list_ascii_of_string s)))).

(** [s.split(sep, 1)] for a one-character separator: [None] stands for the
    one-element list (no separator), [Some (a, b)] for [[a, b]]. *)
Fixpoint split_once (sep : ascii) (s : string) : option (string * string) :=
  match s with
  | EmptyString => None
  | String c rest =>
      if Ascii.eqb c sep then Some (EmptyString, rest)
      else match split_once sep rest with
           | Some (a, b) => Some (String c a, b)
           | None => None
           end
  end.

(** What unpacking a one-element list into [key, value] raises. *)
Definition ValueError (msg : string) : exn :=
  Exn "ValueError" ["Exception"] msg.

Definition set_env_mod (v : option environ) (cfg : config) : config :=
  Config (ignore cfg) (no_harness cfg) (any_crash cfg) (skip cfg)
    (min_crashes cfg) (repeat cfg) (use_result_cache cfg) (alt_crash_cb cfg)
    (interesting_cb cfg) v.

(** [if not value: value = None]. *)
Definition environ_value (value : string) : option string :=
  if bool_decide (value = EmptyString) then None else Some value.

(** The [for line in env_fp] loop, [self.env_mod] being [env]. *)
Fixpoint read_environ (is_space : ascii -> bool) (lines : list string)
    (env : environ) : result unit * environ :=
  match lines with
  | [] => (Ok tt, env)
  | line :: rest =>
      let line := rstrip is_space line in
      if bool_decide (line = EmptyString) then read_environ is_space rest env
      else
        match split_once "="%char line with
        | Some (key, value) =>
            read_environ is_space rest (<[key := environ_value value]> env)
        | None =>
            (Raise (ValueError "not enough values to unpack (expected 2, got 1)"),
             env)
        end
  end.

(** [Interesting.config_environ].  [env_fp] is what opening the file gives:
    its lines, or the exception of [open]. *)
Definition config_environ (is_space : ascii -> bool)
    (env_fp : result (list string)) (cfg : config) : result unit * config :=
  match env_fp with
  | Raise e => (Raise e, set_env_mod (Some ∅) cfg)
  | Ok lines =>
      let '(r, env) := read_environ is_space lines ∅ in
      (r, set_env_mod (Some env) cfg)
  end.

(** *** [Interesting.cleanup] *)

(** The two calls of [cleanup] on its collaborators. *)
Inductive teardown_call := TdServerClose | TdTargetCleanup.

(** [Interesting.cleanup].  [server_close] and [target_cleanup] are the
    exceptions that [self.server.close()] and [self.target.cleanup()] raise,
    if any; [has_target] is [self.target is not None].  Returns the outcome,
    the state and the calls that were made and returned. *)
Definition cleanup (server_close target_cleanup : option exn) (has_target : bool)
    (s : state) : result unit * state * list teardown_call :=
  let '(r, s1, calls) :=
    match server s with
    | Some _ =>
        match server_close with
        | Some e => (Raise e, s, [])
        | None => (Ok tt, set_server None s, [TdServerClose])
        end
    | None => (Ok tt, s, [])
    end in
  if has_target then
    match target_cleanup with
    | Some e => (Raise e, s1, calls)
    | None => (r, s1, calls ++ [TdTargetCleanup])
    end
  else (r, s1, calls).

(** *** Vocabulary for the launch retries of a trial *)

(** The effect of one [self.target.launch(self.location, env_mod=...)]. *)
Definition attempt_event (cfg : config) (s : state) : event :=
  EvTargetLaunch (location_of cfg s) (env_mod cfg).

(** [n] launch attempts that failed and were caught: each is followed by
    the fifteen-second sleep. *)
Fixpoint failed_attempts (attempt : event) (n : nat) : list event :=
  match n with
  | O => []
  | S n => attempt :: EvSleep 15 :: failed_attempts attempt n
  end.

(** The [k]-th launch of the trial raised an [ffpuppet.LaunchError], which
    the retry loop catches. *)
Definition launch_failed (o : trial_obs) (k : nat) : Prop :=
  exists e, launch_result o k = Raise e /\ isinstance e "LaunchError" = true.

(** The part of [_run] ahead of the [try] block returns unless a call in it
    raises something other than a launch error. *)
Definition prelude_returns (o : trial_obs) : Prop :=
  raises o SServerNew = None /\ raises o SHarnessOpen = None /\
  forall k e, launch_result o k = Raise e -> isinstance e "LaunchError" = true.

(** What [self.target.launch(...)] gives the retry loop when the target is
    the [PuppetTarget] [t] and [puppet_launch] is what [FFPuppet.launch] does
    in that call: the result of [PuppetTarget.launch].  The location and the
    environment passed on have no part in it. *)
Definition puppet_target_launch (mro : string -> list string) (t : target)
    (puppet_launch : result unit) : result unit :=
  fst (fst (launch mro puppet_launch t (LocLandingPage EmptyString) None)).

(** The target of the trial is the [PuppetTarget] [t]: the [k]-th launch of
    the trial is [PuppetTarget.launch] over the [k]-th launch of the puppet,
    [pl k]. *)
Definition through_puppet_target (mro : string -> list string) (t : target)
    (pl : nat -> result unit) (o : trial_obs) : Prop :=
  forall k, launch_result o k = puppet_target_launch mro t (pl k).

(** *** Vocabulary for the replay of cached artifacts *)

(** Does the character occur in the string? *)
Fixpoint has_char (ch : ascii) (s : string) : bool :=
  match s with
  | EmptyString => false
  | String c rest => Ascii.eqb c ch || has_char ch rest
  end.

(** The path [<prefix>_<suffix>]. *)
Definition with_suffix (prefix sfx : string) : string :=
  prefix +:+ "_" +:+ sfx.

(** The entry is a regular file or a directory. *)
Definition copyable (c : call_obs) (filename : string) : bool :=
  isfile c filename || isdir c filename.

(** Copying [<cached>_<suffix>] to [<temp_prefix>_<suffix>], as a file or as
    a tree according to what the cached entry is. *)
Definition copy_event (c : call_obs) (cached temp_prefix sfx : string) : event :=
  if isfile c (with_suffix cached sfx)
  then EvCopy (with_suffix cached sfx) (with_suffix temp_prefix sfx)
  else EvCopyTree (with_suffix cached sfx) (with_suffix temp_prefix sfx).

(** The call gets past the skip gate. *)
Definition not_skipped (cfg : config) (s : state) : Prop :=
  fst (skip_gate cfg s) = Ok false.

(** *** Vocabulary for the trials of a call *)

(** The number of crashes counted among the verdicts of some trials. *)
Fixpoint count_true (verdicts_ : list bool) : Z :=
  match verdicts_ with
  | [] => 0
  | b :: rest => (if b then 1 else 0) + count_true rest
  end.

(** Every counted crash among [rs] left the counter, started at [nc], below
    [m]. *)
Definition stays_below (m nc : Z) (rs : list bool) : Prop :=
  forall q rest, rs = q ++ true :: rest -> nc + count_true q + 1 < m.

(** The same for every counted crash but a last one. *)
Definition stays_below_before_last (m nc : Z) (rs : list bool) : Prop :=
  forall q rest, rs = q ++ true :: rest -> rest <> [] -> nc + count_true q + 1 < m.

(** What a run of the trial loop amounts to.  The loop is entered at index
    [i] with [nc] crashes counted and [togo] iterations left, in state [s];
    it ends with result [r] in state [s'], having run [ran] trials of which
    those that returned gave the verdicts [rs]. *)
Definition loop_outcome (cfg : config) (key p : string) (n_tries i nc : Z)
    (togo : nat) (s : state) (r : result bool) (s' : state)
    (rs : list bool) (ran : nat) : Prop :=
  verdicts s' = verdicts s ++ rs /\
  trials s' = (trials s + ran)%nat /\
  skipped s' = skipped s /\
  (ran <= togo)%nat /\
  (forall k, (k < ran)%nat ->
     min_crashes cfg - (nc + count_true (firstn k rs))
     <= n_tries - (i + Z.of_nat k)) /\
  stays_below_before_last (min_crashes cfg) nc rs /\
  match r with
  | Ok true =>
      ran = length rs /\ (exists q, rs = q ++ [true]) /\
      min_crashes cfg <= nc + count_true rs /\
      result_cache s' =
        (if use_result_cache cfg
         then <[key := CacheEntry true p]> (result_cache s)
         else result_cache s) /\
      (interesting_cb cfg = true -> exists tr, trace s' = tr ++ [EvInterestingCb p])
  | Ok false =>
      ran = length rs /\ stays_below (min_crashes cfg) nc rs /\
      (ran = togo \/
       n_tries - (i + Z.of_nat ran) < min_crashes cfg - (nc + count_true rs)) /\
      result_cache s' =
        (if use_result_cache cfg
         then <[key := CacheEntry false p]> (result_cache s)
         else result_cache s)
  | Raise _ =>
      ran = S (length rs) /\ stays_below (min_crashes cfg) nc rs /\
      result_cache s' = result_cache s
  end.

(** *** Vocabulary for what a call does and what it leaves alone *)

(** The effects of a trial outside its server set-up, its failure handling
    and the callbacks: launching and probing the target, serving, sleeping,
    the temporary file, and the monitor thread. *)
Definition plain (ev : event) : bool :=
  match ev with
  | EvTargetLaunch _ _ | EvSleep _ | EvMkstemp | EvServe | EvUnlink
  | EvSetRedirect _ | EvDetectFailure | EvPuppetWait _ | EvAbortHungProc
  | EvPuppetClose | EvCheckRelaunch
  | EvMonitorStart | EvIterationDoneSet | EvMonitorJoin => true
  | _ => false
  end.

(** The effects open to a call with prefix [p]: directories are made and
    logs saved only at [<p>_logs], copies go only to paths that start with
    [<p>_], a callback is invoked only if set and only with [p], and the
    puppet is never launched behind the target's back. *)
Definition in_footprint (cfg : config) (p : string) (ev : event) : bool :=
  match ev with
  | EvMkdir d | EvSaveLogs d => String.eqb d (p +:+ "_logs")
  | EvCopy _ dst | EvCopyTree _ dst => String.prefix (p +:+ "_") dst
  | EvInterestingCb q => interesting_cb cfg && String.eqb q p
  | EvAltCrashCb q => alt_crash_cb cfg && String.eqb q p
  | EvPuppetLaunch _ _ => false
  | _ => true
  end.

(** The trace has been appended to, within the footprint of prefix [p]. *)
Definition within_footprint (cfg : config) (p : string) (s s' : state) : Prop :=
  exists evs, trace s' = trace s ++ evs /\
    forallb (in_footprint cfg p) evs = true.

(** The reference signature is written at most once, and not at all when
    [any_crash] is set. *)
Definition sig_write_once (cfg : config) (s s' : state) : Prop :=
  (forall sg, orig_sig s = Some sg -> orig_sig s' = Some sg) /\
  (any_crash cfg = true -> orig_sig s' = orig_sig s).

(** The signature and the two timeouts are as they were. *)
Definition untouched (s s' : state) : Prop :=
  orig_sig s' = orig_sig s /\ idle_timeout s' = idle_timeout s /\
  iter_timeout s' = iter_timeout s.

(** The timeout a Sapphire instance built now would get. *)
Definition serve_timeout_of (cfg : config) (s : state) : Q :=
  if no_harness cfg then iter_timeout s else (iter_timeout s + 10)%Q.

(** The Sapphire instance, if there is one, was built with the timeout that
    goes with the current [iter_timeout]. *)
Definition server_current (cfg : config) (s : state) : Prop :=
  match server s with
  | Some t => t = serve_timeout_of cfg s
  | None => True
  end.

(** *** Relations between the state before and after a method *)

(** [m] takes every state to one related to it by [R], whether it returns
    or raises. *)
Definition preserves (R : state -> state -> Prop) {A} (m : M A) : Prop :=
  forall s, R s (snd (m s)).


(** The three effects on the monitor thread. *)
Definition is_monitor_event (ev : event) : bool :=
  match ev with
  | EvMonitorStart | EvIterationDoneSet | EvMonitorJoin => true
  | _ => false
  end.

(** Effects that leave the monitor thread alone. *)
Definition quiet (evs : list event) : bool :=
  forallb (fun ev => negb (is_monitor_event ev)) evs.

(** The trace has been appended to, with effects that leave the monitor
    thread alone. *)
Definition quietly_extends (s s' : state) : Prop :=
  exists evs, trace s' = trace s ++ evs /\ quiet evs = true.


(** What a trial leaves alone: the skip counter, the cache and the count and
    verdicts of trials. *)
Definition same_bookkeeping (s s' : state) : Prop :=
  skipped s' = skipped s /\ result_cache s' = result_cache s /\
  trials s' = trials s /\ verdicts s' = verdicts s.

(** Floors are kept: neither timeout drops below ten seconds if it was not
    below before. *)
Definition keeps_floor (s s' : state) : Prop :=
  ((10 <= idle_timeout s)%Q -> (10 <= idle_timeout s')%Q) /\
  ((10 <= iter_timeout s)%Q -> (10 <= iter_timeout s')%Q).

(** A method returns, leaving the reference signature as it was. *)
Definition returns_keeping_sig {A} (m : M A) (a : A) (s : state) : Prop :=
  exists s1, m s = (Ok a, s1) /\ orig_sig s1 = orig_sig s.

End Interesting.


(** ** Concrete inputs *)

Module Examples.

Import PuppetTarget Interesting.

(** A target that is gone when polling starts: the clock advances by one
    second per reading, nobody sets the stop signal, there is no process to
    sample. *)
Definition stopped_target_timeline : timeline :=
  fun n => Instant (inject_Z (Z.of_nat n)) false [] false.

(** What [detect_failure] sees of a browser that crashed, and of one that is
    still fine. *)
Definition crashed_puppet : puppet_obs :=
  PuppetObs false false false (Some RC_ALERT) [] true.
Definition healthy_puppet : puppet_obs :=
  PuppetObs false true true None [] true.

(** Two crashes with different signatures. *)
Definition crash_a : crash_info :=
  CrashInfo "crash A" (fun _ => "sigA") (fun sg => String.eqb sg "sigA").
Definition crash_b : crash_info :=
  CrashInfo "crash B" (fun _ => "sigB") (fun sg => String.eqb sg "sigB").

(** A trial in which no collaborator raises and the launch succeeds. *)
Definition smooth_trial (pu : puppet_obs) (c : crash_info) : trial_obs :=
  TrialObs (fun _ => None) (fun _ => Ok tt) SERVED_ALL 5 pu c false.

(** A trial in which every launch fails with a launch error. *)
Definition unlaunchable_trial : trial_obs :=
  TrialObs (fun _ => None) (fun _ => Raise (LaunchError "no display"))
    SERVED_ALL 5 healthy_puppet crash_a false.

(** A [PuppetTarget] that has its prefs.js. *)
Definition target_with_prefs : target :=
  Target (Some "prefs.js") 0 0.

(** What the puppet raises when the browser binary cannot be run: an
    [OSError], which is no launch error. *)
Definition not_executable : exn :=
  Exn "OSError" ["Exception"] "firefox is not an executable".

(** A trial against the [PuppetTarget] [target_with_prefs], in which no
    collaborator raises; [pl k] is what the [k]-th launch of the puppet
    does. *)
Definition puppet_target_trial (mro : string -> list string)
    (pl : nat -> result unit) : trial_obs :=
  TrialObs (fun _ => None)
    (fun k => puppet_target_launch mro target_with_prefs (pl k))
    SERVED_ALL 5 healthy_puppet crash_a false.

(** An oracle with the harness, both callbacks set, one trial per call, one
    crash needed, results cached; [any] is [any_crash], [n] is [skip]. *)
Definition oracle (any : bool) (n : Z) : config :=
  Config [] false any n 1 1 true true true None.

(** The state [init] leaves on a new oracle with timeouts of 60 seconds,
    and the same with a reference signature supplied. *)
Definition fresh : state :=
  State None ∅ None 60 60 None true "test.html" "/www" 0 [] [].
Definition fresh_with_sig (sg : signature) : state :=
  State None ∅ (Some sg) 60 60 None true "test.html" "/www" 0 [] [].

(** A file system with nothing under any prefix. *)
Definition empty_fs (key : string) : call_obs :=
  CallObs key (fun _ => []) (fun _ => false) (fun _ => false).

(** [fresh] with one interesting result cached under key [key]. *)
Definition with_cached (key prefix : string) : state :=
  set_result_cache (<[key := CacheEntry true prefix]> ∅) fresh.

(** A file system whose only entry under [prefix] is the directory
    [<prefix>_logs]. *)
Definition logs_dir_fs (key prefix : string) : call_obs :=
  CallObs key
    (fun pattern => if String.eqb pattern (prefix +:+ "_*")
                    then [prefix +:+ "_logs"] else [])
    (fun _ => false)
    (fun filename => String.eqb filename (prefix +:+ "_logs")).

(** A target that keeps one process at half a CPU: the clock advances by
    one second per reading, and the stop signal is set from reading 3 on. *)
Definition busy_target_timeline : timeline :=
  fun n => Instant (inject_Z (Z.of_nat n)) (3 <=? n)%nat [(1, 50%Q)] true.

(** A coverage dump of browser 100 with one child, 101: the child holds a
    [.gcda] file open during the first pass of the wait loop and none
    after; one second passes per pass. *)
Definition coverage_run : coverage_obs :=
  CoverageObs (Some 100) true (Ok [101]) (fun _ => None) 0
    (fun n => CoverageInstant
       [ProcInfo 100 1 (Some ["/lib/libxul.so"]);
        ProcInfo 101 100 (if (n =? 0)%nat then Some ["/build/a.gcda"] else None)]
       (inject_Z (Z.of_nat n)) true).

(** ASCII whitespace: tab, line feed, vertical tab, form feed, carriage
    return and space. *)
Definition ascii_whitespace (c : ascii) : bool :=
  let n := nat_of_ascii c in
  ((9 <=? n) && (n <=? 13))%nat || (n =? 32)%nat.

Definition newline : string := String (ascii_of_nat 10) EmptyString.

(** An environment file: a variable set, a blank line, a variable to be
    unset, and the first variable set again, with trailing blanks. *)
Definition environ_file : list string :=
  ["A=1" +:+ newline; newline; "B=" +:+ newline; "A=x=2  " +:+ newline].

End Examples.

(** * Properties *)

Import PuppetTarget Interesting Examples.

(** ** Python primitives *)

Lemma Qlt_bool_iff (a b : Q) : Qlt_bool a b = true <-> (a < b)%Q.
Proof.
  unfold Qlt_bool. rewrite negb_true_iff.
  destruct (Qle_bool b a) eqn:E.
  - apply Qle_bool_iff in E. split; [discriminate|].
    intros H. exfalso. apply (Qlt_not_le _ _ H E).
  - split; [|reflexivity]. intros _.
    destruct (Qlt_le_dec a b) as [H|H]; [exact H|].
    apply Qle_bool_iff in H. congruence.
Qed.

Lemma Qlt_bool_false_iff (a b : Q) : Qlt_bool a b = false <-> (b <= a)%Q.
Proof.
  unfold Qlt_bool. rewrite negb_false_iff. apply Qle_bool_iff.
Qed.

Lemma contains_true (x : string) (xs : list string) :
  contains x xs = true <-> x ∈ xs.
Proof. unfold contains. apply bool_decide_eq_true. Qed.

(** C3.  [detect_failure] classifies as follows.  Healthy and no timeout:
    None.  Unhealthy with exit reason close-request or self-exit: None.
    Unhealthy with a worker (resource-limit) exit whose category, memory or
    log-limit, is in the ignore set and whose artifact log is present:
    Ignored.  Any other unhealthy exit: Failure.  Healthy but timed out:
    Ignored if timeout is in the ignore set, else Failure. *)
Theorem detect_failure_classification
    (o : puppet_obs) (ignored : list string) (was_timeout : bool) :
  let status := fst (detect_failure o ignored was_timeout) in
  let worker_ignored :=
    reason_after_close o = Some RC_WORKER /\
    (("memory" ∈ ignored /\ "ffp_worker_memory_usage" ∈ available_logs o) \/
     ("log-limit" ∈ ignored /\ "ffp_worker_log_size" ∈ available_logs o)) in
  let closed_or_exited :=
    reason_after_close o = Some RC_CLOSED \/
    reason_after_close o = Some RC_EXITED in
  (is_healthy o = true -> was_timeout = false -> status = RESULT_NONE) /\
  (is_healthy o = false -> closed_or_exited -> status = RESULT_NONE) /\
  (is_healthy o = false -> worker_ignored -> status = RESULT_IGNORED) /\
  (is_healthy o = false -> ~ closed_or_exited -> ~ worker_ignored ->
   status = RESULT_FAILURE) /\
  (is_healthy o = true -> was_timeout = true ->
   status = if contains "timeout" ignored then RESULT_IGNORED else RESULT_FAILURE).
Proof.
  cbv zeta. unfold detect_failure. cbn [fst].
  destruct (is_healthy o) eqn:Hh; cbn [negb].
  - repeat split; try discriminate; intros _ ->; reflexivity.
  - repeat split; try discriminate; intros _.
    + intros [H|H]; rewrite H.
      * rewrite bool_decide_eq_true_2 by reflexivity. reflexivity.
      * rewrite bool_decide_eq_false_2 by discriminate.
        rewrite bool_decide_eq_true_2 by reflexivity. reflexivity.
    + intros [H Hcat]. rewrite H.
      rewrite !(bool_decide_eq_false_2 (Some RC_WORKER = Some RC_CLOSED)) by discriminate.
      rewrite !(bool_decide_eq_false_2 (Some RC_WORKER = Some RC_EXITED)) by discriminate.
      rewrite bool_decide_eq_true_2 by reflexivity. cbn [andb].
      destruct Hcat as [[H1 H2]|[H1 H2]];
        apply contains_true in H1; apply contains_true in H2;
        rewrite H1, H2; cbn [andb].
      * reflexivity.
      * destruct (contains "memory" ignored && _); reflexivity.
    + intros Hne Hnw.
      rewrite bool_decide_eq_false_2 by tauto.
      rewrite bool_decide_eq_false_2 by tauto.
      destruct (bool_decide (reason_after_close o = Some RC_WORKER)) eqn:Hw;
        cbn [andb]; [|reflexivity].
      apply bool_decide_eq_true in Hw.
      destruct (contains "memory" ignored) eqn:H1; cbn [andb].
      * destruct (contains "ffp_worker_memory_usage" (available_logs o)) eqn:H2.
        { exfalso. apply Hnw. split; [exact Hw|left].
          split; apply contains_true; assumption. }
        destruct (contains "log-limit" ignored) eqn:H3; cbn [andb]; [|reflexivity].
        destruct (contains "ffp_worker_log_size" (available_logs o)) eqn:H4;
          [|reflexivity].
        exfalso. apply Hnw. split; [exact Hw|right].
        split; apply contains_true; assumption.
      * destruct (contains "log-limit" ignored) eqn:H3; cbn [andb]; [|reflexivity].
        destruct (contains "ffp_worker_log_size" (available_logs o)) eqn:H4;
          [|reflexivity].
        exfalso. apply Hnw. split; [exact Hw|right].
        split; apply contains_true; assumption.
Qed.

(** ** [PuppetTarget.launch] *)

Lemma launch_env_nonlocal (env_mod : option environ) :
  launch_env env_mod !! "MOZ_DISABLE_NONLOCAL_CONNECTIONS" = Some (Some "1").
Proof.
  unfold launch_env. cbv zeta.
  rewrite lookup_insert_ne by discriminate. apply lookup_insert_eq.
Qed.

Lemma launch_env_shutdown (env_mod : option environ) :
  launch_env env_mod !! "MOZ_CRASHREPORTER_SHUTDOWN" = Some (Some "1").
Proof. unfold launch_env. cbv zeta. apply lookup_insert_eq. Qed.

Lemma launch_env_other (env_mod : option environ) (k : string) :
  k ≠ "MOZ_DISABLE_NONLOCAL_CONNECTIONS" ->
  k ≠ "MOZ_CRASHREPORTER_SHUTDOWN" ->
  launch_env env_mod !! k = default ∅ env_mod !! k.
Proof.
  intros H1 H2. unfold launch_env. cbv zeta.
  rewrite !lookup_insert_ne by congruence. reflexivity.
Qed.

(** C10.  Whatever [env_mod] the caller supplies, every environment that
    [launch] hands to the puppet maps MOZ_DISABLE_NONLOCAL_CONNECTIONS and
    MOZ_CRASHREPORTER_SHUTDOWN to "1", also when the caller mapped them to
    something else, and agrees with the caller's on every other key; and
    unless prefs are missing (the call then raises before reaching the
    puppet) the puppet is launched, first thing, with that environment and
    the requested location. *)
Theorem launch_forces_env
    (mro : string -> list string) (puppet_launch : result unit)
    (t : target) (loc : location) (env_mod : option environ) :
  let tr := snd (launch mro puppet_launch t loc env_mod) in
  let forced (env : environ) :=
    env !! "MOZ_DISABLE_NONLOCAL_CONNECTIONS" = Some (Some "1") /\
    env !! "MOZ_CRASHREPORTER_SHUTDOWN" = Some (Some "1") in
  Forall (fun ev => match ev with
                    | EvPuppetLaunch loc' env => loc' = loc /\ forced env
                    | _ => True
                    end) tr /\
  (forall (m : environ) (v1 v2 : option string),
     forced (launch_env (Some (<["MOZ_DISABLE_NONLOCAL_CONNECTIONS" := v1]>
                              (<["MOZ_CRASHREPORTER_SHUTDOWN" := v2]> m))))) /\
  (forall k, k <> "MOZ_DISABLE_NONLOCAL_CONNECTIONS" ->
             k <> "MOZ_CRASHREPORTER_SHUTDOWN" ->
             launch_env env_mod !! k = default ∅ env_mod !! k) /\
  (if prefs_missing t then tr = []
   else exists rest,
     tr = EvPuppetLaunch loc (launch_env env_mod) :: rest /\
     Forall (fun ev => ev = EvPuppetClose) rest).
Proof.
  cbv zeta.
  assert (Hother : forall k, k <> "MOZ_DISABLE_NONLOCAL_CONNECTIONS" ->
             k <> "MOZ_CRASHREPORTER_SHUTDOWN" ->
             launch_env env_mod !! k = default ∅ env_mod !! k)
    by (intros k; apply launch_env_other).
  assert (Hf : launch_env env_mod !! "MOZ_DISABLE_NONLOCAL_CONNECTIONS" = Some (Some "1") /\
               launch_env env_mod !! "MOZ_CRASHREPORTER_SHUTDOWN" = Some (Some "1")).
  { split; [apply launch_env_nonlocal | apply launch_env_shutdown]. }
  unfold launch.
  destruct (prefs_missing t) eqn:Hp; cbn [snd].
  - split; [constructor|]. split; [|split; [exact Hother | reflexivity]].
    intros m v1 v2. split; [apply launch_env_nonlocal | apply launch_env_shutdown].
  - split; [|split; [|split; [exact Hother|]]].
    + destruct puppet_launch as [[]|exc]; cbn [snd].
      * repeat constructor; apply Hf.
      * destruct (isinstance exc "LaunchError");
          [destruct (isinstance exc "BrowserTimeoutError")|]; cbn [snd];
          repeat constructor; apply Hf.
    + intros m v1 v2. split; [apply launch_env_nonlocal | apply launch_env_shutdown].
    + destruct puppet_launch as [[]|exc]; cbn [snd].
      * eexists. split; [reflexivity|constructor].
      * destruct (isinstance exc "LaunchError");
          [destruct (isinstance exc "BrowserTimeoutError")|]; cbn [snd];
          eexists; (split; [reflexivity|repeat constructor]).
Qed.

(** What a failed puppet launch looks like to the caller of
    [PuppetTarget.launch]: a [TargetLaunchError], or a [TargetLaunchTimeout]
    for a browser timeout.  Whether an [except ffpuppet.LaunchError] in the
    caller catches it is decided by the base classes target.py gives them. *)
Lemma launch_failure_class
    (mro : string -> list string) (t : target) (loc : location)
    (env_mod : option environ) (msg : string) :
  prefs_missing t = false ->
  fst (fst (launch mro (Raise (LaunchError msg)) t loc env_mod))
    = Raise (TargetLaunchError mro msg) /\
  fst (fst (launch mro (Raise (BrowserTimeoutError msg)) t loc env_mod))
    = Raise (TargetLaunchTimeout mro msg) /\
  isinstance (TargetLaunchError mro msg) "LaunchError"
    = bool_decide ("LaunchError" ∈ "TargetLaunchError" :: mro "TargetLaunchError").
Proof.
  intros Hp. unfold launch. rewrite Hp. repeat split.
Qed.

(** ** [PuppetTarget.poll_for_idle] and [Interesting.monitor_process] *)

Lemma any_busy_false (threshold : Q) (usage : list (Z * Q)) :
  any_busy threshold usage = false <-> all_below threshold usage.
Proof.
  unfold all_below. induction usage as [|[pid cpu] rest IH]; cbn [any_busy].
  - split; [constructor | reflexivity].
  - destruct (Qle_bool threshold cpu) eqn:E.
    + split; [discriminate|]. intros H. inversion H as [|? ? Hlt _]; subst.
      cbn in Hlt. apply Qle_bool_iff in E. exfalso. apply (Qlt_not_le _ _ Hlt E).
    + rewrite IH. split.
      * intros H. constructor; [|exact H]. cbn.
        apply Qlt_bool_iff. unfold Qlt_bool. rewrite E. reflexivity.
      * intros H. inversion H; assumption.
Qed.








(** ** Relations that every step of a method keeps *)

Section Preserves.

Variable R : state -> state -> Prop.
Hypothesis R_refl : forall s, R s s.
Hypothesis R_trans : forall a b c, R a b -> R b c -> R a c.

Lemma preserves_ret {A} (a : A) : preserves R (ret a).
Proof. intros s. apply R_refl. Qed.

Lemma preserves_raise {A} (e : exn) : preserves R (@raise A e).
Proof. intros s. apply R_refl. Qed.

Lemma preserves_get : preserves R get.
Proof. intros s. apply R_refl. Qed.

Lemma preserves_modify (f : state -> state) :
  (forall s, R s (f s)) -> preserves R (modify f).
Proof. intros H s. apply H. Qed.

Lemma preserves_bind {A B} (m : M A) (k : A -> M B) :
  preserves R m -> (forall a, preserves R (k a)) -> preserves R (m ≫= k).
Proof.
  intros Hm Hk s. unfold mbind, M_bind, bind.
  specialize (Hm s). destruct (m s) as [[a|e] s1]; cbn [snd] in *.
  - eapply R_trans; [exact Hm | apply Hk].
  - exact Hm.
Qed.

Lemma preserves_when (b : bool) (m : M unit) :
  preserves R m -> preserves R (when b m).
Proof. intros H. destruct b; [exact H | apply preserves_ret]. Qed.

Lemma preserves_try_finally {A} (body : M A) (fin : M unit) :
  preserves R body -> preserves R fin -> preserves R (try_finally body fin).
Proof.
  intros Hb Hf s. unfold try_finally.
  specialize (Hb s). destruct (body s) as [r s1]; cbn [snd] in *.
  specialize (Hf s1). destruct (fin s1) as [[[]|e] s2]; cbn [snd] in *;
    eapply R_trans; eassumption.
Qed.

(** The effects the relation tolerates: at least those that leave the
    monitor thread alone. *)
Variable allowed : event -> bool.
Hypothesis allowed_quiet : forall ev, is_monitor_event ev = false -> allowed ev = true.
Hypothesis R_emit :
  forall evs s, forallb allowed evs = true -> R s (set_trace (trace s ++ evs) s).

Lemma preserves_emit (evs : list event) :
  forallb allowed evs = true -> preserves R (emit evs).
Proof. intros H s. apply R_emit, H. Qed.

Lemma preserves_call (o : trial_obs) (st : stage) (evs : list event) :
  forallb allowed evs = true -> preserves R (call o st evs).
Proof.
  intros H. unfold call.
  destruct (raises o st); [apply preserves_raise | apply preserves_emit, H].
Qed.

Lemma allowed_quiet_list (evs : list event) :
  quiet evs = true -> forallb allowed evs = true.
Proof.
  unfold quiet. induction evs as [|ev evs IH]; cbn [forallb]; [reflexivity|].
  intros H. apply andb_true_iff in H. destruct H as [H1 H2].
  apply negb_true_iff in H1. rewrite (allowed_quiet _ H1), (IH H2). reflexivity.
Qed.

Hypothesis R_server : forall v s, R s (set_server v s).
Hypothesis R_closed : forall v s, R s (set_target_closed v s).
Hypothesis R_sig : forall v s, R s (set_orig_sig v s).
Hypothesis R_update : forall o t, preserves R (update_timeout o t).

Ltac allowed_events := apply allowed_quiet_list; reflexivity.

Ltac preserves_step :=
  lazymatch goal with
  | |- preserves _ (_ ≫= _) => apply preserves_bind; [|intros ?]
  | |- preserves _ (ret _) => apply preserves_ret
  | |- preserves _ (raise _) => apply preserves_raise
  | |- preserves _ get => apply preserves_get
  | |- preserves _ (when _ _) => apply preserves_when
  | |- preserves _ (emit _) => apply preserves_emit; allowed_events
  | |- preserves _ (call _ _ _) => apply preserves_call; allowed_events
  | |- preserves _ (try_finally _ _) => apply preserves_try_finally
  | |- preserves _ (update_timeout _ _) => apply R_update
  | |- preserves _ (modify _) => apply preserves_modify; intros ?; auto
  | |- preserves _ (if ?b then _ else _) => destruct b
  | |- preserves _ (match ?x with _ => _ end) => destruct x
  end.

Lemma preserves_launch_loop (cfg : config) (o : trial_obs) (n k : nat) :
  preserves R (launch_loop cfg o n k).
Proof.
  revert k. induction n as [|n IH]; intros k; cbn [launch_loop].
  - apply preserves_ret.
  - repeat preserves_step. apply IH.
Qed.

Lemma preserves_launch_sapphire (cfg : config) (o : trial_obs) :
  preserves R (launch_sapphire cfg o).
Proof. unfold launch_sapphire. repeat preserves_step. Qed.

Lemma preserves_relaunch (cfg : config) (o : trial_obs) :
  preserves R (relaunch cfg o).
Proof.
  unfold relaunch. repeat first [apply preserves_launch_loop | preserves_step].
Qed.

Lemma preserves_handle_failure (cfg : config) (o : trial_obs) (p : string)
    (fd : failure_class) :
  preserves R (handle_failure cfg o p fd).
Proof. unfold handle_failure, close_and_save_logs. repeat preserves_step. Qed.

Lemma detect_failure_quiet (o : puppet_obs) (ignored : list string) (t : bool) :
  quiet (snd (detect_failure o ignored t)) = true.
Proof.
  unfold detect_failure. cbn [snd].
  destruct (expect_close o && negb t), (detect_closes o t), (is_running o);
    try reflexivity;
    destruct (t && negb (contains "timeout" ignored) && on_linux o); reflexivity.
Qed.

Lemma preserves_target_detect_failure (cfg : config) (o : trial_obs) (t : bool) :
  preserves R (target_detect_failure cfg o t).
Proof.
  unfold target_detect_failure.
  pose proof (detect_failure_quiet (puppet o) (ignore cfg) t) as Hq.
  destruct (detect_failure (puppet o) (ignore cfg) t) as [status evs].
  cbn [snd] in Hq.
  repeat first [apply preserves_emit, allowed_quiet_list, Hq | preserves_step].
Qed.

Lemma preserves_serve_and_classify (cfg : config) (o : trial_obs) (p : string) :
  preserves R (serve_and_classify cfg o p).
Proof.
  unfold serve_and_classify, serve.
  repeat first [apply preserves_handle_failure
               | apply preserves_target_detect_failure | preserves_step].
Qed.

Hypothesis allowed_monitor : forall ev, is_monitor_event ev = true -> allowed ev = true.

Lemma preserves_run_try (cfg : config) (o : trial_obs) (p : string) :
  preserves R (try_finally (run_body cfg o p) run_finally).
Proof.
  apply preserves_try_finally.
  - unfold run_body. apply preserves_bind.
    + apply preserves_emit. cbn. rewrite allowed_monitor; reflexivity.
    + intros _. apply preserves_serve_and_classify.
  - unfold run_finally. apply preserves_emit.
    cbn. rewrite !allowed_monitor; reflexivity.
Qed.

Lemma preserves_run (cfg : config) (o : trial_obs) (temp_prefix : string) :
  preserves R (_run cfg o temp_prefix).
Proof.
  unfold _run.
  repeat first [apply preserves_launch_sapphire | apply preserves_relaunch
               | apply preserves_run_try | preserves_step].
Qed.

Hypothesis R_cache : forall v s, R s (set_result_cache v s).
Hypothesis R_trials : forall v s, R s (set_trials v s).
Hypothesis R_verdicts : forall v s, R s (set_verdicts v s).

Lemma preserves_run_trial (cfg : config) (w : world) (temp_prefix : string) :
  preserves R (run_trial cfg w temp_prefix).
Proof.
  unfold run_trial. repeat first [apply preserves_run | preserves_step].
Qed.

Lemma preserves_cache_store (cfg : config) (key : string) (b : bool) (p : string) :
  preserves R (cache_store cfg key b p).
Proof. unfold cache_store. repeat preserves_step. Qed.

Lemma preserves_trial_loop (cfg : config) (w : world) (key p : string)
    (n_tries : Z) (togo : nat) :
  forall i n_crashes, preserves R (trial_loop cfg w key p n_tries togo i n_crashes).
Proof.
  induction togo as [|togo IH]; intros i n_crashes; cbn [trial_loop].
  - repeat first [apply preserves_cache_store | preserves_step].
  - repeat first [apply preserves_cache_store | apply preserves_run_trial
                 | apply IH | preserves_step].
Qed.

Lemma preserves_replay (c : call_obs) (p : string) (files : list string) :
  preserves R (replay c p files).
Proof.
  induction files as [|f rest IH]; cbn [replay]; [apply preserves_ret|].
  repeat first [apply IH | preserves_step].
Qed.

Lemma preserves_evaluate (cfg : config) (w : world) (c : call_obs) (p : string) :
  preserves R (evaluate cfg w c p).
Proof.
  unfold evaluate, run_trials.
  repeat first [apply preserves_trial_loop | apply preserves_replay | preserves_step].
Qed.

Hypothesis R_skipped : forall v s, R s (set_skipped v s).

Lemma preserves_interesting (cfg : config) (w : world) (c : call_obs) (p : string) :
  preserves R (interesting cfg w c p).
Proof.
  unfold interesting, skip_gate.
  repeat first [apply preserves_evaluate | preserves_step].
Qed.

Lemma preserves_session (cfg : config) (w : world) (calls : list (call_obs * string)) :
  forall s, R s (snd (session cfg w calls s)).
Proof.
  induction calls as [|[c p] rest IH]; intros s; cbn [session].
  - apply R_refl.
  - pose proof (preserves_interesting cfg w c p s) as H1.
    destruct (interesting cfg w c p s) as [r s1]. cbn [snd] in H1.
    specialize (IH s1). destruct (session cfg w rest s1) as [rs s2].
    cbn [snd] in *. eapply R_trans; eassumption.
Qed.

End Preserves.

(** ** [Interesting.update_timeout] *)



(** The two assignments of [update_timeout], read off its result. *)
Lemma update_timeout_fields (o : trial_obs) (t : Q) (s : state) :
  let s' := snd (update_timeout o t s) in
  let new_idle := py_max 10 (py_min (t * 1.5) (idle_timeout s)) in
  let new_iter := py_max 10 (py_min (t * 2) (iter_timeout s)) in
  idle_timeout s' =
    (if Qlt_bool new_idle (idle_timeout s) then new_idle else idle_timeout s) /\
  iter_timeout s' =
    (if Qlt_bool new_iter (iter_timeout s) then new_iter else iter_timeout s) /\
  (if Qlt_bool new_iter (iter_timeout s) then
     match server s, raises o SServerClose with
     | Some _, None => server s' = None /\ trace s' = trace s ++ [EvServerClose]
     | Some _, Some _ => server s' = server s /\ trace s' = trace s
     | None, _ => server s' = None /\ trace s' = trace s
     end
   else server s' = server s /\ trace s' = trace s).
Proof.
  cbv zeta. unfold update_timeout, mbind, M_bind, bind, get, when, modify, ret, call,
    emit, raise.
  destruct (Qlt_bool (py_max 10 (py_min (t * 1.5) (idle_timeout s))) (idle_timeout s));
    cbn [snd fst idle_timeout iter_timeout set_idle_timeout server trace];
    destruct (Qlt_bool (py_max 10 (py_min (t * 2) (iter_timeout s))) (iter_timeout s));
    cbn [snd fst idle_timeout iter_timeout set_idle_timeout set_iter_timeout
         server trace];
    try (destruct (server s) eqn:Hsrv; [destruct (raises o SServerClose) eqn:Hr|]);
    cbn; rewrite ?Hsrv; repeat split; reflexivity.
Qed.





(** ** Traces only grow *)








(** ** [Interesting._run]: the monitor thread is always joined *)

Lemma quiet_app (a b : list event) : quiet (a ++ b) = quiet a && quiet b.
Proof. unfold quiet. apply forallb_app. Qed.

Lemma quietly_extends_refl (s : state) : quietly_extends s s.
Proof. exists []. rewrite app_nil_r. split; reflexivity. Qed.

Lemma quietly_extends_trans (a b c : state) :
  quietly_extends a b -> quietly_extends b c -> quietly_extends a c.
Proof.
  intros (e1 & H1 & Q1) (e2 & H2 & Q2). exists (e1 ++ e2). split.
  - rewrite H2, H1, app_assoc. reflexivity.
  - rewrite quiet_app, Q1, Q2. reflexivity.
Qed.

Lemma quietly_extends_same (a b : state) : trace b = trace a -> quietly_extends a b.
Proof. intros H. exists []. rewrite app_nil_r. split; [exact H | reflexivity]. Qed.

Lemma update_timeout_quiet (o : trial_obs) (t : Q) :
  preserves quietly_extends (update_timeout o t).
Proof.
  intros s. destruct (update_timeout_fields o t s) as (_ & _ & H).
  destruct (Qlt_bool _ (iter_timeout s)).
  - destruct (server s); [destruct (raises o SServerClose)|].
    + apply quietly_extends_same, H.
    + exists [EvServerClose]. split; [apply H | reflexivity].
    + apply quietly_extends_same, H.
  - apply quietly_extends_same, H.
Qed.

Ltac quiet_side :=
  first [ exact quietly_extends_refl
        | exact quietly_extends_trans
        | exact update_timeout_quiet
        | (let e := fresh "evs" in
           let H := fresh "H" in
           intros e ? H; exists e; split; [reflexivity | exact H])
        | (intros ? ?; apply quietly_extends_same; reflexivity)
        | (let H := fresh "H" in
           intros ? H; unfold quiet; cbn; rewrite H; reflexivity) ].

Lemma launch_sapphire_quiet (cfg : config) (o : trial_obs) :
  preserves quietly_extends (launch_sapphire cfg o).
Proof.
  apply preserves_launch_sapphire
    with (allowed := fun ev => negb (is_monitor_event ev)); quiet_side.
Qed.

Lemma relaunch_quiet (cfg : config) (o : trial_obs) :
  preserves quietly_extends (relaunch cfg o).
Proof.
  apply preserves_relaunch
    with (allowed := fun ev => negb (is_monitor_event ev)); quiet_side.
Qed.

Lemma serve_and_classify_quiet (cfg : config) (o : trial_obs) (p : string) :
  preserves quietly_extends (serve_and_classify cfg o p).
Proof.
  apply preserves_serve_and_classify
    with (allowed := fun ev => negb (is_monitor_event ev)); quiet_side.
Qed.

(** The [try] block with its [finally]: whatever the body does, the trace
    gains the start of the monitor, effects that leave it alone, then the
    done signal and the join; the outcome is that of the body. *)
Lemma run_try_trace (cfg : config) (o : trial_obs) (p : string) (s : state) :
  exists mid, quiet mid = true /\
    trace (snd (try_finally (run_body cfg o p) run_finally s)) =
      trace s ++ [EvMonitorStart] ++ mid ++ [EvIterationDoneSet; EvMonitorJoin] /\
    fst (try_finally (run_body cfg o p) run_finally s) =
      fst (serve_and_classify cfg o p (set_trace (trace s ++ [EvMonitorStart]) s)).
Proof.
  unfold try_finally, run_body, run_finally, mbind, M_bind, bind, emit, modify.
  set (s1 := set_trace (trace s ++ [EvMonitorStart]) s).
  destruct (serve_and_classify_quiet cfg o p s1) as (mid & Hmid & Hq).
  destruct (serve_and_classify cfg o p s1) as [r s2]. cbn [snd fst] in *.
  exists mid. split; [exact Hq|]. split; [|reflexivity].
  rewrite Hmid. subst s1. cbn. rewrite <- !app_assoc. reflexivity.
Qed.

(** ** [Interesting._run]: launching the target *)

(** The retry loop with [n] iterations left, entered at launch number [k]:
    some [j <= n] launches fail with a launch error, each followed by the
    sleep; then the loop is out of iterations, or a launch succeeds and
    ends it, or a launch raises something else, which propagates. *)
Lemma launch_loop_spec (cfg : config) (o : trial_obs) :
  forall n k s,
  let a := attempt_event cfg s in
  exists j, (j <= n)%nat /\
    (forall i, (i < j)%nat -> launch_failed o (k + i)) /\
    ((j = n /\
      launch_loop cfg o n k s =
        (Ok tt, set_trace (trace s ++ failed_attempts a j) s)) \/
     ((j < n)%nat /\ launch_result o (k + j) = Ok tt /\
      launch_loop cfg o n k s =
        (Ok tt, set_target_closed false
                  (set_trace (trace s ++ failed_attempts a j ++ [a]) s))) \/
     ((j < n)%nat /\
      exists e, launch_result o (k + j) = Raise e /\
        isinstance e "LaunchError" = false /\
        launch_loop cfg o n k s =
          (Raise e, set_trace (trace s ++ failed_attempts a j ++ [a]) s))).
Proof.
  induction n as [|n IH]; intros k s a.
  - exists O. split; [lia|]. split; [intros i Hi; lia|]. left.
    split; [reflexivity|]. cbn. rewrite app_nil_r. destruct s; reflexivity.
  - cbn [launch_loop]. unfold mbind, M_bind, bind, get, emit, modify, raise.
    fold (attempt_event cfg s). fold a.
    destruct (launch_result o k) as [[]|e] eqn:Hk.
    + exists O. split; [lia|]. split; [intros i Hi; lia|]. right. left.
      split; [lia|]. rewrite Nat.add_0_r. split; [exact Hk|]. reflexivity.
    + destruct (isinstance e "LaunchError") eqn:He.
      * set (s1 := set_trace
                     (trace (set_trace (trace s ++ [a]) s) ++ [EvSleep 15])
                     (set_trace (trace s ++ [a]) s)).
        destruct (IH (S k) s1) as (j & Hj & Hfail & Hcase).
        assert (Ha : attempt_event cfg s1 = a) by reflexivity.
        rewrite Ha in Hcase.
        assert (Htr : forall l, trace s1 ++ l = trace s ++ failed_attempts a 1 ++ l).
        { intros l. subst s1. cbn. rewrite <- !app_assoc. reflexivity. }
        exists (S j). split; [lia|]. split.
        { intros i Hi. destruct i as [|i].
          - rewrite Nat.add_0_r. exists e. split; assumption.
          - replace (k + S i)%nat with (S k + i)%nat by lia. apply Hfail. lia. }
        replace (k + S j)%nat with (S k + j)%nat by lia.
        change (failed_attempts a (S j)) with (failed_attempts a 1 ++ failed_attempts a j).
        destruct Hcase as [(Hjn & Hl)|[(Hjn & Hok & Hl)|(Hjn & e' & He' & Hi' & Hl)]].
        -- left. split; [lia|]. cbn beta iota. rewrite Hl, Htr. reflexivity.
        -- right. left. split; [lia|]. split; [exact Hok|].
           cbn beta iota. rewrite Hl, Htr, <- app_assoc. reflexivity.
        -- right. right. split; [lia|]. exists e'. split; [exact He'|].
           split; [exact Hi'|]. cbn beta iota. rewrite Hl, Htr, <- app_assoc.
           reflexivity.
      * exists O. split; [lia|]. split; [intros i Hi; lia|]. right. right.
        split; [lia|]. exists e. rewrite Nat.add_0_r.
        split; [exact Hk|]. split; [exact He|]. reflexivity.
Qed.

Lemma launch_sapphire_keeps_closed (cfg : config) (o : trial_obs) :
  preserves (fun s s' => target_closed s' = target_closed s) (launch_sapphire cfg o).
Proof.
  apply preserves_launch_sapphire with (allowed := fun _ => true);
    first [ (intros; reflexivity) | (intros a b c H1 H2; rewrite H2; exact H1) ].
Qed.

(** [_run] once the server is there: the relaunch, then the [try] block. *)
Lemma run_after_sapphire (cfg : config) (o : trial_obs) (p : string) (s s1 : state) :
  launch_sapphire cfg o s = (Ok tt, s1) ->
  _run cfg o p s =
  match relaunch cfg o s1 with
  | (Ok _, s2) => try_finally (run_body cfg o p) run_finally s2
  | (Raise e, s2) => (Raise e, s2)
  end.
Proof.
  intros H. unfold _run, mbind, M_bind, bind. rewrite H. reflexivity.
Qed.

(** The retry loop, by what the launches of the trial do.  With the target
    closed at the start of the trial, some [j <= 4] attempts raise an
    [ffpuppet.LaunchError] and are each followed by a sleep of 15 seconds;
    then either all four attempts are used up, and the trial goes on into
    its [try] block with the target still closed; or attempt [j] returns,
    and the trial goes on with the target open; or attempt [j] raises
    something that is no [LaunchError], and that exception leaves the trial
    there and then. *)
Lemma launch_retry_cases
    (cfg : config) (o : trial_obs) (p : string) (s s1 : state) :
  target_closed s = true ->
  launch_sapphire cfg o s = (Ok tt, s1) ->
  let a := attempt_event cfg s1 in
  let proceed (s2 : state) := try_finally (run_body cfg o p) run_finally s2 in
  (exists j, (j <= 4)%nat /\
     (forall i, (i < j)%nat -> launch_failed o i) /\
     ((j = 4%nat /\
       _run cfg o p s = proceed (set_trace (trace s1 ++ failed_attempts a 4) s1)) \/
      ((j < 4)%nat /\ launch_result o j = Ok tt /\
       _run cfg o p s =
         proceed (set_target_closed false
                    (set_trace (trace s1 ++ failed_attempts a j ++ [a]) s1))) \/
      ((j < 4)%nat /\
       exists e, launch_result o j = Raise e /\
         isinstance e "LaunchError" = false /\
         _run cfg o p s =
           (Raise e, set_trace (trace s1 ++ failed_attempts a j ++ [a]) s1)))) /\
  ((forall i, (i < 4)%nat -> launch_failed o i) ->
   let s2 := set_trace (trace s1 ++ failed_attempts a 4) s1 in
   _run cfg o p s = proceed s2 /\ target_closed s2 = true).
Proof.
  intros Hclosed Hsap a proceed.
  assert (Hc1 : target_closed s1 = true).
  { pose proof (launch_sapphire_keeps_closed cfg o s) as H.
    rewrite Hsap in H. cbn [snd] in H. rewrite H. exact Hclosed. }
  rewrite (run_after_sapphire cfg o p s s1 Hsap).
  unfold relaunch, mbind, M_bind, bind, get, when. rewrite Hc1.
  destruct (launch_loop_spec cfg o 4 0 s1) as (j & Hj & Hfail & Hcase).
  fold a in Hcase. cbn [Nat.add] in Hcase.
  assert (Hall : (exists j, (j <= 4)%nat /\
     (forall i, (i < j)%nat -> launch_failed o i) /\
     ((j = 4%nat /\
       match launch_loop cfg o 4 0 s1 with
       | (Ok _, s2) => try_finally (run_body cfg o p) run_finally s2
       | (Raise e, s2) => (Raise e, s2)
       end = proceed (set_trace (trace s1 ++ failed_attempts a 4) s1)) \/
      ((j < 4)%nat /\ launch_result o j = Ok tt /\
       match launch_loop cfg o 4 0 s1 with
       | (Ok _, s2) => try_finally (run_body cfg o p) run_finally s2
       | (Raise e, s2) => (Raise e, s2)
       end =
         proceed (set_target_closed false
                    (set_trace (trace s1 ++ failed_attempts a j ++ [a]) s1))) \/
      ((j < 4)%nat /\
       exists e, launch_result o j = Raise e /\
         isinstance e "LaunchError" = false /\
         match launch_loop cfg o 4 0 s1 with
         | (Ok _, s2) => try_finally (run_body cfg o p) run_finally s2
         | (Raise e, s2) => (Raise e, s2)
         end =
           (Raise e, set_trace (trace s1 ++ failed_attempts a j ++ [a]) s1))))).
  { exists j. split; [exact Hj|]. split; [exact Hfail|].
    destruct Hcase as [(Hjn & Hl)|[(Hjn & Hok & Hl)|(Hjn & e & He & Hi & Hl)]].
    - left. subst j. split; [reflexivity|]. rewrite Hl. reflexivity.
    - right. left. split; [exact Hjn|]. split; [exact Hok|]. rewrite Hl. reflexivity.
    - right. right. split; [exact Hjn|]. exists e. split; [exact He|].
      split; [exact Hi|]. rewrite Hl. reflexivity. }
  split; [exact Hall|].
  intros Hfour. split; [|exact Hc1].
  destruct Hall as (j' & Hj' & _ & [(Hjn & Hl)|[(Hjn & Hok & _)|(Hjn & e & He & Hi & _)]]).
  - exact Hl.
  - exfalso. destruct (Hfour j' Hjn) as (e & He & _). congruence.
  - exfalso. destruct (Hfour j' Hjn) as (e' & He' & Hi'). congruence.
Qed.

(** A trial whose target raises [ffpuppet.LaunchError] itself at each of the
    four launches goes on into its [try] block after four attempts, each
    followed by the sleep. *)
Lemma four_launch_errors_are_slept_through :
  let s1 := set_trace [EvServerNew 70; EvSetRedirect "/first_test"]
              (set_server (Some 70%Q) fresh) in
  target_closed fresh = true /\
  launch_sapphire (oracle false 0) unlaunchable_trial fresh = (Ok tt, s1) /\
  _run (oracle false 0) unlaunchable_trial "/tmp/7" fresh =
    try_finally (run_body (oracle false 0) unlaunchable_trial "/tmp/7") run_finally
      (set_trace (trace s1 ++
                  failed_attempts (attempt_event (oracle false 0) s1) 4) s1).
Proof.
  cbv zeta. split; [reflexivity|]. split; [reflexivity|].
  refine (proj1 (proj2 (launch_retry_cases (oracle false 0) unlaunchable_trial
                          "/tmp/7" fresh _ eq_refl eq_refl) _)).
  intros i Hi. exists (LaunchError "no display"). split; reflexivity.
Qed.

(** [PuppetTarget.launch] gives its caller the same result whatever the
    location and the environment it is called with. *)
Lemma puppet_target_launch_result
    (mro : string -> list string) (t : target) (puppet_launch : result unit)
    (loc : location) (env_mod : option environ) :
  fst (fst (launch mro puppet_launch t loc env_mod))
  = puppet_target_launch mro t puppet_launch.
Proof.
  unfold puppet_target_launch, launch.
  destruct (prefs_missing t); [reflexivity|].
  destruct puppet_launch as [[]|exc]; [reflexivity|].
  destruct (isinstance exc "LaunchError"); [|reflexivity].
  destruct (isinstance exc "BrowserTimeoutError"); reflexivity.
Qed.

(** What reaches the retry loop from a [PuppetTarget] with prefs.  A launch
    of the puppet that returns is a launch that returns.  An exception of
    the puppet that is no [LaunchError] is passed on as it is, and is no
    launch failure for the loop. *)
Lemma puppet_target_passes_on
    (mro : string -> list string) (t : target) (pl : nat -> result unit)
    (o : trial_obs) :
  prefs_missing t = false ->
  through_puppet_target mro t pl o ->
  (forall k, pl k = Ok tt -> launch_result o k = Ok tt) /\
  (forall k e, pl k = Raise e -> isinstance e "LaunchError" = false ->
     launch_result o k = Raise e /\ ~ launch_failed o k).
Proof.
  intros Hp Hthrough. split.
  - intros k Hk. rewrite (Hthrough k), Hk.
    unfold puppet_target_launch, launch. rewrite Hp. reflexivity.
  - intros k e Hk He.
    assert (Hl : launch_result o k = Raise e).
    { rewrite (Hthrough k), Hk.
      unfold puppet_target_launch, launch. rewrite Hp, He. reflexivity. }
    split; [exact Hl|].
    intros (e' & He' & Hi'). rewrite Hl in He'. injection He' as <-.
    rewrite He in Hi'. discriminate.
Qed.

(** A [LaunchError] of the puppet reaches the loop as a [TargetLaunchTimeout]
    or a [TargetLaunchError] with the same message; the loop takes it for a
    launch failure exactly if that class counts [LaunchError] among its
    bases, which target.py decides. *)
Lemma puppet_launch_error_converted
    (mro : string -> list string) (t : target) (pl : nat -> result unit)
    (o : trial_obs) (k : nat) (e : exn) :
  prefs_missing t = false ->
  through_puppet_target mro t pl o ->
  pl k = Raise e ->
  isinstance e "LaunchError" = true ->
  let cls := if isinstance e "BrowserTimeoutError"
             then "TargetLaunchTimeout" else "TargetLaunchError" in
  launch_result o k = Raise (Exn cls (mro cls) (exn_msg e)) /\
  (launch_failed o k <-> "LaunchError" ∈ cls :: mro cls).
Proof.
  intros Hp Hthrough Hk He cls.
  assert (Hl : launch_result o k = Raise (Exn cls (mro cls) (exn_msg e))).
  { rewrite (Hthrough k), Hk.
    unfold puppet_target_launch, launch. rewrite Hp, He. subst cls.
    destruct (isinstance e "BrowserTimeoutError"); reflexivity. }
  split; [exact Hl|]. split.
  - intros (e' & He' & Hi'). rewrite Hl in He'. injection He' as <-.
    unfold isinstance in Hi'. cbn [exn_class exn_bases] in Hi'.
    apply bool_decide_eq_true_1 in Hi'. exact Hi'.
  - intros Hin. eexists. split; [exact Hl|].
    unfold isinstance. cbn [exn_class exn_bases].
    apply bool_decide_eq_true_2. exact Hin.
Qed.

(** The retry loop and [PuppetTarget.launch] together.  When the puppet
    fails to launch, [PuppetTarget.launch] raises a [TargetLaunchError]; if
    that class does not derive from [ffpuppet.LaunchError] the loop does not
    catch it, and the trial raises it after this one attempt, without
    sleeping. *)
Lemma launch_error_escapes_unless_derived
    (mro : string -> list string) (t : target) (msg : string)
    (cfg : config) (o : trial_obs) (p : string) (s s1 : state) :
  "LaunchError" ∉ "TargetLaunchError" :: mro "TargetLaunchError" ->
  prefs_missing t = false ->
  target_closed s = true ->
  launch_sapphire cfg o s = (Ok tt, s1) ->
  launch_result o 0 =
    fst (fst (launch mro (Raise (LaunchError msg)) t
                (location_of cfg s1) (env_mod cfg))) ->
  _run cfg o p s =
    (Raise (TargetLaunchError mro msg),
     set_trace (trace s1 ++ [attempt_event cfg s1]) s1).
Proof.
  intros Hmro Hp Hclosed Hsap Hl.
  assert (Hc1 : target_closed s1 = true).
  { pose proof (launch_sapphire_keeps_closed cfg o s) as H.
    rewrite Hsap in H. cbn [snd] in H. rewrite H. exact Hclosed. }
  destruct (launch_failure_class mro t (location_of cfg s1) (env_mod cfg) msg Hp)
    as (Hraise & _ & Hinst).
  rewrite Hraise in Hl.
  rewrite (run_after_sapphire cfg o p s s1 Hsap).
  unfold relaunch, mbind, M_bind, bind, get, when. rewrite Hc1.
  cbn [launch_loop]. unfold mbind, M_bind, bind, get, emit, modify, raise.
  rewrite Hl, Hinst, bool_decide_eq_false_2 by exact Hmro.
  reflexivity.
Qed.

(** C9, as the code has it.  When the target is closed at the start of a
    trial, [launch] is attempted at most four times.  An attempt that raises
    an [ffpuppet.LaunchError] -- that class or a subclass of it -- is
    followed by a sleep of 15 seconds; an attempt that returns ends the
    retries, and the trial goes on with the target open; and when all four
    attempts raise launch errors the trial raises nothing for it: it goes on
    into its [try] block with the target still closed.  An attempt that
    raises anything else is not retried: there is no sleep, and the
    exception leaves the trial at once.  With a [PuppetTarget] as the
    target, a launch of the puppet that returns is an attempt that returns,
    and an exception of the puppet that is no [LaunchError] is passed on
    unchanged and so is such an exception: raised by the first launch, it
    ends the trial after that one attempt. *)
Theorem launch_retry_policy
    (cfg : config) (o : trial_obs) (p : string) (s s1 : state) :
  target_closed s = true ->
  launch_sapphire cfg o s = (Ok tt, s1) ->
  let a := attempt_event cfg s1 in
  let proceed (s2 : state) := try_finally (run_body cfg o p) run_finally s2 in
  (exists j, (j <= 4)%nat /\
     (forall i, (i < j)%nat -> launch_failed o i) /\
     ((j = 4%nat /\
       _run cfg o p s = proceed (set_trace (trace s1 ++ failed_attempts a 4) s1)) \/
      ((j < 4)%nat /\ launch_result o j = Ok tt /\
       _run cfg o p s =
         proceed (set_target_closed false
                    (set_trace (trace s1 ++ failed_attempts a j ++ [a]) s1))) \/
      ((j < 4)%nat /\
       exists e, launch_result o j = Raise e /\
         isinstance e "LaunchError" = false /\
         _run cfg o p s =
           (Raise e, set_trace (trace s1 ++ failed_attempts a j ++ [a]) s1)))) /\
  ((forall i, (i < 4)%nat -> launch_failed o i) ->
   let s2 := set_trace (trace s1 ++ failed_attempts a 4) s1 in
   _run cfg o p s = proceed s2 /\ target_closed s2 = true) /\
  (forall (mro : string -> list string) (t : target) (pl : nat -> result unit),
     prefs_missing t = false ->
     through_puppet_target mro t pl o ->
     (forall k, pl k = Ok tt -> launch_result o k = Ok tt) /\
     (forall k e, pl k = Raise e -> isinstance e "LaunchError" = false ->
        launch_result o k = Raise e /\ ~ launch_failed o k) /\
     (forall e, pl 0%nat = Raise e -> isinstance e "LaunchError" = false ->
        _run cfg o p s = (Raise e, set_trace (trace s1 ++ [a]) s1))).
Proof.
  intros Hclosed Hsap a proceed.
  destruct (launch_retry_cases cfg o p s s1 Hclosed Hsap) as (Hcases & Hfour).
  fold a in Hcases, Hfour. fold proceed in Hcases, Hfour.
  split; [exact Hcases|]. split; [exact Hfour|].
  intros mro t pl Hp Hthrough.
  destruct (puppet_target_passes_on mro t pl o Hp Hthrough) as (Hok & Hother).
  split; [exact Hok|]. split; [exact Hother|].
  intros e Hk He. destruct (Hother 0%nat e Hk He) as (Hl & Hnf).
  destruct Hcases as (j & _ & Hfail & Hcase).
  destruct j as [|j].
  - destruct Hcase as [(Hj & _)|[(_ & Hl' & _)|(_ & e' & Hl' & _ & Hrun)]].
    + discriminate Hj.
    + rewrite Hl in Hl'. discriminate Hl'.
    + rewrite Hl in Hl'. injection Hl' as <-. exact Hrun.
  - exfalso. apply Hnf. apply Hfail. lia.
Qed.

(** Against a [PuppetTarget] whose puppet cannot run the browser binary, the
    trial makes one launch attempt, does not sleep, and raises the puppet's
    [OSError]. *)
Lemma launch_retry_policy_witness :
  let cfg := oracle false 0 in
  let o := puppet_target_trial (fun _ => ["Exception"])
             (fun _ => Raise not_executable) in
  let s1 := set_trace [EvServerNew 70; EvSetRedirect "/first_test"]
              (set_server (Some 70%Q) fresh) in
  target_closed fresh = true /\
  launch_sapphire cfg o fresh = (Ok tt, s1) /\
  _run cfg o "/tmp/7" fresh =
    (Raise not_executable, set_trace (trace s1 ++ [attempt_event cfg s1]) s1).
Proof.
  cbv zeta. split; [reflexivity|]. split; [reflexivity|].
  refine (proj2 (proj2 (proj2 (proj2
            (launch_retry_policy (oracle false 0)
               (puppet_target_trial (fun _ => ["Exception"])
                  (fun _ => Raise not_executable))
               "/tmp/7" fresh _ eq_refl eq_refl))
            (fun _ => ["Exception"]) target_with_prefs
            (fun _ => Raise not_executable) eq_refl (fun k => eq_refl)))
          not_executable eq_refl eq_refl).
Defined.

(** C9 as stated fails: not every failed launch is followed by a sleep and
    another attempt, and four failed launches do not always let the trial
    proceed.  Against a [PuppetTarget] whose puppet raises an [OSError] at
    every launch, the trial does not go on into its [try] block after four
    attempts and four sleeps: it raises. *)
Lemma failed_launch_is_not_always_retried :
  ~ (forall (cfg : config) (mro : string -> list string) (t : target)
            (pl : nat -> result unit) (o : trial_obs) (p : string)
            (s s1 : state),
       prefs_missing t = false ->
       through_puppet_target mro t pl o ->
       target_closed s = true ->
       launch_sapphire cfg o s = (Ok tt, s1) ->
       (forall k, (k < 4)%nat -> exists e, pl k = Raise e) ->
       _run cfg o p s =
       try_finally (run_body cfg o p) run_finally
         (set_trace (trace s1 ++ failed_attempts (attempt_event cfg s1) 4) s1)).
Proof.
  intros H.
  pose proof (H (oracle false 0) (fun _ => ["Exception"]) target_with_prefs
                (fun _ => Raise not_executable)
                (puppet_target_trial (fun _ => ["Exception"])
                   (fun _ => Raise not_executable))
                "/tmp/7" fresh
                (set_trace [EvServerNew 70; EvSetRedirect "/first_test"]
                   (set_server (Some 70%Q) fresh))
                eq_refl (fun k => eq_refl) eq_refl eq_refl
                (fun k _ => ex_intro _ not_executable eq_refl)) as Hc.
  apply (f_equal fst) in Hc. vm_compute in Hc. discriminate Hc.
Qed.

(** ** [Interesting._run]: the [finally] block *)

(** C8.  Every trial leaves a trace of one of two shapes.  Either it raised
    ahead of its [try] block, before there was a monitor thread; or the
    monitor was started once and, whatever happened after that -- a verdict
    either way, or an error raised while serving or classifying --, the last
    two effects of the trial are the setting of the iteration-done signal
    and the join of the monitor thread.  The first shape requires a call
    ahead of the [try] block to raise. *)
Theorem run_joins_monitor
    (cfg : config) (o : trial_obs) (p : string) (s : state) :
  let r := fst (_run cfg o p s) in
  let s' := snd (_run cfg o p s) in
  let joined (pre : list event) :=
    exists mid, quiet mid = true /\
      trace s' = trace s ++ pre ++ [EvMonitorStart] ++ mid
                 ++ [EvIterationDoneSet; EvMonitorJoin] in
  (exists pre, quiet pre = true /\
     ((exists e, r = Raise e /\ trace s' = trace s ++ pre) \/ joined pre)) /\
  (prelude_returns o -> exists pre, quiet pre = true /\ joined pre).
Proof.
  cbv zeta.
  assert (Hshape : exists pre, quiet pre = true /\
     ((exists e, fst (_run cfg o p s) = Raise e /\
                 trace (snd (_run cfg o p s)) = trace s ++ pre /\
                 ~ prelude_returns o) \/
      (exists mid, quiet mid = true /\
         trace (snd (_run cfg o p s)) =
         trace s ++ pre ++ [EvMonitorStart] ++ mid
         ++ [EvIterationDoneSet; EvMonitorJoin]))).
  { unfold _run, mbind, M_bind, bind.
    destruct (launch_sapphire_quiet cfg o s) as (e1 & H1 & Q1).
    pose proof (eq_refl (launch_sapphire cfg o s)) as Hdef.
    unfold launch_sapphire at 2 in Hdef.
    destruct (launch_sapphire cfg o s) as [[[]|ex] s1] eqn:Hsap; cbn [snd fst] in *.
    - destruct (relaunch_quiet cfg o s1) as (e2 & H2 & Q2).
      pose proof (eq_refl (relaunch cfg o s1)) as Hdef2.
      unfold relaunch at 2 in Hdef2.
      destruct (relaunch cfg o s1) as [[[]|ex] s2] eqn:Hrel; cbn [snd fst] in *.
      + destruct (run_try_trace cfg o p s2) as (mid & Qm & Hm & _).
        exists (e1 ++ e2). split; [rewrite quiet_app, Q1, Q2; reflexivity|].
        right. exists mid. split; [exact Qm|].
        rewrite Hm, H2, H1, <- !app_assoc. reflexivity.
      + exists (e1 ++ e2). split; [rewrite quiet_app, Q1, Q2; reflexivity|].
        left. exists ex. split; [reflexivity|].
        split; [rewrite H2, H1, <- !app_assoc; reflexivity|].
        intros (_ & _ & Hl).
        unfold mbind, M_bind, bind, get, when in Hdef2.
        destruct (target_closed s1); [|discriminate].
        destruct (launch_loop_spec cfg o 4 0 s1) as (j & _ & _ & Hcase).
        destruct Hcase as [(_ & Hll)|[(_ & _ & Hll)|(_ & e & He & Hi & _)]].
        * rewrite Hll in Hdef2. discriminate.
        * rewrite Hll in Hdef2. discriminate.
        * rewrite (Hl _ _ He) in Hi. discriminate.
    - exists e1. split; [exact Q1|]. left. exists ex.
      split; [reflexivity|]. split; [exact H1|].
      intros (Hn & Hh & _).
      unfold mbind, M_bind, bind, get, call, when, emit, modify, raise, ret in Hdef.
      destruct (server s); [discriminate|].
      rewrite Hn in Hdef. destruct (no_harness cfg); cbn in Hdef; [discriminate|].
      rewrite Hh in Hdef. discriminate. }
  destruct Hshape as (pre & Qp & Hcase). split.
  - exists pre. split; [exact Qp|].
    destruct Hcase as [(e & Hr & Ht & _)|Hj]; [left; exists e; split; assumption|].
    right. exact Hj.
  - intros Hprel. exists pre. split; [exact Qp|].
    destruct Hcase as [(e & _ & _ & Hn)|Hj]; [exfalso; exact (Hn Hprel) | exact Hj].
Qed.

(** ** [Interesting._run]: which crashes count *)

Lemma bind_returns {A B} (m : M A) (k : A -> M B) (s s1 : state) (a : A) :
  m s = (Ok a, s1) -> (m ≫= k) s = k a s1.
Proof. intros H. unfold mbind, M_bind, bind. rewrite H. reflexivity. Qed.

Lemma bind_unfold {A B} (m : M A) (k : A -> M B) (s : state) :
  (m ≫= k) s =
  match m s with
  | (Ok a, s1) => k a s1
  | (Raise e, s1) => (Raise e, s1)
  end.
Proof. reflexivity. Qed.

Lemma launch_sapphire_returns (cfg : config) (o : trial_obs) (s : state) :
  (forall st, raises o st = None) ->
  returns_keeping_sig (launch_sapphire cfg o) tt s.
Proof.
  intros Hn. unfold returns_keeping_sig, launch_sapphire.
  unfold call. rewrite ?Hn.
  unfold mbind, M_bind, bind, get, emit, modify, when, ret.
  destruct (server s), (no_harness cfg); cbn; eexists; split; reflexivity.
Qed.

Lemma relaunch_returns (cfg : config) (o : trial_obs) (s : state) :
  (forall k, launch_result o k = Ok tt) ->
  returns_keeping_sig (relaunch cfg o) tt s.
Proof.
  intros Hl. unfold returns_keeping_sig, relaunch, mbind, M_bind, bind, get, when, ret.
  destruct (target_closed s); [|eexists; split; reflexivity].
  cbn [launch_loop]. unfold mbind, M_bind, bind, get, emit, modify.
  rewrite Hl. eexists; split; reflexivity.
Qed.

Lemma serve_returns (cfg : config) (o : trial_obs) (s : state) :
  (forall st, raises o st = None) ->
  returns_keeping_sig (serve cfg o) (server_status o) s.
Proof.
  intros Hn. unfold returns_keeping_sig, serve.
  unfold call. rewrite ?Hn.
  unfold try_finally, mbind, M_bind, bind, get, emit, modify, when, ret.
  destruct (no_harness cfg); cbn; eexists; split; reflexivity.
Qed.

Lemma target_detect_failure_returns (cfg : config) (o : trial_obs) (t : bool)
    (s : state) :
  (forall st, raises o st = None) ->
  returns_keeping_sig (target_detect_failure cfg o t)
    (fst (detect_failure (puppet o) (ignore cfg) t)) s.
Proof.
  intros Hn. unfold returns_keeping_sig, target_detect_failure.
  unfold call. rewrite ?Hn.
  destruct (detect_failure (puppet o) (ignore cfg) t) as [status evs].
  unfold mbind, M_bind, bind, get, emit, modify, when, ret.
  destruct (detect_closes (puppet o) t); cbn; eexists; split; reflexivity.
Qed.

Lemma update_timeout_returns (o : trial_obs) (t : Q) (s : state) :
  raises o SServerClose = None ->
  returns_keeping_sig (update_timeout o t) tt s.
Proof.
  intros Hn. unfold returns_keeping_sig, update_timeout.
  unfold call. rewrite ?Hn.
  unfold mbind, M_bind, bind, get, emit, modify, when, ret.
  destruct (Qlt_bool _ (idle_timeout s)); cbn;
    destruct (Qlt_bool _ (iter_timeout s)); cbn;
    try destruct (server s); cbn; eexists; split; reflexivity.
Qed.

(** When nothing raises, a trial classified as a failure returns what the
    failure branch returns, run from a state with the same reference
    signature, and leaves the reference signature that branch leaves. *)
Lemma run_verdict_of_handle_failure (cfg : config) (o : trial_obs) (p : string)
    (s0 : state) :
  (forall st, raises o st = None) ->
  (forall k, launch_result o k = Ok tt) ->
  fst (detect_failure (puppet o) (ignore cfg)
         (bool_decide (server_status o = SERVED_TIMEOUT))) = RESULT_FAILURE ->
  exists s_mid,
    orig_sig s_mid = orig_sig s0 /\
    fst (_run cfg o p s0) = fst (handle_failure cfg o p RESULT_FAILURE s_mid) /\
    orig_sig (snd (_run cfg o p s0)) =
      orig_sig (snd (handle_failure cfg o p RESULT_FAILURE s_mid)).
Proof.
  intros Hn Hl Hfail.
  destruct (launch_sapphire_returns cfg o s0 Hn) as (s1 & E1 & S1).
  destruct (relaunch_returns cfg o s1 Hl) as (s2 & E2 & S2).
  set (s3 := set_trace (trace s2 ++ [EvMonitorStart]) s2).
  destruct (serve_returns cfg o s3 Hn) as (s4 & E4 & S4).
  destruct (target_detect_failure_returns cfg o
              (bool_decide (server_status o = SERVED_TIMEOUT)) s4 Hn)
    as (s5 & E5 & S5).
  rewrite Hfail in E5.
  exists s5. split; [rewrite S5, S4; subst s3; cbn; rewrite S2, S1; reflexivity|].
  unfold _run.
  rewrite (bind_returns _ _ _ _ _ E1), (bind_returns _ _ _ _ _ E2).
  unfold try_finally, run_body, run_finally.
  assert (Hbody : (emit [EvMonitorStart];; serve_and_classify cfg o p) s2 =
                  (handle_failure cfg o p RESULT_FAILURE ≫= fun result =>
                     call o SCheckRelaunch [EvCheckRelaunch];;
                     when (relaunch_due o) (modify (set_target_closed true));;
                     ret result) s5).
  { unfold serve_and_classify.
    change ((emit [EvMonitorStart];; _) s2) with
      ((serve cfg o ≫= fun status =>
          target_detect_failure cfg o (bool_decide (status = SERVED_TIMEOUT)) ≫=
          fun failure_detected =>
            handle_failure cfg o p failure_detected ≫= fun result =>
              call o SCheckRelaunch [EvCheckRelaunch];;
              when (relaunch_due o) (modify (set_target_closed true));;
              ret result) s3).
    rewrite (bind_returns _ _ _ _ _ E4), (bind_returns _ _ _ _ _ E5).
    reflexivity. }
  rewrite Hbody. rewrite !(bind_unfold (handle_failure cfg o p RESULT_FAILURE)).
  destruct (handle_failure cfg o p RESULT_FAILURE s5) as [[b|e] s6]; cbn [fst snd].
  - unfold call. rewrite Hn.
    unfold mbind, M_bind, bind, emit, modify, when, ret.
    destruct (relaunch_due o); cbn; split; reflexivity.
  - unfold emit, modify. cbn. split; reflexivity.
Qed.

(** *** Running a method step by step

    [m s = (r, s')] read as a judgement, with one rule per construct, so
    that a method can be executed from a given state by applying rules. *)

Lemma run_ret {A} (a : A) (s : state) : ret a s = (Ok a, s).
Proof. reflexivity. Qed.

Lemma run_get (s : state) : get s = (Ok s, s).
Proof. reflexivity. Qed.

Lemma run_modify (f : state -> state) (s : state) : modify f s = (Ok tt, f s).
Proof. reflexivity. Qed.

Lemma run_emit (evs : list event) (s : state) :
  emit evs s = (Ok tt, set_trace (trace s ++ evs) s).
Proof. reflexivity. Qed.

Lemma run_call (o : trial_obs) (st : stage) (evs : list event) (s : state) :
  raises o st = None ->
  call o st evs s = (Ok tt, set_trace (trace s ++ evs) s).
Proof. intros H. unfold call. rewrite H. reflexivity. Qed.

Lemma run_bind {A B} (m : M A) (k : A -> M B) (s s1 s2 : state) (a : A)
    (r : result B) :
  m s = (Ok a, s1) -> k a s1 = (r, s2) -> (m ≫= k) s = (r, s2).
Proof. intros H1 H2. rewrite (bind_returns _ _ _ _ _ H1). exact H2. Qed.

Lemma run_when_true (m : M unit) (s s1 : state) (r : result unit) :
  m s = (r, s1) -> when true m s = (r, s1).
Proof. intros H. exact H. Qed.

Lemma run_when_false (m : M unit) (s : state) : when false m s = (Ok tt, s).
Proof. reflexivity. Qed.

Ltac run_simpl :=
  cbn [skipped result_cache orig_sig idle_timeout iter_timeout server
       target_closed landing_page wwwdir trials verdicts trace
       set_skipped set_result_cache set_orig_sig set_idle_timeout
       set_iter_timeout set_server set_target_closed set_pages set_trials
       set_verdicts set_trace andb orb negb].

Ltac run_step :=
  run_simpl;
  lazymatch goal with
  | |- (_ ≫= _) _ = _ => eapply run_bind
  | |- ret _ _ = _ => apply run_ret
  | |- get _ = _ => apply run_get
  | |- modify _ _ = _ => apply run_modify
  | |- emit _ _ = _ => apply run_emit
  | |- call _ _ _ _ = _ => apply run_call; solve [auto]
  | |- when true _ _ = _ => apply run_when_true
  | |- when false _ _ = _ => apply run_when_false
  end.

Lemma close_and_save_logs_returns (o : trial_obs) (p : string) (s : state) :
  (forall st, raises o st = None) ->
  exists s1, close_and_save_logs o p s = (Ok tt, s1) /\
    orig_sig s1 = orig_sig s /\
    trace s1 = trace s ++ [EvTargetClose; EvMkdir (p +:+ "_logs");
                           EvSaveLogs (p +:+ "_logs")].
Proof.
  intros Hn. eexists. split; [unfold close_and_save_logs; repeat run_step|].
  split; [reflexivity|]. cbn. rewrite <- !app_assoc. reflexivity.
Qed.

(** The failure branch, when nothing raises. *)
Lemma handle_failure_verdict (cfg : config) (o : trial_obs) (p : string) (s : state) :
  (forall st, raises o st = None) ->
  let r := fst (handle_failure cfg o p RESULT_FAILURE s) in
  let s' := snd (handle_failure cfg o p RESULT_FAILURE s) in
  let logs := [EvTargetClose; EvMkdir (p +:+ "_logs"); EvSaveLogs (p +:+ "_logs")] in
  if String.eqb (createShortSignature (crash o)) "No crash detected" then
    r = Ok false /\ orig_sig s' = orig_sig s /\ trace s' = trace s ++ logs
  else
    match orig_sig s with
    | None =>
        r = Ok true /\
        orig_sig s' = (if any_crash cfg then None
                       else Some (createCrashSignature (crash o) 5%nat))
    | Some sg =>
        orig_sig s' = Some sg /\
        if matched_by (crash o) sg then r = Ok true
        else r = Ok false /\
             trace s' = trace s ++ logs ++
                        (if alt_crash_cb cfg then [EvAltCrashCb p] else [])
    end.
Proof.
  intros Hn. cbv zeta.
  destruct (close_and_save_logs_returns o p s Hn) as (s1 & E1 & S1 & T1).
  unfold handle_failure.
  destruct (String.eqb (createShortSignature (crash o)) "No crash detected").
  - erewrite run_bind; [| exact E1 | repeat run_step].
    cbn. rewrite app_nil_r. repeat split; assumption.
  - destruct (orig_sig s) as [sg|] eqn:Hsig.
    + destruct (matched_by (crash o) sg) eqn:Hm.
      * destruct (update_timeout_returns o (run_time o)
                    (set_trace ((trace s1 ++ []) ++ []) s1) (Hn SServerClose))
          as (s4 & E4 & S4).
        erewrite run_bind; [| exact E1 |].
        2:{ repeat run_step. rewrite S1. repeat run_step.
            rewrite Hm. run_simpl. rewrite S1.
            rewrite bool_decide_eq_false_2 by discriminate.
            repeat run_step. exact E4. }
        cbn. split; [|reflexivity]. rewrite S4. cbn. exact S1.
      * destruct (alt_crash_cb cfg);
          (erewrite run_bind;
           [| exact E1
            | repeat run_step; rewrite S1; repeat run_step; rewrite Hm;
              repeat run_step ]);
          cbn; rewrite ?app_nil_r, T1.
        -- rewrite <- app_assoc. repeat split; try assumption; reflexivity.
        -- repeat split; try assumption; reflexivity.
    + destruct (any_crash cfg) eqn:Hany.
      * destruct (update_timeout_returns o (run_time o)
                    (set_trace (trace s1 ++ []) s1) (Hn SServerClose))
          as (s4 & E4 & S4).
        erewrite run_bind; [| exact E1 |].
        2:{ repeat run_step. rewrite S1. repeat run_step.
            rewrite S1.
            rewrite bool_decide_eq_true_2 by reflexivity.
            repeat run_step. exact E4. }
        cbn. split; [reflexivity|]. rewrite S4. cbn. exact S1.
      * destruct (update_timeout_returns o (run_time o)
                    (set_orig_sig (Some (createCrashSignature (crash o) 5%nat))
                       (set_trace ((trace s1 ++ []) ++ []) s1)) (Hn SServerClose))
          as (s4 & E4 & S4).
        erewrite run_bind; [| exact E1 |].
        2:{ repeat run_step. rewrite S1. repeat run_step.
            rewrite S1.
            rewrite bool_decide_eq_true_2 by reflexivity.
            repeat run_step. exact E4. }
        cbn. split; [reflexivity|]. rewrite S4. reflexivity.
Qed.

(** The failure branch of [_run], by its tests.  For a trial classified as a
    failure in which no collaborator raises: a report with no crash
    signature is uninteresting; otherwise the verdict is that of the test
    [self.orig_sig is None or self.orig_sig.matches(crash)], in which
    [any_crash] has no part.  With no reference signature the crash counts,
    and its 5-frame signature is adopted as the reference unless [any_crash]
    is set, in which case none is adopted.  With a reference signature the
    reference stays, the verdict is whether the report matches it, and a
    report that does not match invokes the alt-crash callback when it is
    set.  The verdict of the trial is the verdict of this branch. *)
Theorem crash_counting_policy
    (cfg : config) (o : trial_obs) (p : string) (s : state) :
  (forall st, raises o st = None) ->
  let r := fst (handle_failure cfg o p RESULT_FAILURE s) in
  let s' := snd (handle_failure cfg o p RESULT_FAILURE s) in
  let logs := [EvTargetClose; EvMkdir (p +:+ "_logs"); EvSaveLogs (p +:+ "_logs")] in
  let no_signature := createShortSignature (crash o) = "No crash detected" in
  (no_signature -> r = Ok false /\ orig_sig s' = orig_sig s) /\
  (~ no_signature -> orig_sig s = None ->
   r = Ok true /\
   orig_sig s' = (if any_crash cfg then None
                  else Some (createCrashSignature (crash o) 5%nat))) /\
  (~ no_signature -> forall sg, orig_sig s = Some sg ->
   r = Ok (matched_by (crash o) sg) /\
   orig_sig s' = Some sg /\
   (matched_by (crash o) sg = false ->
    trace s' = trace s ++ logs ++
               (if alt_crash_cb cfg then [EvAltCrashCb p] else []))) /\
  (forall s0,
     (forall k, launch_result o k = Ok tt) ->
     fst (detect_failure (puppet o) (ignore cfg)
            (bool_decide (server_status o = SERVED_TIMEOUT))) = RESULT_FAILURE ->
     exists s_mid,
       orig_sig s_mid = orig_sig s0 /\
       fst (_run cfg o p s0) = fst (handle_failure cfg o p RESULT_FAILURE s_mid) /\
       orig_sig (snd (_run cfg o p s0)) =
         orig_sig (snd (handle_failure cfg o p RESULT_FAILURE s_mid))).
Proof.
  intros Hn. cbv zeta.
  pose proof (handle_failure_verdict cfg o p s Hn) as H. cbv zeta in H.
  split; [|split; [|split]].
  - intros Hno. apply String.eqb_eq in Hno. rewrite Hno in H.
    destruct H as (H1 & H2 & _). split; assumption.
  - intros Hsig Hnone. apply String.eqb_neq in Hsig. rewrite Hsig, Hnone in H.
    exact H.
  - intros Hsig sg Hsome. apply String.eqb_neq in Hsig. rewrite Hsig, Hsome in H.
    destruct H as (H1 & H2). destruct (matched_by (crash o) sg).
    + repeat split; try assumption. discriminate.
    + destruct H2 as (H2 & H3). repeat split; try assumption. intros _. exact H3.
  - intros s0 Hl Hfail. apply run_verdict_of_handle_failure; assumption.
Qed.

(** With [any_crash] set and the reference signature [sigA] supplied, the
    failure branch finds crash B uninteresting. *)
Lemma crash_counting_policy_witness :
  (forall st, raises (smooth_trial crashed_puppet crash_b) st = None) /\
  fst (handle_failure (oracle true 0) (smooth_trial crashed_puppet crash_b)
         "/tmp/7" RESULT_FAILURE (fresh_with_sig "sigA")) = Ok false.
Proof.
  split; [intros st; reflexivity|].
  pose proof (crash_counting_policy (oracle true 0)
                (smooth_trial crashed_puppet crash_b) "/tmp/7"
                (fresh_with_sig "sigA") (fun st => eq_refl)) as H.
  destruct H as (_ & _ & H & _).
  destruct (H ltac:(discriminate) "sigA" eq_refl) as (Hr & _).
  exact Hr.
Defined.

(** Setting [any_crash] does not make every crash count: with a reference
    signature supplied as well, a crash with another signature is turned
    down. *)
Lemma any_crash_with_reference_still_filters :
  ~ (forall (cfg : config) (o : trial_obs) (p : string) (s : state),
       (forall st, raises o st = None) ->
       (forall k, launch_result o k = Ok tt) ->
       fst (detect_failure (puppet o) (ignore cfg)
              (bool_decide (server_status o = SERVED_TIMEOUT))) = RESULT_FAILURE ->
       createShortSignature (crash o) <> "No crash detected" ->
       any_crash cfg = true ->
       fst (_run cfg o p s) = Ok true).
Proof.
  intros H.
  assert (Hc : fst (_run (oracle true 0) (smooth_trial crashed_puppet crash_b)
                      "/tmp/7" (fresh_with_sig "sigA")) = Ok true).
  { apply H.
    - intros st. reflexivity.
    - intros k. reflexivity.
    - reflexivity.
    - discriminate.
    - reflexivity. }
  vm_compute in Hc. discriminate Hc.
Qed.

(** C2.  The code where it departs from the claim.  The oracle has
    [any_crash] set and was given the reference signature [sigA]; the trial
    is classified as a failure and its report, crash B, has a crash
    signature, which [sigA] does not match.  By the claim, and by the
    comment on [alt_crash_cb] in [__init__] (called for crashes that do not
    match the original signature, assuming --any-crash is not set), the
    crash counts and the callback is not called.  The code returns [False],
    having called [alt_crash_cb] with the prefix of the trial: it does what
    it does with [any_crash] unset.  Without the reference signature the
    same crash counts. *)
Theorem any_crash_with_reference_rejects_crash :
  let cfg := oracle true 0 in
  let o := smooth_trial crashed_puppet crash_b in
  let r := _run cfg o "/tmp/7" (fresh_with_sig "sigA") in
  any_crash cfg = true /\
  alt_crash_cb cfg = true /\
  orig_sig (fresh_with_sig "sigA") = Some "sigA" /\
  fst (detect_failure (puppet o) (ignore cfg)
         (bool_decide (server_status o = SERVED_TIMEOUT))) = RESULT_FAILURE /\
  createShortSignature (crash o) <> "No crash detected" /\
  matched_by (crash o) "sigA" = false /\
  fst r = Ok false /\
  In (EvAltCrashCb "/tmp/7") (trace (snd r)) /\
  r = _run (oracle false 0) o "/tmp/7" (fresh_with_sig "sigA") /\
  fst (_run cfg o "/tmp/7" fresh) = Ok true.
Proof.
  cbv zeta.
  repeat match goal with |- _ /\ _ => split end;
    vm_compute; first [reflexivity | discriminate | tauto].
Qed.

(** ** [Interesting.interesting]: the skip gate *)

Lemma set_skipped_same (s : state) (v : option Z) :
  skipped s = v -> set_skipped v s = s.
Proof. intros <-. destruct s; reflexivity. Qed.

Lemma same_bookkeeping_refl (s : state) : same_bookkeeping s s.
Proof. repeat split. Qed.

Lemma same_bookkeeping_trans (a b c : state) :
  same_bookkeeping a b -> same_bookkeeping b c -> same_bookkeeping a c.
Proof.
  intros (H1 & H2 & H3 & H4) (G1 & G2 & G3 & G4).
  repeat split; congruence.
Qed.

Lemma update_timeout_bookkeeping (o : trial_obs) (t : Q) :
  preserves same_bookkeeping (update_timeout o t).
Proof.
  intros s. unfold update_timeout, mbind, M_bind, bind, get, when, modify, ret, call,
    emit, raise.
  destruct (Qlt_bool _ (idle_timeout s)); cbn;
    destruct (Qlt_bool _ (iter_timeout s)); cbn;
    try (destruct (server s); [destruct (raises o SServerClose)|]);
    cbn; repeat split.
Qed.

Lemma run_bookkeeping (cfg : config) (o : trial_obs) (p : string) :
  preserves same_bookkeeping (_run cfg o p).
Proof.
  apply preserves_run with (allowed := fun _ => true);
    first [ exact same_bookkeeping_refl
          | exact same_bookkeeping_trans
          | exact update_timeout_bookkeeping
          | (intros; reflexivity)
          | (intros; repeat split) ].
Qed.

Lemma update_timeout_keeps_skipped (o : trial_obs) (t : Q) :
  preserves (fun s s' => skipped s' = skipped s) (update_timeout o t).
Proof. intros s. apply (update_timeout_bookkeeping o t s). Qed.

Lemma evaluate_keeps_skipped (cfg : config) (w : world) (c : call_obs) (p : string) :
  preserves (fun s s' => skipped s' = skipped s) (evaluate cfg w c p).
Proof.
  apply preserves_evaluate with (allowed := fun _ => true);
    first [ exact update_timeout_keeps_skipped
          | (intros; reflexivity)
          | (intros a b c' H1 H2; rewrite H2; exact H1) ].
Qed.

(** A call whose counter is set and below [skip] does nothing but count. *)
Lemma interesting_skipped (cfg : config) (w : world) (c : call_obs) (p : string)
    (s : state) (k : Z) :
  skip cfg <> 0 -> skipped s = Some k -> k < skip cfg ->
  interesting cfg w c p s = (Ok false, set_skipped (Some (k + 1)) s).
Proof.
  intros Hs Hk Hlt. unfold interesting, skip_gate.
  rewrite bool_decide_eq_false_2 by exact Hs.
  unfold mbind, M_bind, bind, get, modify, ret. rewrite Hk.
  apply Z.ltb_lt in Hlt. rewrite Hlt. reflexivity.
Qed.

(** A call whose counter is unset sets it to zero and is evaluated. *)
Lemma interesting_first (cfg : config) (w : world) (c : call_obs) (p : string)
    (s : state) :
  skip cfg <> 0 -> skipped s = None ->
  interesting cfg w c p s = evaluate cfg w c p (set_skipped (Some 0) s).
Proof.
  intros Hs Hk. unfold interesting, skip_gate.
  rewrite bool_decide_eq_false_2 by exact Hs.
  unfold mbind, M_bind, bind, get, modify, ret. rewrite Hk. reflexivity.
Qed.

(** A call whose counter has reached [skip] is evaluated. *)
Lemma interesting_past_skip (cfg : config) (w : world) (c : call_obs) (p : string)
    (s : state) (k : Z) :
  skipped s = Some k -> skip cfg <= k ->
  interesting cfg w c p s = evaluate cfg w c p s.
Proof.
  intros Hk Hle. unfold interesting, skip_gate.
  unfold mbind, M_bind, bind, get, modify, ret.
  destruct (bool_decide (skip cfg = 0)); [reflexivity|].
  rewrite Hk. apply Z.ltb_ge in Hle. rewrite Hle. reflexivity.
Qed.

Lemma session_app (cfg : config) (w : world) (a b : list (call_obs * string))
    (s : state) :
  session cfg w (a ++ b) s =
  let '(ra, sa) := session cfg w a s in
  let '(rb, sb) := session cfg w b sa in
  (ra ++ rb, sb).
Proof.
  revert s. induction a as [|[c p] a IH]; intros s; cbn [session app].
  - destruct (session cfg w b s); reflexivity.
  - destruct (interesting cfg w c p s) as [r s1]. rewrite IH.
    destruct (session cfg w a s1) as [ra sa].
    destruct (session cfg w b sa) as [rb sb]. reflexivity.
Qed.

(** Calls made while the counter is below [skip] are all skipped. *)
Lemma session_skipped (cfg : config) (w : world) :
  forall (calls : list (call_obs * string)) (s : state) (k : Z),
  skip cfg <> 0 -> skipped s = Some k ->
  k + Z.of_nat (length calls) <= skip cfg ->
  session cfg w calls s =
  (List.repeat (Ok false) (length calls),
   set_skipped (Some (k + Z.of_nat (length calls))) s).
Proof.
  induction calls as [|[c p] calls IH]; intros s k Hs Hk Hle.
  - cbn. rewrite Z.add_0_r, (set_skipped_same s _ Hk). reflexivity.
  - cbn [length] in Hle. rewrite Nat2Z.inj_succ in Hle.
    cbn [session length].
    rewrite (interesting_skipped cfg w c p s k Hs Hk) by lia.
    rewrite (IH (set_skipped (Some (k + 1)) s) (k + 1)); [|exact Hs|reflexivity|lia].
    cbn [List.repeat length]. rewrite Nat2Z.inj_succ.
    replace (k + 1 + Z.of_nat (length calls)) with (k + Z.succ (Z.of_nat (length calls)))
      by lia.
    reflexivity.
Qed.

(** C5, as the code has it.  With [skip = N > 0]: the first call of a
    session finds the counter unset, sets it to zero and is evaluated like
    any other call; each later call that finds the counter below [N] adds
    one to it and returns false at once, running no trial and touching
    nothing else; so calls 2 to N+1 are the skipped ones and call N+2 is
    evaluated again.  The counter lives in the oracle across calls, and
    [init] unsets it. *)
Theorem skip_policy
    (cfg : config) (w : world) (s : state) (N : Z) :
  skip cfg = N -> 0 < N ->
  (forall c p, skipped s = None ->
     interesting cfg w c p s = evaluate cfg w c p (set_skipped (Some 0) s)) /\
  (forall c p k, skipped s = Some k -> k < N ->
     interesting cfg w c p s = (Ok false, set_skipped (Some (k + 1)) s)) /\
  (forall c p k, skipped s = Some k -> N <= k ->
     interesting cfg w c p s = evaluate cfg w c p s) /\
  (forall c1 p1 calls c2 p2,
     skipped s = None -> Z.of_nat (length calls) = N ->
     session cfg w ((c1, p1) :: calls ++ [(c2, p2)]) s =
     let '(r1, s1) := evaluate cfg w c1 p1 (set_skipped (Some 0) s) in
     let '(r2, s2) := evaluate cfg w c2 p2 (set_skipped (Some N) s1) in
     (r1 :: List.repeat (Ok false) (length calls) ++ [r2], s2)) /\
  (forall realpath,
     skipped (snd (init realpath s)) = None /\
     result_cache (snd (init realpath s)) = ∅).
Proof.
  intros HN Hpos.
  assert (Hs : skip cfg <> 0) by lia.
  split; [|split; [|split; [|split]]].
  - intros c p Hk. apply interesting_first; assumption.
  - intros c p k Hk Hlt. apply interesting_skipped; [assumption|assumption|lia].
  - intros c p k Hk Hle. apply (interesting_past_skip cfg w c p s k); [assumption|lia].
  - intros c1 p1 calls c2 p2 Hk Hlen.
    cbn [session]. rewrite (interesting_first cfg w c1 p1 s Hs Hk).
    pose proof (evaluate_keeps_skipped cfg w c1 p1 (set_skipped (Some 0) s)) as Hkeep.
    destruct (evaluate cfg w c1 p1 (set_skipped (Some 0) s)) as [r1 s1].
    cbn [snd skipped set_skipped] in Hkeep.
    rewrite session_app.
    rewrite (session_skipped cfg w calls s1 0 Hs Hkeep) by lia.
    cbn [session]. rewrite Z.add_0_l, Hlen.
    rewrite (interesting_past_skip cfg w c2 p2 (set_skipped (Some N) s1) N);
      [|reflexivity|lia].
    destruct (evaluate cfg w c2 p2 (set_skipped (Some N) s1)) as [r2 s2].
    reflexivity.
  - intros realpath. split; reflexivity.
Qed.

(** With [skip = 2] and the counter at zero, a call is skipped and the counter
    goes to one. *)
Lemma skip_policy_witness :
  skip (oracle false 2) = 2 /\ 0 < 2 /\
  interesting (oracle false 2) (fun _ => smooth_trial crashed_puppet crash_a)
    (empty_fs "k") "/tmp/2" (set_skipped (Some 0) fresh)
  = (Ok false, set_skipped (Some 1) fresh).
Proof.
  split; [reflexivity|]. split; [lia|].
  apply (proj1 (proj2 (skip_policy (oracle false 2)
                         (fun _ => smooth_trial crashed_puppet crash_a)
                         (set_skipped (Some 0) fresh) 2 eq_refl eq_refl))
           (empty_fs "k") "/tmp/2" 0); [reflexivity | lia].
Defined.

(** C5 as stated fails: with [skip = 1] the first call of a session is not
    skipped; it runs a trial and may well return true. *)
Lemma first_call_is_not_skipped :
  ~ (forall (cfg : config) (w : world) (calls : list (call_obs * string))
            (s : state) (N : Z),
       skip cfg = N -> 0 < N -> skipped s = None ->
       Z.of_nat (length calls) <= N ->
       fst (session cfg w calls s) = List.repeat (Ok false) (length calls) /\
       trials (snd (session cfg w calls s)) = trials s).
Proof.
  intros H.
  destruct (H (oracle false 1) (fun _ => smooth_trial crashed_puppet crash_a)
              [(empty_fs "k", "/tmp/1")] fresh 1
              eq_refl eq_refl eq_refl) as [Hr _].
  { cbn. lia. }
  vm_compute in Hr. discriminate Hr.
Qed.

(** ** [Interesting.interesting]: a cached result *)

Lemma append_cons (ch : ascii) (a b : string) :
  String ch a +:+ b = String ch (a +:+ b).
Proof. reflexivity. Qed.

Lemma append_empty_l (b : string) : EmptyString +:+ b = b.
Proof. reflexivity. Qed.

Lemma append_empty_r (a : string) : a +:+ EmptyString = a.
Proof.
  induction a as [|ch a IH]; [reflexivity|]. rewrite append_cons, IH. reflexivity.
Qed.

Lemma append_assoc (a b c : string) : (a +:+ b) +:+ c = a +:+ (b +:+ c).
Proof.
  induction a as [|ch a IH]; [reflexivity|].
  rewrite !append_cons, IH. reflexivity.
Qed.

Lemma basename_from_app (a b : string) :
  forall acc, basename_from acc (a +:+ b) = basename_from (basename_from acc a) b.
Proof.
  induction a as [|ch a IH]; intros acc; [reflexivity|].
  rewrite append_cons. cbn [basename_from].
  destruct (Ascii.eqb ch "/"); apply IH.
Qed.

Lemma basename_from_no_slash (t : string) :
  forall acc, has_char "/" t = false -> basename_from acc t = acc +:+ t.
Proof.
  induction t as [|ch t IH]; intros acc H; cbn [basename_from has_char] in *.
  - rewrite append_empty_r. reflexivity.
  - apply orb_false_iff in H. destruct H as [H1 H2]. rewrite H1.
    rewrite (IH _ H2), append_assoc. reflexivity.
Qed.

(** The base name of [<prefix>_<suffix>] is the base name of the prefix,
    the underscore and the suffix, the suffix having no slash. *)
Lemma basename_with_suffix (prefix sfx : string) :
  has_char "/" sfx = false ->
  basename (with_suffix prefix sfx) = with_suffix (basename prefix) sfx.
Proof.
  intros H. unfold basename, with_suffix.
  rewrite basename_from_app. apply basename_from_no_slash.
  rewrite append_cons, append_empty_l. cbn [has_char]. exact H.
Qed.

Lemma split_underscore_with_suffix (b sfx : string) :
  has_char "_" b = false ->
  split_underscore (with_suffix b sfx) = Some (b, sfx).
Proof.
  unfold with_suffix. induction b as [|ch b IH]; intros H.
  - reflexivity.
  - cbn [has_char] in H. apply orb_false_iff in H. destruct H as [H1 H2].
    rewrite append_cons. cbn [split_underscore]. rewrite H1, (IH H2). reflexivity.
Qed.

(** Replaying one entry whose suffix the code recovers. *)
Lemma replay_cons (c : call_obs) (p cached sfx : string) (rest : list string)
    (s : state) :
  has_char "_" (basename cached) = false -> has_char "/" sfx = false ->
  replay c p (with_suffix cached sfx :: rest) s =
  if copyable c (with_suffix cached sfx)
  then replay c p rest (set_trace (trace s ++ [copy_event c cached p sfx]) s)
  else (Raise (RuntimeError ("Cannot copy non-file/non-directory: "
                             +:+ with_suffix cached sfx)), s).
Proof.
  intros Hu Hs. cbn [replay].
  rewrite (basename_with_suffix _ _ Hs), (split_underscore_with_suffix _ _ Hu).
  unfold copyable, copy_event.
  destruct (isfile c (with_suffix cached sfx)); cbn [orb].
  - reflexivity.
  - destruct (isdir c (with_suffix cached sfx)); reflexivity.
Qed.

Lemma replay_copies (c : call_obs) (p cached : string) :
  has_char "_" (basename cached) = false ->
  forall (pre : list string) (s : state),
  Forall (fun sfx => has_char "/" sfx = false) pre ->
  Forall (fun sfx => copyable c (with_suffix cached sfx) = true) pre ->
  (replay c p (map (with_suffix cached) pre) s =
     (Ok tt, set_trace (trace s ++ map (copy_event c cached p) pre) s)) /\
  (forall bad post,
     has_char "/" bad = false ->
     copyable c (with_suffix cached bad) = false ->
     replay c p (map (with_suffix cached) (pre ++ bad :: post)) s =
       (Raise (RuntimeError ("Cannot copy non-file/non-directory: "
                             +:+ with_suffix cached bad)),
        set_trace (trace s ++ map (copy_event c cached p) pre) s)).
Proof.
  intros Hu. induction pre as [|sfx pre IH]; intros s Hs Hc.
  - split.
    + cbn. rewrite app_nil_r. destruct s; reflexivity.
    + intros bad post Hb Hbad. cbn [app map].
      rewrite (replay_cons c p cached bad _ s Hu Hb), Hbad.
      cbn [map]. rewrite app_nil_r. destruct s; reflexivity.
  - inversion Hs as [|? ? Hs1 Hs2]; subst. inversion Hc as [|? ? Hc1 Hc2]; subst.
    destruct (IH (set_trace (trace s ++ [copy_event c cached p sfx]) s) Hs2 Hc2)
      as [IH1 IH2].
    split.
    + cbn [map]. rewrite (replay_cons c p cached sfx _ s Hu Hs1), Hc1, IH1.
      cbn. rewrite <- app_assoc. reflexivity.
    + intros bad post Hb Hbad. cbn [app map].
      rewrite (replay_cons c p cached sfx _ s Hu Hs1), Hc1.
      rewrite (IH2 bad post Hb Hbad). cbn. rewrite <- app_assoc. reflexivity.
Qed.

(** Getting past the skip gate changes at most the skip counter. *)
Lemma skip_gate_passed (cfg : config) (w : world) (c : call_obs) (p : string)
    (s : state) :
  not_skipped cfg s ->
  exists v, interesting cfg w c p s = evaluate cfg w c p (set_skipped v s).
Proof.
  unfold not_skipped, interesting, skip_gate.
  unfold mbind, M_bind, bind, get, modify, ret.
  destruct (bool_decide (skip cfg = 0)).
  - intros _. exists (skipped s). rewrite set_skipped_same by reflexivity. reflexivity.
  - destruct (skipped s) as [k|] eqn:Hk.
    + destruct (k <? skip cfg); [discriminate|]. intros _.
      exists (Some k). rewrite set_skipped_same by exact Hk. reflexivity.
    + intros _. exists (Some 0). reflexivity.
Qed.

Lemma replay_bookkeeping (c : call_obs) (p : string) (files : list string) :
  preserves same_bookkeeping (replay c p files).
Proof.
  apply preserves_replay with (allowed := fun _ => true);
    first [ exact same_bookkeeping_refl
          | exact same_bookkeeping_trans
          | (intros; repeat split) ].
Qed.

(** What [evaluate] does on a cache hit. *)
Lemma evaluate_hit (cfg : config) (w : world) (c : call_obs) (p : string)
    (s : state) (entry : cache_entry) :
  use_result_cache cfg = true ->
  result_cache s !! cache_key c = Some entry ->
  evaluate cfg w c p s =
  if ce_result entry then
    match replay c p (glob c (ce_prefix entry +:+ "_*")) s with
    | (Ok _, s1) => (Ok true, s1)
    | (Raise e, s1) => (Raise e, s1)
    end
  else (Ok false, s).
Proof.
  intros Hc Hhit. unfold evaluate. rewrite Hc.
  unfold mbind, M_bind, bind, get. rewrite Hhit.
  destruct (ce_result entry); cbn [when]; [|reflexivity].
  destruct (replay c p (glob c (ce_prefix entry +:+ "_*")) s) as [[[]|e] s1];
    reflexivity.
Qed.

(** C4, as the code has it.  A call that gets past the skip gate, with
    result caching on, whose content hash is in the cache runs no trial.  If
    the cached verdict is false it returns false and does nothing.  If it is
    true, let the glob for [<cached>_*] return the entries [<cached>_<suffix>]
    for a list of suffixes, the base name of the cached prefix containing no
    underscore: when every entry is a file or a directory, each is copied,
    in order and according to its kind, to [<new>_<suffix>] and the call
    returns true; when some entry is neither, the entries before it are
    copied and the call raises a RuntimeError. *)
Theorem cache_hit_replays
    (cfg : config) (w : world) (c : call_obs) (p : string) (s : state)
    (entry : cache_entry) :
  not_skipped cfg s ->
  use_result_cache cfg = true ->
  result_cache s !! cache_key c = Some entry ->
  let r := fst (interesting cfg w c p s) in
  let s' := snd (interesting cfg w c p s) in
  let cached := ce_prefix entry in
  (trials s' = trials s /\ verdicts s' = verdicts s) /\
  (ce_result entry = false -> r = Ok false /\ trace s' = trace s) /\
  (ce_result entry = true ->
   forall sfxs,
     glob c (cached +:+ "_*") = map (with_suffix cached) sfxs ->
     has_char "_" (basename cached) = false ->
     Forall (fun sfx => has_char "/" sfx = false) sfxs ->
     (Forall (fun sfx => copyable c (with_suffix cached sfx) = true) sfxs ->
      r = Ok true /\
      trace s' = trace s ++ map (copy_event c cached p) sfxs) /\
     (forall pre bad post,
        sfxs = pre ++ bad :: post ->
        Forall (fun sfx => copyable c (with_suffix cached sfx) = true) pre ->
        copyable c (with_suffix cached bad) = false ->
        r = Raise (RuntimeError ("Cannot copy non-file/non-directory: "
                                 +:+ with_suffix cached bad)) /\
        trace s' = trace s ++ map (copy_event c cached p) pre)).
Proof.
  intros Hgate Hc Hhit. cbv zeta.
  destruct (skip_gate_passed cfg w c p s Hgate) as [v Hint]. rewrite Hint.
  rewrite (evaluate_hit cfg w c p (set_skipped v s) entry Hc Hhit).
  split; [|split].
  - destruct (ce_result entry); [|split; reflexivity].
    pose proof (replay_bookkeeping c p (glob c (ce_prefix entry +:+ "_*"))
                  (set_skipped v s)) as (_ & _ & Ht & Hv).
    destruct (replay c p (glob c (ce_prefix entry +:+ "_*")) (set_skipped v s))
      as [[[]|e] s1]; cbn [fst snd] in *; split; assumption.
  - intros Hres. rewrite Hres. split; reflexivity.
  - intros Hres sfxs Hglob Hu Hs. rewrite Hres, Hglob. split.
    + intros Hcopy.
      destruct (replay_copies c p (ce_prefix entry) Hu sfxs (set_skipped v s) Hs Hcopy)
        as [H1 _].
      rewrite H1. split; reflexivity.
    + intros pre bad post -> Hpre Hbad.
      apply Forall_app in Hs. destruct Hs as [Hs1 Hs2].
      inversion Hs2 as [|? ? Hb _]; subst.
      destruct (replay_copies c p (ce_prefix entry) Hu pre (set_skipped v s) Hs1 Hpre)
        as [_ H2].
      rewrite (H2 bad post Hb Hbad). split; reflexivity.
Qed.

(** A hit on a cached true verdict whose prefix [/tmp/1] has the one entry
    [/tmp/1_logs], a directory: the call returns true. *)
Lemma cache_hit_replays_witness :
  not_skipped (oracle false 0) (with_cached "k" "/tmp/1") /\
  use_result_cache (oracle false 0) = true /\
  result_cache (with_cached "k" "/tmp/1") !! cache_key (logs_dir_fs "k" "/tmp/1")
    = Some (CacheEntry true "/tmp/1") /\
  fst (interesting (oracle false 0) (fun _ => smooth_trial healthy_puppet crash_a)
         (logs_dir_fs "k" "/tmp/1") "/tmp/2" (with_cached "k" "/tmp/1")) = Ok true.
Proof.
  split; [reflexivity|]. split; [reflexivity|].
  assert (Hhit : result_cache (with_cached "k" "/tmp/1")
                   !! cache_key (logs_dir_fs "k" "/tmp/1")
                 = Some (CacheEntry true "/tmp/1")) by (vm_compute; reflexivity).
  split; [exact Hhit|].
  pose proof (cache_hit_replays (oracle false 0)
                (fun _ => smooth_trial healthy_puppet crash_a)
                (logs_dir_fs "k" "/tmp/1") "/tmp/2" (with_cached "k" "/tmp/1")
                (CacheEntry true "/tmp/1") eq_refl eq_refl Hhit) as H.
  destruct H as (_ & _ & H).
  destruct (H eq_refl ["logs"] eq_refl eq_refl) as [H1 _].
  { repeat constructor. }
  destruct H1 as [Hr _]; [repeat constructor | exact Hr].
Defined.

(** C4 as stated fails on two counts.  A call that the skip gate consumes
    returns false although a true verdict is cached for its content; here
    the second call of a session with [skip = 1], the first call having
    cached true.  And when the base name of the cached prefix contains an
    underscore the copy does not keep the suffix: the entry [/tmp/a_b_logs]
    of the cached prefix [/tmp/a_b] goes to [/tmp/new_b_logs]. *)
Lemma cache_hit_not_always_replayed :
  ~ (forall (cfg : config) (w : world) (c : call_obs) (p : string) (s : state)
            (entry : cache_entry),
       use_result_cache cfg = true ->
       result_cache s !! cache_key c = Some entry ->
       glob c (ce_prefix entry +:+ "_*") = [] ->
       fst (interesting cfg w c p s) = Ok (ce_result entry)) /\
  ~ (forall (cfg : config) (w : world) (c : call_obs) (p : string) (s : state)
            (entry : cache_entry) (sfx : string),
       not_skipped cfg s ->
       use_result_cache cfg = true ->
       result_cache s !! cache_key c = Some entry ->
       ce_result entry = true ->
       has_char "/" sfx = false ->
       glob c (ce_prefix entry +:+ "_*") = [with_suffix (ce_prefix entry) sfx] ->
       isfile c (with_suffix (ce_prefix entry) sfx) = false ->
       isdir c (with_suffix (ce_prefix entry) sfx) = true ->
       trace (snd (interesting cfg w c p s)) =
       trace s ++ [EvCopyTree (with_suffix (ce_prefix entry) sfx) (with_suffix p sfx)]).
Proof.
  split.
  - intros H.
    set (w := fun _ : nat => smooth_trial crashed_puppet crash_a).
    set (s1 := snd (interesting (oracle false 1) w (empty_fs "k") "/tmp/1" fresh)).
    assert (Hhit : result_cache s1 !! cache_key (empty_fs "k")
                   = Some (CacheEntry true "/tmp/1")) by (vm_compute; reflexivity).
    pose proof (H (oracle false 1) w (empty_fs "k") "/tmp/2" s1
                  (CacheEntry true "/tmp/1") eq_refl Hhit eq_refl) as Hc.
    vm_compute in Hc. discriminate Hc.
  - intros H.
    assert (Hhit : result_cache (with_cached "k" "/tmp/a_b")
                     !! cache_key (logs_dir_fs "k" "/tmp/a_b")
                   = Some (CacheEntry true "/tmp/a_b")) by (vm_compute; reflexivity).
    pose proof (H (oracle false 0) (fun _ => smooth_trial healthy_puppet crash_a)
                  (logs_dir_fs "k" "/tmp/a_b") "/tmp/new"
                  (with_cached "k" "/tmp/a_b") (CacheEntry true "/tmp/a_b") "logs"
                  eq_refl eq_refl Hhit eq_refl eq_refl eq_refl eq_refl eq_refl) as Hc.
    vm_compute in Hc. discriminate Hc.
Qed.

(** ** [Interesting.interesting]: the trials of a call *)

Lemma run_trial_unfold (cfg : config) (w : world) (p : string) (s : state) :
  run_trial cfg w p s =
  match _run cfg (w (trials s)) p (set_trials (S (trials s)) s) with
  | (Ok b, s1) => (Ok b, set_verdicts (verdicts s1 ++ [b]) s1)
  | (Raise e, s1) => (Raise e, s1)
  end.
Proof. reflexivity. Qed.

(** One call of [_run] from the loop: one more trial, one more verdict if it
    returns, and nothing else of the bookkeeping touched. *)
Lemma run_trial_spec (cfg : config) (w : world) (p : string) (s : state) :
  let r := fst (run_trial cfg w p s) in
  let s' := snd (run_trial cfg w p s) in
  trials s' = S (trials s) /\ skipped s' = skipped s /\
  result_cache s' = result_cache s /\
  verdicts s' = verdicts s ++ match r with Ok b => [b] | Raise _ => [] end.
Proof.
  cbv zeta. rewrite run_trial_unfold.
  pose proof (run_bookkeeping cfg (w (trials s)) p (set_trials (S (trials s)) s))
    as (Hs & Hc & Ht & Hv).
  destruct (_run cfg (w (trials s)) p (set_trials (S (trials s)) s)) as [[b|e] s1];
    cbn [fst snd] in *.
  - cbn. rewrite Hs, Hc, Ht, Hv. repeat split.
  - rewrite Hs, Hc, Ht, Hv, app_nil_r. repeat split.
Qed.

Lemma cache_store_spec (cfg : config) (key : string) (b : bool) (p : string)
    (s : state) :
  cache_store cfg key b p s =
  (Ok tt, set_result_cache
            (if use_result_cache cfg
             then <[key := CacheEntry b p]> (result_cache s)
             else result_cache s) s).
Proof.
  unfold cache_store, when, modify, ret. destruct (use_result_cache cfg).
  - reflexivity.
  - destruct s; reflexivity.
Qed.

(** Declaring the candidate interesting: the callback, the cache entry,
    [True]. *)
Lemma declare_interesting_spec (cfg : config) (key p : string) (s : state) :
  exists s2,
    (when (interesting_cb cfg) (emit [EvInterestingCb p]);;
     cache_store cfg key true p;; ret true) s = (Ok true, s2) /\
    verdicts s2 = verdicts s /\ trials s2 = trials s /\ skipped s2 = skipped s /\
    result_cache s2 =
      (if use_result_cache cfg
       then <[key := CacheEntry true p]> (result_cache s)
       else result_cache s) /\
    (interesting_cb cfg = true -> exists tr, trace s2 = tr ++ [EvInterestingCb p]).
Proof.
  destruct (interesting_cb cfg) eqn:Hcb.
  - eexists. split.
    { eapply run_bind; [apply run_when_true, run_emit|].
      eapply run_bind; [apply cache_store_spec|]. apply run_ret. }
    cbn. repeat split. intros _. eexists. reflexivity.
  - eexists. split.
    { eapply run_bind; [apply run_when_false|].
      eapply run_bind; [apply cache_store_spec|]. apply run_ret. }
    cbn. repeat split. discriminate.
Qed.

(** Giving up on the candidate: the cache entry, [False]. *)
Lemma declare_uninteresting_spec (cfg : config) (key p : string) (s : state) :
  (cache_store cfg key false p;; ret false) s =
  (Ok false, set_result_cache
               (if use_result_cache cfg
                then <[key := CacheEntry false p]> (result_cache s)
                else result_cache s) s).
Proof. eapply run_bind; [apply cache_store_spec|]. apply run_ret. Qed.

Lemma trial_loop_step (cfg : config) (w : world) (key p : string)
    (n_tries : Z) (togo : nat) (i nc : Z) (s : state) :
  trial_loop cfg w key p n_tries (S togo) i nc s =
  if n_tries - i <? min_crashes cfg - nc then
    (cache_store cfg key false p;; ret false) s
  else
    match run_trial cfg w p s with
    | (Ok crashed, s1) =>
        if crashed then
          if min_crashes cfg <=? nc + 1 then
            (when (interesting_cb cfg) (emit [EvInterestingCb p]);;
             cache_store cfg key true p;; ret true) s1
          else trial_loop cfg w key p n_tries togo (i + 1) (nc + 1) s1
        else trial_loop cfg w key p n_tries togo (i + 1) nc s1
    | (Raise e, s1) => (Raise e, s1)
    end.
Proof.
  cbn [trial_loop]. destruct (n_tries - i <? min_crashes cfg - nc); [reflexivity|].
  rewrite bind_unfold. destruct (run_trial cfg w p s) as [[[]|e] s1]; try reflexivity.
  destruct (min_crashes cfg <=? nc + 1); reflexivity.
Qed.

Lemma count_true_firstn_cons (b : bool) (rs : list bool) (k : nat) :
  count_true (firstn (S k) (b :: rs)) = (if b then 1 else 0) + count_true (firstn k rs).
Proof. reflexivity. Qed.

Lemma stays_below_cons_false (m nc : Z) (rs : list bool) :
  stays_below m nc rs -> stays_below m nc (false :: rs).
Proof.
  intros H q rest Heq. destruct q as [|b q]; [discriminate|].
  cbn [app] in Heq. inversion Heq; subst. cbn [count_true].
  rewrite Z.add_0_l. eapply H. reflexivity.
Qed.

Lemma stays_below_cons_true (m nc : Z) (rs : list bool) :
  nc + 1 < m -> stays_below m (nc + 1) rs -> stays_below m nc (true :: rs).
Proof.
  intros Hlt H q rest Heq. destruct q as [|b q].
  - cbn [count_true]. lia.
  - cbn [app] in Heq. inversion Heq; subst. cbn [count_true].
    specialize (H q rest eq_refl). lia.
Qed.

Lemma stays_below_before_last_cons_false (m nc : Z) (rs : list bool) :
  stays_below_before_last m nc rs -> stays_below_before_last m nc (false :: rs).
Proof.
  intros H q rest Heq Hne. destruct q as [|b q]; [discriminate|].
  cbn [app] in Heq. inversion Heq; subst. cbn [count_true].
  rewrite Z.add_0_l. eapply H; [reflexivity | exact Hne].
Qed.

Lemma stays_below_before_last_cons_true (m nc : Z) (rs : list bool) :
  nc + 1 < m -> stays_below_before_last m (nc + 1) rs ->
  stays_below_before_last m nc (true :: rs).
Proof.
  intros Hlt H q rest Heq Hne. destruct q as [|b q].
  - cbn [count_true]. lia.
  - cbn [app] in Heq. inversion Heq; subst. cbn [count_true].
    specialize (H q rest eq_refl Hne). lia.
Qed.

Lemma stays_below_weaken (m nc : Z) (rs : list bool) :
  stays_below m nc rs -> stays_below_before_last m nc rs.
Proof. intros H q rest Heq _. exact (H q rest Heq). Qed.

Lemma stays_below_nil (m nc : Z) : stays_below m nc [].
Proof. intros q rest Heq. destruct q; discriminate. Qed.

(** The loop, whatever the trials do. *)
Lemma trial_loop_spec (cfg : config) (w : world) (key p : string) (n_tries : Z) :
  forall togo i nc s,
  exists rs ran,
    loop_outcome cfg key p n_tries i nc togo s
      (fst (trial_loop cfg w key p n_tries togo i nc s))
      (snd (trial_loop cfg w key p n_tries togo i nc s)) rs ran.
Proof.
  induction togo as [|togo IH]; intros i nc s.
  - cbn [trial_loop]. rewrite declare_uninteresting_spec. cbn [fst snd].
    exists [], O. unfold loop_outcome.
    cbn [verdicts trials skipped result_cache set_result_cache length].
    rewrite app_nil_r, Nat.add_0_r.
    split; [reflexivity|]. split; [reflexivity|]. split; [reflexivity|].
    split; [lia|]. split; [intros k Hk; lia|].
    split; [apply stays_below_weaken, stays_below_nil|].
    split; [reflexivity|]. split; [apply stays_below_nil|].
    split; [left; reflexivity | reflexivity].
  - rewrite trial_loop_step.
    destruct (n_tries - i <? min_crashes cfg - nc) eqn:Hguard.
    + rewrite declare_uninteresting_spec. cbn [fst snd].
      apply Z.ltb_lt in Hguard.
      exists [], O. unfold loop_outcome.
      cbn [verdicts trials skipped result_cache set_result_cache length count_true].
      rewrite app_nil_r, Nat.add_0_r.
      split; [reflexivity|]. split; [reflexivity|]. split; [reflexivity|].
      split; [lia|]. split; [intros k Hk; lia|].
      split; [apply stays_below_weaken, stays_below_nil|].
      split; [reflexivity|]. split; [apply stays_below_nil|].
      split; [right; cbn; lia | reflexivity].
    + apply Z.ltb_ge in Hguard.
      pose proof (run_trial_spec cfg w p s) as Hrt. cbv zeta in Hrt.
      destruct (run_trial cfg w p s) as [[b|e] s1]; cbn [fst snd] in Hrt;
        destruct Hrt as (Ht1 & Hs1 & Hc1 & Hv1).
      * destruct b.
        -- destruct (min_crashes cfg <=? nc + 1) eqn:Hreach.
           ++ apply Z.leb_le in Hreach.
              destruct (declare_interesting_spec cfg key p s1)
                as (s2 & E2 & Hv2 & Ht2 & Hs2 & Hc2 & Hcb).
              rewrite E2. cbn [fst snd].
              exists [true], 1%nat. unfold loop_outcome.
              rewrite Hv2, Hv1, Ht2, Ht1, Hs2, Hs1, Hc2, Hc1.
              split; [reflexivity|]. split; [lia|]. split; [reflexivity|].
              split; [lia|]. split; [|split].
              ** intros k Hk. assert (k = O) by lia. subst k. cbn. lia.
              ** intros q rest Heq Hne. destruct q as [|b q].
                 { inversion Heq. congruence. }
                 { inversion Heq as [[Hb Hq]]. destruct q; discriminate. }
              ** split; [reflexivity|]. split; [exists []; reflexivity|].
                 split; [cbn; lia|]. split; [reflexivity | exact Hcb].
           ++ apply Z.leb_gt in Hreach.
              destruct (IH (i + 1) (nc + 1) s1) as (rs & ran & Hout).
              destruct Hout as (Hv & Ht & Hs & Hran & Hreachable & Hbelow & Hres).
              exists (true :: rs), (S ran). unfold loop_outcome.
              rewrite Hv, Hv1, Ht, Ht1, Hs, Hs1, <- app_assoc.
              split; [reflexivity|]. split; [lia|]. split; [reflexivity|].
              split; [lia|]. split; [|split].
              ** intros k Hk. destruct k as [|k].
                 { cbn. lia. }
                 { rewrite count_true_firstn_cons, Nat2Z.inj_succ.
                   specialize (Hreachable k ltac:(lia)). lia. }
              ** apply stays_below_before_last_cons_true; assumption.
              ** destruct (fst (trial_loop cfg w key p n_tries togo (i + 1) (nc + 1) s1))
                   as [[]|e].
                 { destruct Hres as (H1 & (q & H2) & H3 & H4 & H5).
                   rewrite H4, Hc1. cbn [length count_true].
                   split; [lia|]. split; [exists (true :: q); rewrite H2; reflexivity|].
                   split; [lia|]. split; [reflexivity | exact H5]. }
                 { destruct Hres as (H1 & H2 & H3 & H4).
                   rewrite H4, Hc1. cbn [length count_true].
                   split; [lia|].
                   split; [apply stays_below_cons_true; assumption|].
                   split; [|reflexivity].
                   destruct H3 as [H3|H3]; [left; lia|right].
                   rewrite Nat2Z.inj_succ. lia. }
                 { destruct Hres as (H1 & H2 & H3).
                   rewrite H3, Hc1. cbn [length].
                   split; [lia|].
                   split; [apply stays_below_cons_true; assumption | reflexivity]. }
        -- destruct (IH (i + 1) nc s1) as (rs & ran & Hout).
           destruct Hout as (Hv & Ht & Hs & Hran & Hreachable & Hbelow & Hres).
           exists (false :: rs), (S ran). unfold loop_outcome.
           rewrite Hv, Hv1, Ht, Ht1, Hs, Hs1, <- app_assoc.
           split; [reflexivity|]. split; [lia|]. split; [reflexivity|].
           split; [lia|]. split; [|split].
           ** intros k Hk. destruct k as [|k].
              { cbn. lia. }
              { rewrite count_true_firstn_cons, Nat2Z.inj_succ.
                specialize (Hreachable k ltac:(lia)). lia. }
           ** apply stays_below_before_last_cons_false; assumption.
           ** destruct (fst (trial_loop cfg w key p n_tries togo (i + 1) nc s1))
                as [[]|e].
              { destruct Hres as (H1 & (q & H2) & H3 & H4 & H5).
                rewrite H4, Hc1. cbn [length count_true].
                split; [lia|]. split; [exists (false :: q); rewrite H2; reflexivity|].
                split; [lia|]. split; [reflexivity | exact H5]. }
              { destruct Hres as (H1 & H2 & H3 & H4).
                rewrite H4, Hc1. cbn [length count_true].
                split; [lia|].
                split; [apply stays_below_cons_false; assumption|].
                split; [|reflexivity].
                destruct H3 as [H3|H3]; [left; lia|right].
                rewrite Nat2Z.inj_succ. lia. }
              { destruct Hres as (H1 & H2 & H3).
                rewrite H3, Hc1. cbn [length].
                split; [lia|].
                split; [apply stays_below_cons_false; assumption | reflexivity]. }
      * cbn [fst snd].
        exists [], 1%nat. unfold loop_outcome.
        rewrite Hv1, Ht1, Hs1, Hc1.
        split; [reflexivity|]. split; [lia|]. split; [reflexivity|].
        split; [lia|]. split; [|split].
        -- intros k Hk. assert (k = O) by lia. subst k. cbn. lia.
        -- apply stays_below_weaken, stays_below_nil.
        -- split; [reflexivity|]. split; [apply stays_below_nil | reflexivity].
Qed.

(** What [evaluate] does on a cache miss. *)
Lemma evaluate_miss (cfg : config) (w : world) (c : call_obs) (p : string)
    (s : state) :
  use_result_cache cfg = true ->
  result_cache s !! cache_key c = None ->
  evaluate cfg w c p s =
  trial_loop cfg w (cache_key c) p (Z.max (repeat cfg) (min_crashes cfg))
    (Z.to_nat (Z.max (repeat cfg) (min_crashes cfg))) 0 0 s.
Proof.
  intros Hc Hmiss. unfold evaluate. rewrite Hc.
  unfold mbind, M_bind, bind, get. rewrite Hmiss. reflexivity.
Qed.

(** C1.  A call that misses the cache (it got past the skip gate, result
    caching is on, the content hash is not in the cache), with
    [min_crashes = M] and [repeat = R], runs at most [max(R, M)] trials.
    Each trial it runs was started with at least as many trials remaining,
    that one included, as crashes still needed, so the loop stops once [M]
    is out of reach; and no crash but possibly the last verdict had brought
    the count to [M].  If the call returns true, the last verdict was a
    crash that brought the count to [M], the callback, when set, was the
    last effect, and the cache maps the content hash to true.  If it returns
    false, no crash had brought the count to [M], the loop had used up its
    trials or had stopped because [M] was out of reach, and the cache maps
    the content hash to false.  If a trial raises, the call raises and the
    cache is left as it was. *)
Theorem trials_of_a_call
    (cfg : config) (w : world) (c : call_obs) (p : string) (s : state) :
  not_skipped cfg s ->
  use_result_cache cfg = true ->
  result_cache s !! cache_key c = None ->
  let M := min_crashes cfg in
  let n_tries := Z.max (repeat cfg) M in
  let r := fst (interesting cfg w c p s) in
  let s' := snd (interesting cfg w c p s) in
  exists (rs : list bool) (ran : nat),
    verdicts s' = verdicts s ++ rs /\
    trials s' = (trials s + ran)%nat /\
    (ran <= Z.to_nat n_tries)%nat /\
    (forall k, (k < ran)%nat ->
       M - count_true (firstn k rs) <= n_tries - Z.of_nat k) /\
    stays_below_before_last M 0 rs /\
    match r with
    | Ok true =>
        ran = length rs /\ (exists q, rs = q ++ [true]) /\
        M <= count_true rs /\
        result_cache s' = <[cache_key c := CacheEntry true p]> (result_cache s) /\
        (interesting_cb cfg = true ->
         exists tr, trace s' = tr ++ [EvInterestingCb p])
    | Ok false =>
        ran = length rs /\ stays_below M 0 rs /\
        (ran = Z.to_nat n_tries \/
         n_tries - Z.of_nat ran < M - count_true rs) /\
        result_cache s' = <[cache_key c := CacheEntry false p]> (result_cache s)
    | Raise _ =>
        ran = S (length rs) /\ stays_below M 0 rs /\
        result_cache s' = result_cache s
    end.
Proof.
  intros Hgate Hc Hmiss. cbv zeta.
  destruct (skip_gate_passed cfg w c p s Hgate) as [v Hint]. rewrite Hint.
  rewrite (evaluate_miss cfg w c p (set_skipped v s) Hc Hmiss).
  destruct (trial_loop_spec cfg w (cache_key c) p
              (Z.max (repeat cfg) (min_crashes cfg))
              (Z.to_nat (Z.max (repeat cfg) (min_crashes cfg))) 0 0
              (set_skipped v s)) as (rs & ran & Hout).
  exists rs, ran.
  destruct Hout as (Hv & Ht & _ & Hran & Hreach & Hbelow & Hres).
  cbn [verdicts trials result_cache set_skipped] in *. rewrite Hc in Hres.
  split; [exact Hv|]. split; [exact Ht|]. split; [exact Hran|].
  split; [|split; [exact Hbelow|]].
  - intros k Hk. specialize (Hreach k Hk). lia.
  - destruct (fst (trial_loop cfg w (cache_key c) p _ _ 0 0 (set_skipped v s)))
      as [[]|e].
    + destruct Hres as (H1 & H2 & H3 & H4 & H5).
      split; [exact H1|]. split; [exact H2|]. split; [lia|].
      split; [exact H4 | exact H5].
    + destruct Hres as (H1 & H2 & H3 & H4).
      split; [exact H1|]. split; [exact H2|]. split; [|exact H4].
      destruct H3 as [H3|H3]; [left; exact H3 | right; lia].
    + exact Hres.
Qed.

(** One trial allowed, one crash needed, a target that crashes: the call runs
    at most one trial. *)
Lemma trials_of_a_call_witness :
  let s' := snd (interesting (oracle false 0)
                   (fun _ => smooth_trial crashed_puppet crash_a)
                   (empty_fs "k") "/tmp/1" fresh) in
  not_skipped (oracle false 0) fresh /\
  use_result_cache (oracle false 0) = true /\
  result_cache fresh !! cache_key (empty_fs "k") = None /\
  exists rs ran,
    verdicts s' = verdicts fresh ++ rs /\
    trials s' = (trials fresh + ran)%nat /\ (ran <= 1)%nat.
Proof.
  cbv zeta. split; [reflexivity|]. split; [reflexivity|].
  split; [reflexivity|].
  destruct (trials_of_a_call (oracle false 0)
              (fun _ => smooth_trial crashed_puppet crash_a)
              (empty_fs "k") "/tmp/1" fresh eq_refl eq_refl eq_refl)
    as (rs & ran & Hv & Ht & Hran & _).
  exists rs, ran. split; [exact Hv|]. split; [exact Ht | exact Hran].
Defined.

(** ** Runs on concrete inputs *)

(** A first trial on a crashing target, with the harness and no reference
    signature: server and target are brought up, the monitor runs for the
    time of the serving, the crash is saved and counted, its signature is
    adopted, both timeouts drop to the floor and the server is discarded. *)
Example first_trial_on_a_crash :
  let '(r, s) := _run (oracle false 0) (smooth_trial crashed_puppet crash_a)
                   "/tmp/1" fresh in
  r = Ok true /\
  trace s = [EvServerNew 70; EvSetRedirect "/first_test";
             EvTargetLaunch (LocHarness 60000) None; EvMonitorStart;
             EvSetRedirect "/next_test"; EvServe; EvDetectFailure;
             EvPuppetClose; EvTargetClose; EvMkdir "/tmp/1_logs";
             EvSaveLogs "/tmp/1_logs"; EvServerClose; EvCheckRelaunch;
             EvIterationDoneSet; EvMonitorJoin] /\
  orig_sig s = Some "sigA" /\
  idle_timeout s = 10%Q /\ iter_timeout s = 10%Q /\ server s = None.
Proof. vm_compute. repeat split. Qed.

(** A session of three calls on the same content with [skip = 1]: the first
    call runs a trial and caches true, the second is skipped, the third is
    answered from the cache.  One trial in all. *)
Example session_with_skip :
  let '(rs, s) := session (oracle false 1)
                    (fun _ => smooth_trial crashed_puppet crash_a)
                    [(empty_fs "k", "/tmp/1"); (empty_fs "k", "/tmp/2");
                     (empty_fs "k", "/tmp/3")] fresh in
  rs = [Ok true; Ok false; Ok true] /\ trials s = 1%nat /\ skipped s = Some 1.
Proof. vm_compute. repeat split. Qed.

(** A healthy target that times out, with timeouts not ignored, on Linux:
    the busiest process is aborted before the close, and the status is
    Failure. *)
Example timeout_on_a_healthy_target :
  detect_failure healthy_puppet [] true =
  (RESULT_FAILURE, [EvAbortHungProc; EvPuppetWait 1; EvPuppetClose]).
Proof. reflexivity. Qed.

(** * Further properties of the code *)

(** ** [PuppetTarget._abort_hung_proc] *)

Lemma sorted_by_cpu_head (usage : list (Z * Q)) :
  match sorted_by_cpu usage with
  | [] => usage = []
  | (pid, cpu) :: _ =>
      exists pre post, usage = pre ++ (pid, cpu) :: post /\
        Forall (fun x => (snd x < cpu)%Q) pre /\
        Forall (fun x => (snd x <= cpu)%Q) post
  end.
Proof.
  induction usage as [|[pid0 cpu0] rest IH].
  - reflexivity.
  - unfold sorted_by_cpu in *. cbn [foldr].
    destruct (foldr insert_by_cpu [] rest) as [|[pid cpu] sorted].
    + subst rest. cbn. exists [], []. repeat split; constructor.
    + destruct IH as (pre & post & -> & Hpre & Hpost).
      cbn [insert_by_cpu snd]. destruct (Qlt_bool cpu0 cpu) eqn:E.
      * apply Qlt_bool_iff in E.
        exists ((pid0, cpu0) :: pre), post. repeat split; try assumption.
        constructor; assumption.
      * apply Qlt_bool_false_iff in E.
        exists [], (pre ++ (pid, cpu) :: post). repeat split; [constructor|].
        apply Forall_app. split.
        { eapply Forall_impl; [exact Hpre|]. intros x Hx. cbn beta in *.
          apply Qlt_le_weak. eapply Qlt_le_trans; eassumption. }
        constructor; [exact E|].
        eapply Forall_impl; [exact Hpost|]. intros x Hx. cbn beta in *.
        eapply Qle_trans; eassumption.
Qed.

(** X1.  [_abort_hung_proc] signals nobody when [cpu_usage()] is empty.
    Otherwise it sends SIGABRT to exactly one process: one whose CPU share
    no other sample exceeds, and among several such the one that comes first
    in [cpu_usage()]. *)
Theorem abort_hung_proc_signals_busiest (usage : list (Z * Q)) :
  match _abort_hung_proc usage with
  | [] => usage = []
  | pid :: more =>
      more = [] /\
      exists cpu pre post, usage = pre ++ (pid, cpu) :: post /\
        Forall (fun x => (snd x < cpu)%Q) pre /\
        Forall (fun x => (snd x <= cpu)%Q) post
  end.
Proof.
  unfold _abort_hung_proc. pose proof (sorted_by_cpu_head usage) as H.
  destruct (sorted_by_cpu usage) as [|[pid cpu] sorted]; [exact H|].
  split; [reflexivity|]. destruct H as (pre & post & H). exists cpu, pre, post. exact H.
Qed.

(** ** [PuppetTarget.detect_failure]: what is done to the browser *)

(** X2.  [detect_failure] closes the puppet, as its last action, whenever it
    reports Failure or Ignored.  A healthy target that did not time out is
    left running: at most the thirty-second wait of [expect_close] happens.
    The busiest process is sent SIGABRT only for a timeout that is not
    ignored, on Linux, while the browser still runs, and the abort is
    followed by a one-second wait and the close; the puppet is closed at
    most once. *)
Theorem detect_failure_effects
    (o : puppet_obs) (ignored : list string) (was_timeout : bool) :
  let status := fst (detect_failure o ignored was_timeout) in
  let evs := snd (detect_failure o ignored was_timeout) in
  (status <> RESULT_NONE -> exists pre, evs = pre ++ [EvPuppetClose]) /\
  (is_healthy o = true -> was_timeout = false ->
   evs = if expect_close o then [EvPuppetWait 30] else []) /\
  (forall pre post, evs = pre ++ EvAbortHungProc :: post ->
     was_timeout = true /\ contains "timeout" ignored = false /\
     on_linux o = true /\ is_running o = true /\
     pre = [] /\ post = [EvPuppetWait 1; EvPuppetClose]) /\
  (forall a b c, evs <> a ++ EvPuppetClose :: b ++ EvPuppetClose :: c).
Proof.
  cbv zeta. unfold detect_failure, detect_closes. cbn [fst snd].
  split; [|split; [|split]].
  - destruct (is_healthy o); cbn [negb orb].
    + destruct was_timeout; [|intros H; exfalso; apply H; reflexivity].
      intros _. rewrite andb_false_r. cbn [app].
      eexists. reflexivity.
    + intros _. eexists. rewrite app_assoc. reflexivity.
  - intros -> ->. cbn. rewrite andb_true_r, app_nil_r. reflexivity.
  - intros pre post.
    destruct (expect_close o), was_timeout, (is_healthy o), (is_running o),
      (contains "timeout" ignored), (on_linux o); cbn;
      intros H;
      repeat (destruct pre as [|? pre]; cbn in H; try discriminate H);
      inversion H; repeat split.
  - intros a b c.
    destruct (expect_close o), was_timeout, (is_healthy o), (is_running o),
      (contains "timeout" ignored), (on_linux o); cbn;
      intros H;
      repeat (destruct a as [|? a]; cbn in H; try discriminate H);
      inversion H;
      repeat (destruct b as [|? b]; cbn in *; try discriminate).
Qed.

(** ** [PuppetTarget.detect_failure]: the ignore list *)

(** X3.  Ignoring more never reveals a failure.  If every category in
    [ignored] is also in [ignored'], then a status of None stays None, a
    status of Ignored stays Ignored, and the only change there can be is
    from Failure to Ignored.  With nothing ignored no result is Ignored. *)
Theorem ignoring_more_hides_only_failures
    (o : puppet_obs) (ignored ignored' : list string) (was_timeout : bool) :
  (forall x, contains x ignored = true -> contains x ignored' = true) ->
  let status := fst (detect_failure o ignored was_timeout) in
  let status' := fst (detect_failure o ignored' was_timeout) in
  (status = RESULT_NONE <-> status' = RESULT_NONE) /\
  (status = RESULT_IGNORED -> status' = RESULT_IGNORED) /\
  (status' = RESULT_FAILURE -> status = RESULT_FAILURE) /\
  fst (detect_failure o [] was_timeout) <> RESULT_IGNORED.
Proof.
  intros Hsub. cbv zeta. unfold detect_failure. cbn [fst].
  pose proof (Hsub "memory") as Hm.
  pose proof (Hsub "log-limit") as Hl.
  pose proof (Hsub "timeout") as Ht.
  assert (Hnil : forall x, contains x [] = false).
  { intros x. unfold contains. apply bool_decide_eq_false. apply not_elem_of_nil. }
  rewrite !Hnil.
  destruct (is_healthy o), was_timeout; cbn [negb andb];
    destruct (bool_decide (reason_after_close o = Some RC_CLOSED));
    destruct (bool_decide (reason_after_close o = Some RC_EXITED));
    destruct (bool_decide (reason_after_close o = Some RC_WORKER));
    destruct (contains "ffp_worker_memory_usage" (available_logs o));
    destruct (contains "ffp_worker_log_size" (available_logs o));
    destruct (contains "memory" ignored); try rewrite (Hm eq_refl);
    destruct (contains "log-limit" ignored); try rewrite (Hl eq_refl);
    destruct (contains "timeout" ignored); try rewrite (Ht eq_refl);
    cbn [andb];
    try destruct (contains "memory" ignored');
    try destruct (contains "log-limit" ignored');
    try destruct (contains "timeout" ignored');
    cbn [andb]; repeat split; congruence.
Qed.

(** The ignore list [["timeout"]] contains every category of the list
    [[]]; a timeout on a healthy target, a Failure with nothing ignored, is
    then Ignored. *)
Lemma ignoring_more_hides_only_failures_witness :
  fst (detect_failure healthy_puppet [] true) = RESULT_FAILURE /\
  fst (detect_failure healthy_puppet ["timeout"] true) = RESULT_IGNORED /\
  (fst (detect_failure healthy_puppet [] true) = RESULT_NONE <->
   fst (detect_failure healthy_puppet ["timeout"] true) = RESULT_NONE).
Proof.
  split; [reflexivity|]. split; [reflexivity|].
  apply (ignoring_more_hides_only_failures healthy_puppet [] ["timeout"] true).
  intros x H. vm_compute in H. discriminate H.
Defined.

(** ** [PuppetTarget.launch]: how a launch ends *)

(** X4.  Without prefs, [launch] raises [TargetError] and touches neither
    the target nor the puppet.  With prefs, the relaunch countdown is reset
    to [rl_reset] before the puppet is launched, so also when the launch
    fails.  A [LaunchError] of the puppet makes [launch] close the puppet and
    raise [TargetLaunchTimeout] (for a [BrowserTimeoutError]) or
    [TargetLaunchError], carrying the message of the original; any other
    exception passes through and the puppet is not closed. *)
Theorem launch_outcomes
    (mro : string -> list string) (puppet_launch : result unit)
    (t : target) (loc : location) (env_mod : option environ) :
  let r := fst (fst (launch mro puppet_launch t loc env_mod)) in
  let t' := snd (fst (launch mro puppet_launch t loc env_mod)) in
  let tr := snd (launch mro puppet_launch t loc env_mod) in
  let launched := EvPuppetLaunch loc (launch_env env_mod) in
  (prefs_missing t = true ->
   r = Raise (TargetError mro "A prefs.js file is required") /\ t' = t /\ tr = []) /\
  (prefs_missing t = false ->
   (rl_countdown t' = rl_reset t /\ rl_reset t' = rl_reset t /\ prefs t' = prefs t) /\
   (puppet_launch = Ok tt -> r = Ok tt /\ tr = [launched]) /\
   (forall e, puppet_launch = Raise e -> isinstance e "LaunchError" = true ->
      tr = [launched; EvPuppetClose] /\
      r = Raise (if isinstance e "BrowserTimeoutError"
                 then TargetLaunchTimeout mro (exn_msg e)
                 else TargetLaunchError mro (exn_msg e))) /\
   (forall e, puppet_launch = Raise e -> isinstance e "LaunchError" = false ->
      r = Raise e /\ tr = [launched])).
Proof.
  cbv zeta. unfold launch. split; intros Hp; rewrite Hp; cbn [fst snd].
  - repeat split.
  - split; [|split; [|split]].
    + destruct puppet_launch as [[]|e]; cbn [fst snd]; [repeat split|].
      destruct (isinstance e "LaunchError"); [|repeat split].
      destruct (isinstance e "BrowserTimeoutError"); repeat split.
    + intros ->. split; reflexivity.
    + intros e -> He. rewrite He.
      destruct (isinstance e "BrowserTimeoutError"); split; reflexivity.
    + intros e -> He. rewrite He. split; reflexivity.
Qed.

(** ** [PuppetTarget.poll_for_idle]: Busy, and termination *)

Lemma any_busy_true (threshold : Q) (usage : list (Z * Q)) :
  any_busy threshold usage = true <->
  exists pid cpu, In (pid, cpu) usage /\ (threshold <= cpu)%Q.
Proof.
  induction usage as [|[pid cpu] rest IH]; cbn [any_busy In].
  - split; [discriminate | intros (? & ? & [] & _)].
  - destruct (Qle_bool threshold cpu) eqn:E.
    + split; [|reflexivity]. intros _. exists pid, cpu.
      split; [left; reflexivity | apply Qle_bool_iff, E].
    + rewrite IH. split.
      * intros (p & c & Hin & Hle). exists p, c. split; [right|]; assumption.
      * intros (p & c & [Heq|Hin] & Hle); [|exists p, c; split; assumption].
        inversion Heq; subst. apply Qle_bool_iff in Hle. congruence.
Qed.

Lemma poll_loop_busy (fuel : nat) (w : timeline) (threshold interval start : Q) :
  forall c c',
  poll_loop fuel w threshold interval start c = Some (POLL_BUSY, c') ->
  (c <= c')%nat /\
  (forall k, (c <= k < c')%nat ->
     (now (w k) - start < interval)%Q /\
     all_below threshold (cpu_usage (w k)) /\ running (w k) = true) /\
  (now (w c') - start < interval)%Q /\
  exists pid cpu, In (pid, cpu) (cpu_usage (w c')) /\ (threshold <= cpu)%Q.
Proof.
  induction fuel as [|fuel IH]; intros c c' H; cbn [poll_loop] in H; [discriminate|].
  destruct (Qlt_bool (now (w c) - start) interval) eqn:Hwin; [|discriminate].
  destruct (any_busy threshold (cpu_usage (w c))) eqn:Hbusy.
  - inversion H; subst c'. split; [lia|]. split; [intros k Hk; lia|].
    split; [apply Qlt_bool_iff, Hwin | apply any_busy_true, Hbusy].
  - destruct (running (w c)) eqn:Hrun; cbn [negb] in H; [|discriminate].
    apply IH in H. destruct H as (Hle & Hall & Hend).
    split; [lia|]. split; [|exact Hend].
    intros k Hk. destruct (decide (k = c)) as [->|Hne].
    + split; [apply Qlt_bool_iff, Hwin|].
      split; [apply any_busy_false, Hbusy | exact Hrun].
    + apply Hall. lia.
Qed.

(** X5.  [poll_for_idle] answers Busy only from inside its window, at the
    first reading that has a CPU sample at or above the threshold: at every
    reading before it the window was open, all samples were below the
    threshold and the target was running.  Busy is therefore never the
    answer when the interval is zero or negative. *)
Theorem poll_for_idle_busy
    (fuel : nat) (w : timeline) (threshold interval : Q) (c c' : nat) :
  poll_for_idle fuel w threshold interval c = Some (POLL_BUSY, c') ->
  (c <= c')%nat /\
  (forall k, (c <= k < c')%nat ->
     (now (w k) - now (w c) < interval)%Q /\
     all_below threshold (cpu_usage (w k)) /\ running (w k) = true) /\
  (now (w c') - now (w c) < interval)%Q /\
  (exists pid cpu, In (pid, cpu) (cpu_usage (w c')) /\ (threshold <= cpu)%Q) /\
  (0 < interval)%Q.
Proof.
  intros H. unfold poll_for_idle in H.
  pose proof H as H0. apply poll_loop_busy in H.
  destruct H as (Hle & Hall & Hwin & Hbusy).
  repeat split; try assumption; try (apply Hall; assumption).
  destruct fuel as [|fuel]; [discriminate|]. cbn [poll_loop] in H0.
  destruct (Qlt_bool (now (w c) - now (w c)) interval) eqn:E; [|discriminate].
  apply Qlt_bool_iff in E. unfold Qminus in E. rewrite Qplus_opp_r in E. exact E.
Qed.

(** A process at 50% CPU against a threshold of 10%: Busy at once. *)
Lemma poll_for_idle_busy_witness :
  poll_for_idle 5 busy_target_timeline 10 5 0 = Some (POLL_BUSY, 0%nat) /\
  (0 < 5)%Q.
Proof.
  split; [vm_compute; reflexivity|].
  apply (poll_for_idle_busy 5 busy_target_timeline 10 5 0 0).
  vm_compute. reflexivity.
Defined.

Lemma poll_loop_returns (w : timeline) (threshold interval start : Q) :
  forall n c fuel,
  (interval <= now (w (c + n)%nat) - start)%Q -> (n < fuel)%nat ->
  exists r c', poll_loop fuel w threshold interval start c = Some (r, c') /\
    (c <= c' <= c + n)%nat.
Proof.
  induction n as [|n IH]; intros c fuel Hwin Hfuel;
    (destruct fuel as [|fuel]; [lia|]); cbn [poll_loop].
  - rewrite Nat.add_0_r in Hwin. apply Qlt_bool_false_iff in Hwin. rewrite Hwin.
    exists POLL_IDLE, c. split; [reflexivity | lia].
  - destruct (Qlt_bool (now (w c) - start) interval);
      [|exists POLL_IDLE, c; split; [reflexivity | lia]].
    destruct (any_busy threshold (cpu_usage (w c)));
      [exists POLL_BUSY, c; split; [reflexivity | lia]|].
    destruct (negb (running (w c)));
      [exists POLL_IDLE, c; split; [reflexivity | lia]|].
    destruct (IH (S c) fuel) as (r & c' & Hr & Hc); [|lia|].
    + replace (S c + n)%nat with (c + S n)%nat by lia. exact Hwin.
    + exists r, c'. split; [exact Hr | lia].
Qed.

(** X6.  [poll_for_idle] returns: if the clock reading [n] readings after
    the start is at least [interval] later than the start, the poll ends
    within these readings, whatever the CPU samples are.  With an interval of
    zero or less it answers Idle without taking a sample. *)
Theorem poll_for_idle_returns
    (fuel : nat) (w : timeline) (threshold interval : Q) (c n : nat) :
  (interval <= now (w (c + n)%nat) - now (w c))%Q -> (n < fuel)%nat ->
  (exists r c', poll_for_idle fuel w threshold interval c = Some (r, c') /\
     (c <= c' <= c + n)%nat) /\
  ((interval <= 0)%Q ->
   poll_for_idle fuel w threshold interval c = Some (POLL_IDLE, c)).
Proof.
  intros Hwin Hfuel. split.
  - unfold poll_for_idle. apply poll_loop_returns; assumption.
  - intros Hneg. unfold poll_for_idle.
    destruct fuel as [|fuel]; [lia|]. cbn [poll_loop].
    assert (E : Qlt_bool (now (w c) - now (w c)) interval = false).
    { apply Qlt_bool_false_iff. unfold Qminus. rewrite Qplus_opp_r. exact Hneg. }
    rewrite E. reflexivity.
Qed.

(** With one second per reading, a five-second poll started at reading 0 is
    over by reading 5. *)
Lemma poll_for_idle_returns_witness :
  exists r c', poll_for_idle 6 stopped_target_timeline 10 5 0 = Some (r, c') /\
    (0 <= c' <= 0 + 5)%nat.
Proof.
  apply (poll_for_idle_returns 6 stopped_target_timeline 10 5 0 5).
  - vm_compute. discriminate.
  - lia.
Defined.

(** ** [Interesting.monitor_process]: the thread ends *)

Lemma wait_loop_returns (w : timeline) (exp_time : Q) (k0 : nat) :
  (forall k, (k0 <= k)%nat -> done_set (w k) = true) ->
  forall d c fuel, (k0 < c + d)%nat -> (d < fuel)%nat ->
  exists c', wait_loop fuel w exp_time c = Some c' /\ (c <= c' <= Nat.max c k0)%nat.
Proof.
  intros Hdone. induction d as [|d IH]; intros c fuel Hd Hfuel;
    (destruct fuel as [|fuel]; [lia|]); cbn [wait_loop].
  - rewrite (Hdone c) by lia. rewrite andb_false_r.
    exists c. split; [reflexivity | lia].
  - destruct (done_set (w c)) eqn:E; cbn [negb];
      [rewrite andb_false_r; exists c; split; [reflexivity | lia]|].
    assert (c < k0)%nat.
    { destruct (Nat.lt_ge_cases c k0) as [Hlt|Hge]; [exact Hlt|].
      rewrite (Hdone c Hge) in E. discriminate E. }
    destruct (Qle_bool (now (w c)) exp_time); cbn [andb];
      [|exists c; split; [reflexivity | lia]].
    destruct (IH (S c) fuel) as (c' & Hc' & Hle); [lia | lia |].
    exists c'. split; [exact Hc' | lia].
Qed.

Lemma idle_loop_returns (w : timeline) (threshold interval : Q) (k0 n : nat) :
  (forall k, (k0 <= k)%nat -> done_set (w k) = true) ->
  (forall c, (c < k0)%nat -> (interval <= now (w (c + n)%nat) - now (w c))%Q) ->
  forall d c fuel, (k0 < c + d)%nat -> (d + n < fuel)%nat ->
  exists raised c_end,
    idle_loop fuel w threshold interval c = Some (raised, c_end) /\
    (c <= c_end <= Nat.max c (k0 + n + 1))%nat.
Proof.
  intros Hdone Hclock. induction d as [|d IH]; intros c fuel Hd Hfuel;
    (destruct fuel as [|fuel]; [lia|]); cbn [idle_loop].
  - rewrite (Hdone c) by lia. exists false, c. split; [reflexivity | lia].
  - destruct (done_set (w c)) eqn:E;
      [exists false, c; split; [reflexivity | lia]|].
    assert (Hc : (c < k0)%nat).
    { destruct (Nat.lt_ge_cases c k0) as [Hlt|Hge]; [exact Hlt|].
      rewrite (Hdone c Hge) in E. discriminate E. }
    destruct (poll_loop_returns w threshold interval (now (w c)) n c fuel)
      as (r & c' & Hp & Hle); [apply Hclock, Hc | lia |].
    unfold poll_for_idle. rewrite Hp.
    destruct r; cbn [truthy]; [|exists true, c'; split; [reflexivity | lia]].
    destruct (IH (S c') fuel) as (raised & c_end & Hr & Hend); [lia | lia |].
    exists raised, c_end. split; [exact Hr | lia].
Qed.

(** X7.  The monitor thread ends once the iteration is done.  If the
    iteration-done event is set from reading [k0] on, and a poll started
    before then gets past its window within [n] readings, then
    [monitor_process] returns, at the latest [n + 1] readings after [k0]; so
    the [poll.join()] of [_run] does not block for ever. *)
Theorem monitor_process_returns
    (fuel : nat) (w : timeline) (idle_timeout_ threshold interval : Q)
    (k0 n : nat) :
  (forall k, (k0 <= k)%nat -> done_set (w k) = true) ->
  (forall c, (c < k0)%nat -> (interval <= now (w (c + n)%nat) - now (w c))%Q) ->
  (k0 + n + 2 <= fuel)%nat ->
  exists raised c_end,
    monitor_process fuel w idle_timeout_ threshold interval = Some (raised, c_end) /\
    (c_end <= k0 + n + 1)%nat.
Proof.
  intros Hdone Hclock Hfuel. unfold monitor_process.
  destruct (wait_loop_returns w (now (w O) + idle_timeout_) k0 Hdone (S k0) O fuel)
    as (cw & Hw & Hcw); [lia | lia |].
  rewrite Hw.
  destruct (idle_loop_returns w threshold interval k0 n Hdone Hclock (S k0) cw fuel)
    as (raised & c_end & Hr & Hend); [lia | lia |].
  exists raised, c_end. split; [exact Hr | lia].
Qed.

(** A busy target whose iteration is done at reading 3: the monitor waits
    out its one-second timeout, polls once, and leaves at reading 3. *)
Lemma monitor_process_returns_witness :
  exists raised c_end,
    monitor_process 10 busy_target_timeline 1 10 5 = Some (raised, c_end) /\
    (c_end <= 3 + 5 + 1)%nat.
Proof.
  apply (monitor_process_returns 10 busy_target_timeline 1 10 5 3 5).
  - intros k Hk. unfold busy_target_timeline. cbn [done_set].
    apply Nat.leb_le. exact Hk.
  - intros c Hc.
    assert (Hcases : (c = 0 \/ c = 1 \/ c = 2)%nat) by lia.
    destruct Hcases as [->|[->| ->]]; vm_compute; discriminate.
  - lia.
Defined.

(** ** [PuppetTarget.dump_coverage] *)

Lemma signal_children_sent (kill : Z -> option exn) (children : list Z) :
  exists rest, children = snd (signal_children kill children) ++ rest /\
    match fst (signal_children kill children) with
    | Ok _ => rest = []
    | Raise e => exists bad rest', rest = bad :: rest' /\ kill bad = Some e
    end.
Proof.
  induction children as [|child rest IH]; cbn [signal_children].
  - exists []. split; reflexivity.
  - destruct (kill child) as [e|] eqn:E; cbn [fst snd].
    + exists (child :: rest). split; [reflexivity|]. exists child, rest.
      split; [reflexivity | exact E].
    + destruct (signal_children kill rest) as [r sent]. cbn [fst snd] in *.
      destruct IH as (rest' & Heq & Hr). exists rest'.
      split; [cbn; rewrite <- Heq; reflexivity | exact Hr].
Qed.

Lemma gcda_loop_message (o : coverage_obs) (pid : Z) (timeout : Q) :
  forall fuel found open sl c msg sl' c',
  gcda_loop fuel o pid timeout found open sl c = Some (msg, sl', c') ->
  msg <> LogSkipping.
Proof.
  induction fuel as [|fuel IH]; intros found open sl c msg sl' c' H;
    cbn [gcda_loop] in H; [discriminate|].
  destruct (negb found || open); [|inversion H; discriminate].
  cbv zeta in H.
  destruct (Qle_bool timeout _);
    [inversion H; subst;
     match goal with |- (if ?b then _ else _) <> _ => destruct b end;
     discriminate|].
  destruct (negb (cov_healthy _)); [inversion H; discriminate|].
  eapply IH, H.
Qed.

(** X8.  Who is sent SIGUSR1.  [dump_coverage] signals nobody when there is
    no browser pid or the browser is not healthy.  Otherwise, when it
    returns, the browser itself has been signalled exactly once and last,
    after those of its children that could be signalled: all of them if no
    [os.kill] raised, none if listing the children raised a psutil error.
    When it raises, the browser's signal was not delivered. *)
Theorem dump_coverage_signals
    (fuel : nat) (o : coverage_obs) (timeout : Q) :
  let children := match cov_children o with Ok l => l | Raise _ => [] end in
  (cov_pid o = None \/ cov_is_healthy o = false ->
   dump_coverage fuel o timeout = Some (Ok LogSkipping, [], O)) /\
  (forall pid r sent sleeps,
     cov_pid o = Some pid -> cov_is_healthy o = true ->
     dump_coverage fuel o timeout = Some (r, sent, sleeps) ->
     match r with
     | Ok msg =>
         msg <> LogSkipping /\
         exists sent_children rest,
           sent = sent_children ++ [pid] /\ children = sent_children ++ rest /\
           ((forall child, cov_kill o child = None) -> rest = [])
     | Raise e => exists rest, children = sent ++ rest
     end).
Proof.
  cbv zeta. split.
  - unfold dump_coverage. intros [H|H]; [rewrite H; reflexivity|].
    rewrite H. destruct (cov_pid o); reflexivity.
  - intros pid r sent sleeps Hpid Hh H. unfold dump_coverage in H.
    rewrite Hpid, Hh in H. cbn [negb] in H.
    destruct (cov_children o) as [children|e0].
    + pose proof (signal_children_sent (cov_kill o) children) as (rest & Heq & Hr).
      destruct (signal_children (cov_kill o) children) as [[[]|e] sent0];
        cbn [fst snd] in *.
      * subst rest.
        destruct (cov_kill o pid) as [e1|];
          [injection H as <- <- <-; exists []; exact Heq|].
        destruct (gcda_loop fuel o pid timeout false false 0 0)
          as [[[msg sl] c']|] eqn:Hloop; [|discriminate].
        injection H as <- <- <-. split; [eapply gcda_loop_message, Hloop|].
        exists sent0, []. repeat split; assumption.
      * destruct (psutil_caught e).
        { destruct (cov_kill o pid) as [e1|] eqn:Hk;
            [injection H as <- <- <-; exists rest; exact Heq|].
          destruct (gcda_loop fuel o pid timeout false false 0 0)
            as [[[msg sl] c']|] eqn:Hloop; [|discriminate].
          injection H as <- <- <-. split; [eapply gcda_loop_message, Hloop|].
          exists sent0, rest. split; [reflexivity|]. split; [exact Heq|].
          intros Hall. destruct Hr as (bad & rest' & _ & Hbad).
          rewrite Hall in Hbad. discriminate Hbad. }
        injection H as <- <- <-. exists rest. exact Heq.
    + destruct (psutil_caught e0).
      * destruct (cov_kill o pid) as [e1|];
          [injection H as <- <- <-; exists []; reflexivity|].
        destruct (gcda_loop fuel o pid timeout false false 0 0)
          as [[[msg sl] c']|] eqn:Hloop; [|discriminate].
        injection H as <- <- <-. split; [eapply gcda_loop_message, Hloop|].
        exists [], []. repeat split.
      * injection H as <- <- <-. exists []. reflexivity.
Qed.

Lemma gcda_loop_end (o : coverage_obs) (pid : Z) (timeout : Q) :
  forall fuel found open sl c msg sl' c',
  (open = true -> found = true) ->
  gcda_loop fuel o pid timeout found open sl c = Some (msg, sl', c') ->
  let seen k := gcda_seen pid (cov_procs (cov_pass o k)) in
  let elapsed k := (cov_now (cov_pass o k) - cov_start_time o)%Q in
  (c <= c')%nat /\
  (forall k, (c <= k < c')%nat ->
     (elapsed k < timeout)%Q /\ cov_healthy (cov_pass o k) = true) /\
  match msg with
  | LogDumpTook =>
      (found = true /\ open = false /\ c' = c) \/
      ((c < c')%nat /\ seen (c' - 1)%nat = false /\
       (found = true \/ exists j, (c <= j < c' - 1)%nat /\ seen j = true))
  | LogStillOpen =>
      (timeout <= elapsed c')%Q /\
      (found = true \/ exists j, (c <= j <= c')%nat /\ seen j = true)
  | LogNoneSeen =>
      (timeout <= elapsed c')%Q /\ found = false /\
      forall j, (c <= j <= c')%nat -> seen j = false
  | LogBrowserFailure =>
      (elapsed c' < timeout)%Q /\ cov_healthy (cov_pass o c') = false
  | LogSkipping => False
  end.
Proof.
  cbv zeta.
  induction fuel as [|fuel IH]; intros found open sl c msg sl' c' Hinv H;
    cbn [gcda_loop] in H; [discriminate|].
  destruct (negb found || open) eqn:Hcond.
  - cbv zeta in H.
    assert (Hopen : (if found && open then false else open) = false).
    { destruct open; [rewrite (Hinv eq_refl)|]; destruct found; reflexivity. }
    rewrite Hopen in H. cbn [orb] in H.
    destruct (Qle_bool timeout (cov_now (cov_pass o c) - cov_start_time o)) eqn:Ht.
    + apply Qle_bool_iff in Ht. injection H as <- _ <-.
      split; [lia|]. split; [intros k Hk; lia|].
      destruct found; cbn [orb].
      * split; [exact Ht | left; reflexivity].
      * destruct (gcda_seen pid (cov_procs (cov_pass o c))) eqn:Hs.
        { split; [exact Ht|]. right. exists c. split; [lia | exact Hs]. }
        split; [exact Ht|]. split; [reflexivity|].
        intros j Hj. replace j with c by lia. exact Hs.
    + assert (Hin : (cov_now (cov_pass o c) - cov_start_time o < timeout)%Q).
      { apply Qlt_bool_iff. unfold Qlt_bool. rewrite Ht. reflexivity. }
      destruct (cov_healthy (cov_pass o c)) eqn:Hh; cbn [negb] in H.
      * apply IH in H; [|intros Hs; rewrite Hs; apply orb_true_r].
        destruct H as (Hle & Hall & Hend).
        split; [lia|]. split.
        { intros k Hk. destruct (decide (k = c)) as [->|Hne];
            [split; assumption | apply Hall; lia]. }
        destruct msg.
        { exact Hend. }
        { right. destruct Hend as [(Hf & Hs & ->)|(Hlt & Hlast & Hsome)].
          - replace (S c - 1)%nat with c by lia.
            split; [lia|]. split; [exact Hs|]. left.
            rewrite Hs, orb_false_r in Hf. exact Hf.
          - split; [lia|]. split; [exact Hlast|].
            destruct Hsome as [Hf|(j & Hj & Hsj)].
            + apply orb_true_iff in Hf. destruct Hf as [Hf|Hs]; [left; exact Hf|].
              right. exists c. split; [lia | exact Hs].
            + right. exists j. split; [lia | exact Hsj]. }
        { destruct Hend as (Hend & Hsome). split; [exact Hend|].
          destruct Hsome as [Hf|(j & Hj & Hsj)].
          - apply orb_true_iff in Hf. destruct Hf as [Hf|Hs]; [left; exact Hf|].
            right. exists c. split; [lia | exact Hs].
          - right. exists j. split; [lia | exact Hsj]. }
        { destruct Hend as (Hend & Hf & Hnone).
          apply orb_false_iff in Hf. destruct Hf as [Hf Hs].
          split; [exact Hend|]. split; [exact Hf|].
          intros j Hj. destruct (decide (j = c)) as [->|Hne];
            [exact Hs | apply Hnone; lia]. }
        { exact Hend. }
      * injection H as <- _ <-. split; [lia|]. split; [intros k Hk; lia|].
        split; [exact Hin | exact Hh].
  - injection H as <- _ <-. split; [lia|]. split; [intros k Hk; lia|].
    left. apply orb_false_iff in Hcond. destruct Hcond as [Hf Ho].
    apply negb_false_iff in Hf. repeat split; assumption.
Qed.

Lemma gcda_loop_returns (o : coverage_obs) (pid : Z) (timeout : Q) :
  forall n c fuel found open sl,
  (timeout <= cov_now (cov_pass o (c + n)%nat) - cov_start_time o)%Q ->
  (n < fuel)%nat ->
  exists msg sl' c',
    gcda_loop fuel o pid timeout found open sl c = Some (msg, sl', c') /\
    (c' <= c + n)%nat.
Proof.
  induction n as [|n IH]; intros c fuel found open sl Ht Hfuel;
    (destruct fuel as [|fuel]; [lia|]); cbn [gcda_loop]; cbv zeta;
    (destruct (negb found || open);
       [|eexists _, _, c; split; [reflexivity | lia]]).
  - rewrite Nat.add_0_r in Ht. apply Qle_bool_iff in Ht. rewrite Ht.
    eexists _, _, c. split; [reflexivity | lia].
  - destruct (Qle_bool timeout _);
      [eexists _, _, c; split; [reflexivity | lia]|].
    destruct (negb (cov_healthy _));
      [eexists _, _, c; split; [reflexivity | lia]|].
    edestruct (IH (S c) fuel) as (msg & sl' & c' & Hr & Hc); [|lia|].
    + replace (S c + n)%nat with (c + S n)%nat by lia. exact Ht.
    + exists msg, sl', c'. split; [exact Hr | lia].
Qed.

(** X9.  How the wait of [dump_coverage] ends.  Every pass before the last
    one was within the timeout and found the browser healthy.  "gcda dump
    took" is logged only when some pass found a [.gcda] file open in the
    browser or one of its direct children and a later pass, the last one
    made, found none.  The two timeout messages are logged at a pass whose
    clock reading is [timeout] or more after the start: "still open" when
    some pass so far found such a file, which need not be the last one, and
    "none seen" when no pass did.  "Browser failure" is logged at a pass
    within the timeout that found the browser unhealthy. *)
Theorem dump_coverage_wait
    (fuel : nat) (o : coverage_obs) (timeout : Q) (pid : Z)
    (msg : coverage_log) (sent : list Z) (sleeps : nat) :
  cov_pid o = Some pid ->
  dump_coverage fuel o timeout = Some (Ok msg, sent, sleeps) ->
  msg <> LogSkipping ->
  let seen k := gcda_seen pid (cov_procs (cov_pass o k)) in
  let elapsed k := (cov_now (cov_pass o k) - cov_start_time o)%Q in
  exists c' : nat,
    (forall k, (k < c')%nat ->
       (elapsed k < timeout)%Q /\ cov_healthy (cov_pass o k) = true) /\
    match msg with
    | LogDumpTook =>
        (0 < c')%nat /\ seen (c' - 1)%nat = false /\
        exists j, (j < c' - 1)%nat /\ seen j = true
    | LogStillOpen =>
        (timeout <= elapsed c')%Q /\ exists j, (j <= c')%nat /\ seen j = true
    | LogNoneSeen =>
        (timeout <= elapsed c')%Q /\ forall j, (j <= c')%nat -> seen j = false
    | LogBrowserFailure =>
        (elapsed c' < timeout)%Q /\ cov_healthy (cov_pass o c') = false
    | LogSkipping => False
    end.
Proof.
  intros Hpid H Hmsg. cbv zeta. unfold dump_coverage in H. rewrite Hpid in H.
  destruct (negb (cov_is_healthy o));
    [injection H as <- _ _; exfalso; apply Hmsg; reflexivity|].
  destruct (match cov_children o with
            | Ok children => signal_children (cov_kill o) children
            | Raise e => (Raise e, [])
            end) as [r sent0].
  destruct (match r with
            | Ok _ => None
            | Raise e => if psutil_caught e then None else Some e
            end); [discriminate|].
  destruct (cov_kill o pid); [discriminate|].
  destruct (gcda_loop fuel o pid timeout false false 0 0)
    as [[[msg0 sl] c']|] eqn:Hloop; [|discriminate].
  injection H as <- _ _.
  apply gcda_loop_end in Hloop; [|discriminate].
  cbv zeta in Hloop. destruct Hloop as (_ & Hall & Hend).
  exists c'. split; [intros k Hk; apply Hall; lia|].
  destruct msg0.
  - exact Hend.
  - destruct Hend as [(Hf & _)|(Hlt & Hlast & [Hf|(j & Hj & Hs)])];
      try discriminate Hf.
    split; [exact Hlt|]. split; [exact Hlast|]. exists j. split; [lia | exact Hs].
  - destruct Hend as (Ht & [Hf|(j & Hj & Hs)]); [discriminate Hf|].
    split; [exact Ht|]. exists j. split; [lia | exact Hs].
  - destruct Hend as (Ht & _ & Hnone). split; [exact Ht|].
    intros j Hj. apply Hnone. lia.
  - exact Hend.
Qed.

(** The child holds a [.gcda] file open during pass 0 and not during pass
    1: the dump is over after one sleep, both processes signalled. *)
Lemma dump_coverage_wait_witness :
  dump_coverage 5 coverage_run 15 = Some (Ok LogDumpTook, [101; 100], 1%nat) /\
  exists c' : nat,
    (forall k, (k < c')%nat ->
       (cov_now (cov_pass coverage_run k) - cov_start_time coverage_run < 15)%Q /\
       cov_healthy (cov_pass coverage_run k) = true) /\
    (0 < c')%nat /\
    gcda_seen 100 (cov_procs (cov_pass coverage_run (c' - 1)%nat)) = false /\
    exists j, (j < c' - 1)%nat /\
      gcda_seen 100 (cov_procs (cov_pass coverage_run j)) = true.
Proof.
  split; [vm_compute; reflexivity|].
  apply (dump_coverage_wait 5 coverage_run 15 100 LogDumpTook [101; 100] 1%nat).
  - reflexivity.
  - vm_compute. reflexivity.
  - discriminate.
Defined.

(** X10.  [dump_coverage] returns or raises: if the clock reading of pass
    [n] is [timeout] or more after the start, the wait is over by that
    pass, whether or not a [.gcda] file was ever seen. *)
Theorem dump_coverage_returns
    (fuel : nat) (o : coverage_obs) (timeout : Q) (n : nat) :
  (timeout <= cov_now (cov_pass o n) - cov_start_time o)%Q ->
  (n < fuel)%nat ->
  exists r sent sleeps, dump_coverage fuel o timeout = Some (r, sent, sleeps).
Proof.
  intros Ht Hfuel. unfold dump_coverage.
  destruct (cov_pid o) as [pid|]; [|eexists _, _, _; reflexivity].
  destruct (negb (cov_is_healthy o)); [eexists _, _, _; reflexivity|].
  destruct (match cov_children o with
            | Ok children => signal_children (cov_kill o) children
            | Raise e => (Raise e, [])
            end) as [r sent0].
  destruct (match r with
            | Ok _ => None
            | Raise e => if psutil_caught e then None else Some e
            end); [eexists _, _, _; reflexivity|].
  destruct (cov_kill o pid); [eexists _, _, _; reflexivity|].
  destruct (gcda_loop_returns o pid timeout n O fuel false false O)
    as (msg & sl & c' & Hr & _); [exact Ht | exact Hfuel |].
  rewrite Hr. eexists _, _, _. reflexivity.
Qed.

Lemma dump_coverage_returns_witness :
  exists r sent sleeps, dump_coverage 16 coverage_run 15 = Some (r, sent, sleeps).
Proof.
  apply (dump_coverage_returns 16 coverage_run 15 15).
  - vm_compute. discriminate.
  - lia.
Defined.

(** ** [Interesting.config_environ] *)

Lemma list_ascii_of_string_app (a b : string) :
  list_ascii_of_string (a +:+ b) = list_ascii_of_string a ++ list_ascii_of_string b.
Proof.
  induction a as [|ch a IH]; [reflexivity|].
  rewrite append_cons. cbn [list_ascii_of_string app]. rewrite IH. reflexivity.
Qed.

Lemma drop_while_app_all (f : ascii -> bool) (a b : list ascii) :
  forallb f a = true -> drop_while f (a ++ b) = drop_while f b.
Proof.
  induction a as [|ch a IH]; cbn [forallb app drop_while]; [reflexivity|].
  intros H. apply andb_true_iff in H. destruct H as [H1 H2].
  rewrite H1. apply IH, H2.
Qed.

Lemma forallb_rev_true (f : ascii -> bool) (l : list ascii) :
  forallb f l = true -> forallb f (rev l) = true.
Proof.
  intros H. apply forallb_forall. intros x Hx. apply in_rev in Hx.
  rewrite forallb_forall in H. apply H, Hx.
Qed.

(** Appending whitespace to a line does not change what [rstrip] gives. *)
Lemma rstrip_app_spaces (is_space : ascii -> bool) (s ws : string) :
  forallb is_space (list_ascii_of_string ws) = true ->
  rstrip is_space (s +:+ ws) = rstrip is_space s.
Proof.
  intros H. unfold rstrip. rewrite list_ascii_of_string_app, rev_app_distr.
  rewrite drop_while_app_all by (apply forallb_rev_true, H). reflexivity.
Qed.

Lemma rstrip_spaces (is_space : ascii -> bool) (ws : string) :
  forallb is_space (list_ascii_of_string ws) = true ->
  rstrip is_space ws = EmptyString.
Proof.
  intros H. rewrite <- (append_empty_l ws). rewrite rstrip_app_spaces by exact H.
  reflexivity.
Qed.

Lemma split_once_join (sep : ascii) (k v : string) :
  has_char sep k = false ->
  split_once sep (k +:+ String sep v) = Some (k, v).
Proof.
  induction k as [|ch k IH]; intros H.
  - rewrite append_empty_l. cbn [split_once]. rewrite Ascii.eqb_refl. reflexivity.
  - cbn [has_char] in H. apply orb_false_iff in H. destruct H as [H1 H2].
    rewrite append_cons. cbn [split_once]. rewrite H1, (IH H2). reflexivity.
Qed.

Lemma split_once_inv (sep : ascii) (s k v : string) :
  split_once sep s = Some (k, v) ->
  s = k +:+ String sep v /\ has_char sep k = false.
Proof.
  revert k v. induction s as [|ch s IH]; intros k v H; cbn [split_once] in H;
    [discriminate|].
  destruct (Ascii.eqb ch sep) eqn:E.
  - injection H as <- <-. apply Ascii.eqb_eq in E. subst ch.
    split; reflexivity.
  - destruct (split_once sep s) as [[a b]|]; [|discriminate].
    injection H as <- <-. destruct (IH a b eq_refl) as [-> Hk].
    split; [reflexivity|]. cbn [has_char]. rewrite E, Hk. reflexivity.
Qed.

Lemma split_once_none (sep : ascii) (s : string) :
  has_char sep s = false -> split_once sep s = None.
Proof.
  induction s as [|ch s IH]; intros H; [reflexivity|].
  cbn [has_char] in H. apply orb_false_iff in H. destruct H as [H1 H2].
  cbn [split_once]. rewrite H1, (IH H2). reflexivity.
Qed.

Lemma read_environ_app (is_space : ascii -> bool) (a b : list string) :
  forall env,
  read_environ is_space (a ++ b) env =
  match read_environ is_space a env with
  | (Ok _, env1) => read_environ is_space b env1
  | (Raise e, env1) => (Raise e, env1)
  end.
Proof.
  induction a as [|line a IH]; intros env; cbn [app read_environ]; [reflexivity|].
  cbv zeta. destruct (bool_decide (rstrip is_space line = EmptyString)); [apply IH|].
  destruct (split_once "=" (rstrip is_space line)) as [[k v]|]; [apply IH | reflexivity].
Qed.

(** A key that no line binds keeps the value it had. *)
Lemma read_environ_other (is_space : ascii -> bool) (key : string)
    (lines : list string) :
  (forall l v, In l lines -> rstrip is_space l <> key +:+ "=" +:+ v) ->
  forall env, snd (read_environ is_space lines env) !! key = env !! key.
Proof.
  induction lines as [|line rest IH]; intros Hno env; cbn [read_environ];
    [reflexivity|].
  cbv zeta.
  assert (Hrest : forall l v, In l rest -> rstrip is_space l <> key +:+ "=" +:+ v)
    by (intros l v Hl; apply Hno; right; exact Hl).
  destruct (bool_decide (rstrip is_space line = EmptyString)); [apply IH, Hrest|].
  destruct (split_once "=" (rstrip is_space line)) as [[k v]|] eqn:E; [|reflexivity].
  rewrite (IH Hrest). apply lookup_insert_ne. intros ->.
  apply split_once_inv in E. destruct E as [E _].
  apply (Hno line v); [left; reflexivity | exact E].
Qed.

(** X11.  The last line for a variable decides.  When the file is read to
    its end, a variable [key] has the value of the last line that, stripped
    of trailing whitespace, reads [key=value], the key being what precedes
    the first [=]: the text after it, which may contain further [=] signs, or
    [None] when that text is empty.  A variable that no line names is not in
    [env_mod].  The other attributes of the oracle are untouched. *)
Theorem config_environ_last_binding
    (is_space : ascii -> bool) (pre post : list string)
    (line key value : string) (cfg : config) :
  rstrip is_space line = key +:+ "=" +:+ value ->
  has_char "=" key = false ->
  (forall l v, In l post -> rstrip is_space l <> key +:+ "=" +:+ v) ->
  fst (config_environ is_space (Ok (pre ++ line :: post)) cfg) = Ok tt ->
  let cfg' := snd (config_environ is_space (Ok (pre ++ line :: post)) cfg) in
  (exists env, env_mod cfg' = Some env /\
     env !! key = Some (environ_value value) /\
     forall other,
       (forall l v, In l (pre ++ line :: post) ->
          rstrip is_space l <> other +:+ "=" +:+ v) ->
       env !! other = None) /\
  set_env_mod (env_mod cfg) cfg' = cfg.
Proof.
  intros Hline Hkey Hpost Hok. cbv zeta. unfold config_environ in *.
  destruct (read_environ is_space (pre ++ line :: post) ∅) as [r env] eqn:Hread.
  cbn [fst snd] in *. split; [|destruct cfg; reflexivity].
  exists env. split; [reflexivity|]. split.
  - rewrite read_environ_app in Hread.
    destruct (read_environ is_space pre ∅) as [[[]|e] env1];
      [|injection Hread as <- _; discriminate Hok].
    cbn [read_environ] in Hread. cbv zeta in Hread.
    rewrite Hline in Hread.
    rewrite bool_decide_eq_false_2 in Hread
      by (destruct key; rewrite ?append_cons, ?append_empty_l; discriminate).
    replace (key +:+ "=" +:+ value) with (key +:+ String "="%char value) in Hread
      by reflexivity.
    rewrite (split_once_join _ _ _ Hkey) in Hread.
    pose proof (read_environ_other is_space key post Hpost
                  (<[key := environ_value value]> env1)) as Hother.
    rewrite Hread in Hother. cbn [snd] in Hother.
    rewrite Hother. apply lookup_insert_eq.
  - intros other Hno.
    pose proof (read_environ_other is_space other _ Hno ∅) as Hother.
    rewrite Hread in Hother. cbn [snd] in Hother. rewrite Hother.
    apply lookup_empty.
Qed.

(** In [environ_file] the last line for [A] reads [A=x=2] once stripped. *)
Lemma config_environ_last_binding_witness :
  exists env,
    env_mod (snd (config_environ ascii_whitespace (Ok environ_file) (oracle false 0)))
      = Some env /\
    env !! "A" = Some (Some "x=2").
Proof.
  destruct (config_environ_last_binding ascii_whitespace
              ["A=1" +:+ newline; newline; "B=" +:+ newline] []
              ("A=x=2  " +:+ newline) "A" "x=2" (oracle false 0))
    as [(env & Henv & Hkey & _) _].
  - vm_compute. reflexivity.
  - reflexivity.
  - intros l v [].
  - vm_compute. reflexivity.
  - exists env. split; [exact Henv | exact Hkey].
Defined.

(** X12.  A line without [=] that is not blank makes [config_environ]
    raise [ValueError]; the variables of the lines before it are then in
    [env_mod] and the lines after it have not been read.  Whatever
    [env_mod] held when [config_environ] was called is gone, also when the
    file cannot be opened: [env_mod] is then the empty dictionary. *)
Theorem config_environ_malformed
    (is_space : ascii -> bool) (pre post : list string) (bad : string)
    (cfg : config) (env : environ) :
  read_environ is_space pre ∅ = (Ok tt, env) ->
  rstrip is_space bad <> EmptyString ->
  has_char "=" (rstrip is_space bad) = false ->
  (exists msg,
     config_environ is_space (Ok (pre ++ bad :: post)) cfg =
     (Raise (ValueError msg), set_env_mod (Some env) cfg)) /\
  (forall e, config_environ is_space (Raise e) cfg =
             (Raise e, set_env_mod (Some ∅) cfg)).
Proof.
  intros Hpre Hne Hno. split; [|reflexivity].
  unfold config_environ. rewrite read_environ_app, Hpre.
  cbn [read_environ]. cbv zeta.
  rewrite bool_decide_eq_false_2 by exact Hne.
  rewrite (split_once_none _ _ Hno). eexists. reflexivity.
Qed.

Lemma config_environ_malformed_witness :
  exists msg,
    config_environ ascii_whitespace
      (Ok (["A=1" +:+ newline] ++ ("B" +:+ newline) :: ["C=3" +:+ newline]))
      (oracle false 0) =
    (Raise (ValueError msg),
     set_env_mod (Some (<["A" := Some "1"]> ∅)) (oracle false 0)).
Proof.
  apply (config_environ_malformed ascii_whitespace ["A=1" +:+ newline]
           ["C=3" +:+ newline] ("B" +:+ newline) (oracle false 0)
           (<["A" := Some "1"]> ∅)).
  - vm_compute. reflexivity.
  - vm_compute. discriminate.
  - vm_compute. reflexivity.
Defined.

Lemma read_environ_stripped (is_space : ascii -> bool) (ws : string)
    (lines : list string) :
  forallb is_space (list_ascii_of_string ws) = true ->
  forall env,
  read_environ is_space (map (fun l => l +:+ ws) lines) env =
  read_environ is_space lines env.
Proof.
  intros Hws. induction lines as [|line rest IH]; intros env;
    cbn [map read_environ]; [reflexivity|].
  cbv zeta. rewrite (rstrip_app_spaces _ _ _ Hws).
  destruct (bool_decide (rstrip is_space line = EmptyString)); [apply IH|].
  destruct (split_once "=" (rstrip is_space line)) as [[k v]|]; [apply IH | reflexivity].
Qed.

(** X13.  Trailing whitespace and blank lines do not matter to
    [config_environ]: appending whitespace to every line, or inserting a
    line of whitespace anywhere, changes neither the outcome nor
    [env_mod]. *)
Theorem config_environ_ignores_blanks
    (is_space : ascii -> bool) (ws : string) (cfg : config) :
  forallb is_space (list_ascii_of_string ws) = true ->
  (forall lines,
     config_environ is_space (Ok (map (fun l => l +:+ ws) lines)) cfg =
     config_environ is_space (Ok lines) cfg) /\
  (forall pre post,
     config_environ is_space (Ok (pre ++ ws :: post)) cfg =
     config_environ is_space (Ok (pre ++ post)) cfg).
Proof.
  intros Hws. split.
  - intros lines. unfold config_environ.
    rewrite (read_environ_stripped _ _ _ Hws). reflexivity.
  - intros pre post. unfold config_environ. rewrite !read_environ_app.
    destruct (read_environ is_space pre ∅) as [[[]|e] env1]; [|reflexivity].
    cbn [read_environ]. cbv zeta. rewrite (rstrip_spaces _ _ Hws).
    rewrite bool_decide_eq_true_2 by reflexivity. reflexivity.
Qed.

Lemma config_environ_ignores_blanks_witness :
  config_environ ascii_whitespace
    (Ok (map (fun l => l +:+ "  ") ["A=1"; "B="])) (oracle false 0) =
  config_environ ascii_whitespace (Ok ["A=1"; "B="]) (oracle false 0).
Proof.
  apply (config_environ_ignores_blanks ascii_whitespace "  " (oracle false 0)).
  reflexivity.
Defined.

(** ** [Interesting.cleanup] *)

(** X14.  [cleanup] releases the target whatever happens to the server:
    [target.cleanup()] is called also when [server.close()] raised, and when
    it returns it is the last call made.  The server is closed only if there
    is one, and [self.server] is cleared only when the close returned.  An
    exception of [target.cleanup()] replaces one of [server.close()]; the
    latter surfaces when [target.cleanup()] returns.  After a [cleanup] that
    returned, a second one does not close the server again. *)
Theorem cleanup_releases_target
    (server_close target_cleanup : option exn) (has_target : bool) (s : state) :
  let r := fst (fst (cleanup server_close target_cleanup has_target s)) in
  let s' := snd (fst (cleanup server_close target_cleanup has_target s)) in
  let calls := snd (cleanup server_close target_cleanup has_target s) in
  (has_target = true -> target_cleanup = None ->
   exists before, calls = before ++ [TdTargetCleanup]) /\
  (In TdServerClose calls <-> server s <> None /\ server_close = None) /\
  (server s' = None <-> server s = None \/ server_close = None) /\
  (forall e, has_target = true -> target_cleanup = Some e -> r = Raise e) /\
  (forall e, server s <> None -> server_close = Some e ->
     has_target = false \/ target_cleanup = None -> r = Raise e) /\
  (r = Ok tt ->
   forall sc tc ht,
     ~ In TdServerClose (snd (cleanup sc tc ht s'))) /\
  set_server (server s) s' = s.
Proof.
  cbv zeta. unfold cleanup.
  split; [|split; [|split; [|split; [|split; [|split]]]]].
  - intros -> ->.
    destruct (server s), server_close; cbn [fst snd];
      first [exists []; reflexivity | exists [TdServerClose]; reflexivity].
  - destruct (server s), server_close, has_target, target_cleanup;
      cbn [fst snd app In]; intuition (discriminate || congruence).
  - destruct (server s) eqn:Hs, server_close, has_target, target_cleanup;
      cbn [fst snd server set_server]; rewrite ?Hs;
      intuition (discriminate || congruence).
  - intros e -> ->. destruct (server s), server_close; reflexivity.
  - intros e Hs -> Ht. destruct (server s); [|contradiction].
    destruct has_target; [|reflexivity].
    destruct Ht as [Ht|Ht]; [discriminate Ht | rewrite Ht; reflexivity].
  - intros Hr sc tc ht.
    assert (Hnone : server (snd (fst
              (let '(r, s1, calls) :=
                 match server s with
                 | Some _ =>
                     match server_close with
                     | Some e => (Raise e, s, [])
                     | None => (Ok tt, set_server None s, [TdServerClose])
                     end
                 | None => (Ok tt, s, [])
                 end in
               if has_target then
                 match target_cleanup with
                 | Some e => (Raise e, s1, calls)
                 | None => (r, s1, calls ++ [TdTargetCleanup])
                 end
               else (r, s1, calls)))) = None).
    { destruct (server s) eqn:Hs, server_close, has_target, target_cleanup;
        cbn [fst snd server set_server] in *; try discriminate Hr;
        try reflexivity; exact Hs. }
    rewrite Hnone. destruct ht, tc; cbn [fst snd app In]; intuition discriminate.
  - destruct s. cbn [server].
    destruct server0, server_close, has_target, target_cleanup; reflexivity.
Qed.

(** ** [Interesting.update_timeout]: the values it assigns *)

Lemma shrunk_value (x old : Q) :
  (if Qlt_bool (py_max 10 (py_min x old)) old
   then py_max 10 (py_min x old) else old) == Qmin old (Qmax 10 x).
Proof.
  unfold py_max, py_min.
  destruct (Q.min_spec old (Qmax 10 x)) as [[H1 ->]|[H1 ->]];
    destruct (Q.max_spec 10 x) as [[H2 H3]|[H2 H3]]; rewrite H3 in H1;
    destruct (Qlt_bool old x) eqn:E1;
    try (apply Qlt_bool_iff in E1); try (apply Qlt_bool_false_iff in E1);
    destruct (Qlt_bool 10 _) eqn:E2;
    try (apply Qlt_bool_iff in E2); try (apply Qlt_bool_false_iff in E2);
    destruct (Qlt_bool _ old) eqn:E3;
    try (apply Qlt_bool_iff in E3); try (apply Qlt_bool_false_iff in E3);
    try rewrite H3; lra.
Qed.

Lemma update_timeout_values (o : trial_obs) (t : Q) (s : state) :
  idle_timeout (snd (update_timeout o t s)) ==
    Qmin (idle_timeout s) (Qmax 10 (t * 1.5)) /\
  iter_timeout (snd (update_timeout o t s)) ==
    Qmin (iter_timeout s) (Qmax 10 (t * 2)).
Proof.
  destruct (update_timeout_fields o t s) as (Hi & Hj & _).
  rewrite Hi, Hj. split; apply shrunk_value.
Qed.

Lemma update_timeout_keeps_floor (o : trial_obs) (t : Q) :
  preserves keeps_floor (update_timeout o t).
Proof.
  intros s. destruct (update_timeout_values o t s) as [Hi Hj].
  split; intros H.
  - rewrite Hi. destruct (Q.min_spec (idle_timeout s) (Qmax 10 (t * 1.5)))
      as [[_ ->]|[_ ->]]; [exact H | apply Q.le_max_l].
  - rewrite Hj. destruct (Q.min_spec (iter_timeout s) (Qmax 10 (t * 2)))
      as [[_ ->]|[_ ->]]; [exact H | apply Q.le_max_l].
Qed.

(** X15.  What [update_timeout] leaves in the two timeouts: the smaller of
    the old value and [max(10, 1.5 * run_time)], respectively
    [max(10, 2 * run_time)].  So a timeout at or above ten seconds stays
    there, a timeout below ten seconds is never changed, and the timeouts
    after two updates do not depend on the order of the two. *)
Theorem update_timeout_closed_form (o : trial_obs) (t : Q) (s : state) :
  let s' := snd (update_timeout o t s) in
  (idle_timeout s' == Qmin (idle_timeout s) (Qmax 10 (t * 1.5)) /\
   iter_timeout s' == Qmin (iter_timeout s) (Qmax 10 (t * 2))) /\
  (((10 <= idle_timeout s)%Q -> (10 <= idle_timeout s')%Q) /\
   ((10 <= iter_timeout s)%Q -> (10 <= iter_timeout s')%Q)) /\
  (((idle_timeout s < 10)%Q -> idle_timeout s' = idle_timeout s) /\
   ((iter_timeout s < 10)%Q -> iter_timeout s' = iter_timeout s)) /\
  (forall o2 t2,
     let s12 := snd (update_timeout o2 t2 s') in
     let s21 := snd (update_timeout o t (snd (update_timeout o2 t2 s))) in
     idle_timeout s12 == idle_timeout s21 /\ iter_timeout s12 == iter_timeout s21).
Proof.
  cbv zeta.
  pose proof update_timeout_values as Hform.
  destruct (Hform o t s) as [Hi Hj].
  split; [split; assumption|]. split; [|split].
  - apply (update_timeout_keeps_floor o t s).
  - destruct (update_timeout_fields o t s) as (Hi' & Hj' & _).
    split; intros H.
    + rewrite Hi'. destruct (Qlt_bool _ (idle_timeout s)) eqn:E; [|reflexivity].
      exfalso. apply Qlt_bool_iff in E. unfold py_max in E.
      destruct (Qlt_bool 10 _) eqn:E2;
        [apply Qlt_bool_iff in E2 | apply Qlt_bool_false_iff in E2]; lra.
    + rewrite Hj'. destruct (Qlt_bool _ (iter_timeout s)) eqn:E; [|reflexivity].
      exfalso. apply Qlt_bool_iff in E. unfold py_max in E.
      destruct (Qlt_bool 10 _) eqn:E2;
        [apply Qlt_bool_iff in E2 | apply Qlt_bool_false_iff in E2]; lra.
  - intros o2 t2.
    destruct (Hform o2 t2 (snd (update_timeout o t s))) as [Hi12 Hj12].
    destruct (Hform o2 t2 s) as [Hi2 Hj2].
    destruct (Hform o t (snd (update_timeout o2 t2 s))) as [Hi21 Hj21].
    rewrite Hi12, Hj12, Hi21, Hj21, Hi, Hj, Hi2, Hj2.
    split.
    + rewrite <- !Q.min_assoc. rewrite (Q.min_comm (Qmax 10 (t * 1.5))). reflexivity.
    + rewrite <- !Q.min_assoc. rewrite (Q.min_comm (Qmax 10 (t * 2))). reflexivity.
Qed.

Lemma keeps_floor_refl (s : state) : keeps_floor s s.
Proof. split; intros H; exact H. Qed.

Lemma keeps_floor_trans (a b c : state) :
  keeps_floor a b -> keeps_floor b c -> keeps_floor a c.
Proof. intros [H1 H2] [H3 H4]. split; intros H; auto. Qed.

(** X16.  The ten-second floor holds for a whole session: whatever the
    trials do, a timeout that starts at ten seconds or more never gets below
    ten seconds. *)
Theorem session_keeps_floor (cfg : config) (w : world)
    (calls : list (call_obs * string)) (s : state) :
  (10 <= idle_timeout s)%Q -> (10 <= iter_timeout s)%Q ->
  (10 <= idle_timeout (snd (session cfg w calls s)))%Q /\
  (10 <= iter_timeout (snd (session cfg w calls s)))%Q.
Proof.
  intros Hi Hj.
  assert (H : keeps_floor s (snd (session cfg w calls s))).
  { apply preserves_session with (allowed := fun _ => true);
      first [ exact keeps_floor_trans
            | exact update_timeout_keeps_floor
            | (intros; split; intros ?; assumption)
            | (intros; reflexivity) ]. }
  destruct H as [H1 H2]. split; [apply H1, Hi | apply H2, Hj].
Qed.

(** Three calls on crashing trials that take five seconds: the timeouts of
    sixty seconds come down to the floor and stay there. *)
Lemma session_keeps_floor_witness :
  let s' := snd (session (oracle false 0)
                   (fun _ => smooth_trial crashed_puppet crash_a)
                   [(empty_fs "a", "/tmp/1"); (empty_fs "b", "/tmp/2");
                    (empty_fs "c", "/tmp/3")] fresh) in
  idle_timeout s' = 10%Q /\ (10 <= idle_timeout s')%Q /\ (10 <= iter_timeout s')%Q.
Proof.
  cbv zeta. split; [vm_compute; reflexivity|].
  apply (session_keeps_floor (oracle false 0)
           (fun _ => smooth_trial crashed_puppet crash_a)
           [(empty_fs "a", "/tmp/1"); (empty_fs "b", "/tmp/2");
            (empty_fs "c", "/tmp/3")] fresh);
    vm_compute; discriminate.
Defined.

(** ** Relations kept by a call, given that its parts keep them *)

Lemma detect_failure_plain (o : puppet_obs) (ignored : list string) (t : bool) :
  forallb plain (snd (detect_failure o ignored t)) = true.
Proof.
  unfold detect_failure. cbn [snd].
  destruct (expect_close o && negb t), (detect_closes o t), (is_running o);
    try reflexivity;
    destruct (t && negb (contains "timeout" ignored) && on_linux o); reflexivity.
Qed.

Section Given.

Variable cfg : config.
Variable R : state -> state -> Prop.
Hypothesis R_refl : forall s, R s s.
Hypothesis R_trans : forall a b c, R a b -> R b c -> R a c.

(** The effects the relation tolerates include the plain ones. *)
Variable allowed : event -> bool.
Hypothesis allowed_plain : forall ev, plain ev = true -> allowed ev = true.
Hypothesis R_emit :
  forall evs s, forallb allowed evs = true -> R s (set_trace (trace s ++ evs) s).

Lemma allowed_plain_list (evs : list event) :
  forallb plain evs = true -> forallb allowed evs = true.
Proof.
  induction evs as [|ev evs IH]; cbn [forallb]; [reflexivity|].
  intros H. apply andb_true_iff in H. destruct H as [H1 H2].
  rewrite (allowed_plain _ H1), (IH H2). reflexivity.
Qed.

Ltac allowed_leaf :=
  first [ apply allowed_plain_list; reflexivity
        | reflexivity
        | (cbn [forallb]; rewrite ?andb_true_r; auto) ].

Ltac given_step :=
  lazymatch goal with
  | |- preserves _ (_ ≫= _) => apply (preserves_bind R R_trans); [|intros ?]
  | |- preserves _ (ret _) => apply (preserves_ret R R_refl)
  | |- preserves _ (raise _) => apply (preserves_raise R R_refl)
  | |- preserves _ get => apply (preserves_get R R_refl)
  | |- preserves _ (when false _) => apply (preserves_ret R R_refl)
  | |- preserves _ (when _ _) => apply (preserves_when R R_refl)
  | |- preserves _ (emit _) => apply (preserves_emit R allowed R_emit); allowed_leaf
  | |- preserves _ (call _ _ _) =>
      apply (preserves_call R R_refl allowed R_emit); allowed_leaf
  | |- preserves _ (try_finally _ _) => apply (preserves_try_finally R R_trans)
  | |- preserves _ (modify _) => apply preserves_modify; intros ?; auto
  | |- preserves _ (if ?b then _ else _) => destruct b
  | |- preserves _ (match ?x with _ => _ end) => destruct x
  end.

Lemma given_update_timeout (o : trial_obs) (t : Q) :
  (forall v s, R s (set_idle_timeout v s)) ->
  (forall v s, R s (set_iter_timeout v s)) ->
  (forall s, R s (set_server None s)) ->
  allowed EvServerClose = true ->
  preserves R (update_timeout o t).
Proof. intros Hi Hj Hs Ha. unfold update_timeout. repeat given_step. Qed.

Lemma given_launch_sapphire (o : trial_obs) :
  (forall v s, R s (set_server v s)) ->
  (forall t, allowed (EvServerNew t) = true) ->
  preserves R (launch_sapphire cfg o).
Proof. intros Hs Ha. unfold launch_sapphire. repeat given_step. Qed.

Hypothesis R_closed : forall v s, R s (set_target_closed v s).

Lemma given_launch_loop (o : trial_obs) (n k : nat) :
  preserves R (launch_loop cfg o n k).
Proof.
  revert k. induction n as [|n IH]; intros k; cbn [launch_loop].
  - apply (preserves_ret R R_refl).
  - repeat given_step. apply IH.
Qed.

Lemma given_relaunch (o : trial_obs) : preserves R (relaunch cfg o).
Proof. unfold relaunch. repeat first [apply given_launch_loop | given_step]. Qed.

Lemma given_serve (o : trial_obs) : preserves R (serve cfg o).
Proof. unfold serve. repeat given_step. Qed.

Lemma given_target_detect_failure (o : trial_obs) (t : bool) :
  preserves R (target_detect_failure cfg o t).
Proof.
  unfold target_detect_failure.
  pose proof (detect_failure_plain (puppet o) (ignore cfg) t) as Hq.
  destruct (detect_failure (puppet o) (ignore cfg) t) as [status evs].
  cbn [snd] in Hq.
  repeat first [apply (preserves_emit R allowed R_emit), allowed_plain_list, Hq
               | given_step].
Qed.

Lemma given_close_and_save_logs (o : trial_obs) (p : string) :
  allowed EvTargetClose = true ->
  allowed (EvMkdir (p +:+ "_logs")) = true ->
  allowed (EvSaveLogs (p +:+ "_logs")) = true ->
  preserves R (close_and_save_logs o p).
Proof. intros H1 H2 H3. unfold close_and_save_logs. repeat given_step. Qed.

Lemma given_handle_failure (o : trial_obs) (p : string) (fd : failure_class) :
  (forall v s, R s (set_orig_sig v s)) ->
  preserves R (update_timeout o (run_time o)) ->
  allowed EvTargetClose = true ->
  allowed (EvMkdir (p +:+ "_logs")) = true ->
  allowed (EvSaveLogs (p +:+ "_logs")) = true ->
  (alt_crash_cb cfg = true -> allowed (EvAltCrashCb p) = true) ->
  preserves R (handle_failure cfg o p fd).
Proof.
  intros Hsig Hupd H1 H2 H3 Halt. unfold handle_failure.
  destruct (alt_crash_cb cfg) eqn:E;
    repeat first [apply given_close_and_save_logs; assumption
                 | exact Hupd | given_step].
Qed.

(** The trials, the prefixes and the cache keys the parts are known for. *)
Variable good : trial_obs -> Prop.
Variable mine_prefix : string -> Prop.
Variable mine_key : string -> Prop.

Hypothesis R_sapphire : forall o, good o -> preserves R (launch_sapphire cfg o).
Hypothesis R_handle :
  forall o p fd, good o -> mine_prefix p -> preserves R (handle_failure cfg o p fd).

Lemma given_run (o : trial_obs) (p : string) :
  good o -> mine_prefix p -> preserves R (_run cfg o p).
Proof.
  intros Ho Hp. unfold _run, run_body, run_finally, serve_and_classify.
  repeat first [apply R_sapphire, Ho | apply given_relaunch | apply given_serve
               | apply given_target_detect_failure
               | apply R_handle; assumption | given_step].
Qed.

Hypothesis R_trials : forall v s, R s (set_trials v s).
Hypothesis R_verdicts : forall v s, R s (set_verdicts v s).

Lemma given_run_trial (w : world) (p : string) :
  (forall n, good (w n)) -> mine_prefix p -> preserves R (run_trial cfg w p).
Proof.
  intros Hw Hp. unfold run_trial.
  repeat first [apply given_run; [apply Hw | exact Hp] | given_step].
Qed.

Hypothesis R_store :
  forall key b p, mine_key key -> preserves R (cache_store cfg key b p).
Hypothesis allowed_cb :
  forall p, mine_prefix p -> interesting_cb cfg = true ->
  allowed (EvInterestingCb p) = true.

Lemma given_trial_loop (w : world) (key p : string) (n_tries : Z) (togo : nat) :
  (forall n, good (w n)) -> mine_prefix p -> mine_key key ->
  forall i n_crashes, preserves R (trial_loop cfg w key p n_tries togo i n_crashes).
Proof.
  intros Hw Hp Hk.
  pose proof (allowed_cb p Hp) as Hcb.
  induction togo as [|togo IH]; intros i n_crashes; cbn [trial_loop].
  - repeat first [apply R_store, Hk | given_step].
  - destruct (interesting_cb cfg);
      repeat first [apply R_store, Hk | apply given_run_trial; assumption
                   | apply IH | given_step].
Qed.

Hypothesis R_replay :
  forall c p files, mine_prefix p -> preserves R (replay c p files).

Lemma given_evaluate (w : world) (c : call_obs) (p : string) :
  (forall n, good (w n)) -> mine_prefix p -> mine_key (cache_key c) ->
  preserves R (evaluate cfg w c p).
Proof.
  intros Hw Hp Hk. unfold evaluate, run_trials.
  repeat first [apply given_trial_loop; assumption | apply R_replay, Hp | given_step].
Qed.

Hypothesis R_skipped : forall v s, R s (set_skipped v s).

Lemma given_interesting (w : world) (c : call_obs) (p : string) :
  (forall n, good (w n)) -> mine_prefix p -> mine_key (cache_key c) ->
  preserves R (interesting cfg w c p).
Proof.
  intros Hw Hp Hk. unfold interesting, skip_gate.
  repeat first [apply given_evaluate; assumption | given_step].
Qed.

Lemma given_session (w : world) (calls : list (call_obs * string)) :
  (forall n, good (w n)) ->
  Forall (fun cp => mine_key (cache_key (fst cp)) /\ mine_prefix (snd cp)) calls ->
  forall s, R s (snd (session cfg w calls s)).
Proof.
  intros Hw. induction calls as [|[c p] rest IH]; intros Hall s; cbn [session].
  - apply R_refl.
  - inversion Hall as [|? ? [Hk Hp] Hrest]; subst. cbn [fst snd] in *.
    pose proof (given_interesting w c p Hw Hp Hk s) as H1.
    destruct (interesting cfg w c p s) as [r s1]. cbn [snd] in H1.
    specialize (IH Hrest s1). destruct (session cfg w rest s1) as [rs s2].
    cbn [snd] in *. eapply R_trans; eassumption.
Qed.

End Given.

(** ** The reference signature *)

Ltac frame_side :=
  intros; unfold untouched in *;
  repeat match goal with H : _ /\ _ |- _ => destruct H end;
  repeat split; first [reflexivity | congruence | assumption].

Lemma update_timeout_same_sig (o : trial_obs) (t : Q) :
  preserves (fun s s' => orig_sig s' = orig_sig s) (update_timeout o t).
Proof. apply given_update_timeout with (allowed := fun _ => true); frame_side. Qed.

Ltac step_over_update_timeout frame :=
  match goal with
  | |- context [update_timeout ?o ?t ?s] =>
      pose proof (frame o t s);
      destruct (update_timeout o t s) as [[[]|?] ?]
  end.

(** [handle_failure] either leaves the reference signature as it is, or
    adopts the signature of the crash, which it does only when there was
    none and [any_crash] is not set. *)
Lemma handle_failure_sig (cfg : config) (o : trial_obs) (p : string)
    (fd : failure_class) (s : state) :
  let s' := snd (handle_failure cfg o p fd s) in
  orig_sig s' = orig_sig s \/
  (orig_sig s = None /\ any_crash cfg = false /\
   orig_sig s' = Some (createCrashSignature (crash o) 5%nat)).
Proof.
  cbv zeta.
  unfold handle_failure, close_and_save_logs, call, when, emit, modify, raise,
    ret, get, mbind, M_bind, bind.
  destruct fd; [left; reflexivity| |].
  - destruct (raises o STargetClose); [left; reflexivity|].
    destruct (raises o SMkdir); [left; reflexivity|].
    destruct (raises o SSaveLogs); [left; reflexivity|].
    destruct (raises o SReport); [left; reflexivity|].
    destruct (String.eqb _ _); [left; reflexivity|].
    cbn [orig_sig set_trace set_target_closed].
    destruct (orig_sig s) as [sg|] eqn:Hs.
    + destruct (raises o SMatches); [left; cbn; auto|].
      destruct (matched_by (crash o) sg).
      * rewrite bool_decide_eq_false_2 by discriminate. cbn [andb].
        step_over_update_timeout update_timeout_same_sig; cbn in *; left; congruence.
      * destruct (alt_crash_cb cfg); [destruct (raises o SAltCrashCb)|];
          left; cbn; auto.
    + rewrite bool_decide_eq_true_2 by reflexivity. cbn [andb].
      destruct (any_crash cfg); cbn [negb].
      * step_over_update_timeout update_timeout_same_sig; cbn in *; left; congruence.
      * destruct (raises o SCreateSignature); [left; cbn; auto|].
        step_over_update_timeout update_timeout_same_sig; cbn in *; right; auto.
  - destruct (raises o STargetClose); [left; reflexivity|].
    destruct (raises o SMkdir); [left; reflexivity|].
    destruct (raises o SSaveLogs); left; reflexivity.
Qed.

Lemma sig_write_once_refl (cfg : config) (s : state) : sig_write_once cfg s s.
Proof. split; intros; [assumption | reflexivity]. Qed.

Lemma sig_write_once_trans (cfg : config) (a b c : state) :
  sig_write_once cfg a b -> sig_write_once cfg b c -> sig_write_once cfg a c.
Proof.
  intros [H1 H2] [H3 H4]. split.
  - intros sg H. apply H3, H1, H.
  - intros H. rewrite (H4 H), (H2 H). reflexivity.
Qed.

Lemma sig_write_once_same (cfg : config) (a b : state) :
  orig_sig b = orig_sig a -> sig_write_once cfg a b.
Proof. intros H. split; intros; congruence. Qed.

Lemma handle_failure_write_once (cfg : config) (o : trial_obs) (p : string)
    (fd : failure_class) :
  preserves (sig_write_once cfg) (handle_failure cfg o p fd).
Proof.
  intros s. destruct (handle_failure_sig cfg o p fd s) as [H|(H1 & H2 & H3)].
  - apply sig_write_once_same, H.
  - split; intros; congruence.
Qed.

Ltac sig_side cfg :=
  first [ exact (sig_write_once_refl cfg)
        | exact (sig_write_once_trans cfg)
        | (intros; apply handle_failure_write_once)
        | (intros; apply sig_write_once_same; reflexivity)
        | (intros; reflexivity)
        | (intros; exact I) ].

(** X17.  The reference signature is written at most once in a session:
    once there is one, whether supplied or adopted from a crash, no trial
    replaces it; and with [any_crash] set none is ever adopted, so the
    attribute stays what it was. *)
Theorem reference_signature_write_once
    (cfg : config) (w : world) (calls : list (call_obs * string)) (s : state) :
  let s' := snd (session cfg w calls s) in
  (forall sg, orig_sig s = Some sg -> orig_sig s' = Some sg) /\
  (any_crash cfg = true -> orig_sig s' = orig_sig s).
Proof.
  cbv zeta. change (sig_write_once cfg s (snd (session cfg w calls s))).
  apply given_session with (allowed := fun _ => true) (good := fun _ => True)
    (mine_prefix := fun _ => True) (mine_key := fun _ => True).
  all: try solve [sig_side cfg].
  - intros o _. apply given_launch_sapphire with (allowed := fun _ => true);
      sig_side cfg.
  - intros key b p _. apply preserves_cache_store; sig_side cfg.
  - intros c p files _. apply preserves_replay with (allowed := fun _ => true);
      sig_side cfg.
  - apply Forall_forall. intros; split; exact I.
Qed.

(** ** The Sapphire server and the iteration timeout *)

Lemma launch_sapphire_current (cfg : config) (o : trial_obs) :
  preserves (fun s s' => server_current cfg s -> server_current cfg s')
    (launch_sapphire cfg o).
Proof.
  intros s H. unfold launch_sapphire, call, when, emit, modify, raise, ret, get,
    mbind, M_bind, bind.
  destruct (server s) eqn:Hs; [exact H|].
  destruct (raises o SServerNew); [exact H|].
  unfold server_current, serve_timeout_of.
  destruct (no_harness cfg); cbn; [reflexivity|].
  destruct (raises o SHarnessOpen); reflexivity.
Qed.

Lemma update_timeout_current (cfg : config) (o : trial_obs) (t : Q) :
  raises o SServerClose = None ->
  preserves (fun s s' => server_current cfg s -> server_current cfg s')
    (update_timeout o t).
Proof.
  intros Hgood s H. destruct (update_timeout_fields o t s) as (_ & Hj & Hsrv).
  unfold server_current, serve_timeout_of in *. rewrite Hgood in Hsrv.
  destruct (Qlt_bool _ (iter_timeout s)).
  - destruct (server s); destruct Hsrv as [-> _]; exact I.
  - destruct Hsrv as [-> _]. rewrite Hj. exact H.
Qed.

Ltac current_side :=
  first [ (intros; assumption) | (intros; reflexivity) | (intros; exact I)
        | (intros; auto) ].

(** X18.  As long as closing the server does not fail, the Sapphire server
    is always one built for the current iteration timeout: whenever
    [update_timeout] lowers [iter_timeout] it discards the server, and the
    next trial builds a new one with [iter_timeout], plus ten seconds when
    the harness is used. *)
Theorem server_timeout_is_current
    (cfg : config) (w : world) (calls : list (call_obs * string)) (s : state) :
  (forall n, raises (w n) SServerClose = None) ->
  server_current cfg s ->
  server_current cfg (snd (session cfg w calls s)).
Proof.
  intros Hw.
  apply (given_session cfg (fun s s' => server_current cfg s -> server_current cfg s'))
    with (allowed := fun _ => true) (good := fun o => raises o SServerClose = None)
         (mine_prefix := fun _ => True) (mine_key := fun _ => True).
  all: try solve [current_side].
  - intros o _. apply launch_sapphire_current.
  - intros o p fd Ho _.
    apply given_handle_failure with (allowed := fun _ => true);
      first [apply update_timeout_current, Ho | current_side].
  - intros key b p _. apply preserves_cache_store; current_side.
  - intros c p files _. apply preserves_replay with (allowed := fun _ => true);
      current_side.
  - apply Forall_forall. intros; split; exact I.
Qed.

(** A session that starts without a server, on trials whose server never
    fails to close. *)
Lemma server_timeout_is_current_witness :
  server_current (oracle false 0)
    (snd (session (oracle false 0) (fun _ => smooth_trial crashed_puppet crash_a)
            [(empty_fs "a", "/tmp/1"); (empty_fs "b", "/tmp/2")] fresh)).
Proof.
  apply (server_timeout_is_current (oracle false 0)
           (fun _ => smooth_trial crashed_puppet crash_a)
           [(empty_fs "a", "/tmp/1"); (empty_fs "b", "/tmp/2")] fresh).
  - intros n. reflexivity.
  - exact I.
Defined.

(** ** The footprint of a call *)

Lemma prefix_append (a b : string) : String.prefix a (a +:+ b) = true.
Proof.
  induction a as [|ch a IH]; [destruct b; reflexivity|].
  rewrite append_cons. cbn [String.prefix].
  destruct (ascii_dec ch ch) as [_|Hne]; [exact IH | contradiction].
Qed.

Lemma prefix_inv (a b : string) :
  String.prefix a b = true -> exists sfx, b = a +:+ sfx.
Proof.
  revert b. induction a as [|ch a IH]; intros b H.
  - exists b. reflexivity.
  - destruct b as [|ch' b]; cbn [String.prefix] in H; [discriminate|].
    destruct (ascii_dec ch ch') as [<-|_]; [|discriminate].
    destruct (IH b H) as [sfx ->]. exists sfx. reflexivity.
Qed.

Lemma plain_in_footprint (cfg : config) (p : string) (ev : event) :
  plain ev = true -> in_footprint cfg p ev = true.
Proof. destruct ev; cbn; intros H; first [reflexivity | discriminate H]. Qed.

Lemma within_footprint_refl (cfg : config) (p : string) (s : state) :
  within_footprint cfg p s s.
Proof. exists []. rewrite app_nil_r. split; reflexivity. Qed.

Lemma within_footprint_trans (cfg : config) (p : string) (a b c : state) :
  within_footprint cfg p a b -> within_footprint cfg p b c ->
  within_footprint cfg p a c.
Proof.
  intros (e1 & H1 & Q1) (e2 & H2 & Q2). exists (e1 ++ e2). split.
  - rewrite H2, H1, app_assoc. reflexivity.
  - rewrite forallb_app, Q1, Q2. reflexivity.
Qed.

Lemma within_footprint_same (cfg : config) (p : string) (a b : state) :
  trace b = trace a -> within_footprint cfg p a b.
Proof. intros H. exists []. rewrite app_nil_r. split; [exact H | reflexivity]. Qed.

Lemma within_footprint_emit (cfg : config) (p : string) (evs : list event)
    (s : state) :
  forallb (in_footprint cfg p) evs = true ->
  within_footprint cfg p s (set_trace (trace s ++ evs) s).
Proof. intros H. exists evs. split; [reflexivity | exact H]. Qed.

Ltac footprint_side cfg p :=
  first [ exact (within_footprint_refl cfg p)
        | exact (within_footprint_trans cfg p)
        | exact (within_footprint_emit cfg p)
        | exact (plain_in_footprint cfg p)
        | (intros; apply within_footprint_same; reflexivity)
        | (intros; reflexivity)
        | (intros; exact I) ].

Lemma replay_footprint (cfg : config) (c : call_obs) (p : string)
    (files : list string) :
  preserves (within_footprint cfg p) (replay c p files).
Proof.
  induction files as [|f rest IH]; cbn [replay];
    [intros s; apply within_footprint_refl|].
  assert (Hdst : forall s1, String.prefix (p +:+ "_") (p +:+ "_" +:+ s1) = true).
  { intros s1. rewrite <- append_assoc. apply prefix_append. }
  apply (preserves_bind _ (within_footprint_trans cfg p)); [|intros _; exact IH].
  destruct (split_underscore (basename f)) as [[a s1]|];
    destruct (isfile c f); [| destruct (isdir c f) | | destruct (isdir c f)];
    intros s; cbn;
    first [ apply within_footprint_refl
          | apply within_footprint_emit; cbn; rewrite Hdst; reflexivity ].
Qed.

Lemma handle_failure_footprint (cfg : config) (o : trial_obs) (p : string)
    (fd : failure_class) :
  preserves (within_footprint cfg p) (handle_failure cfg o p fd).
Proof.
  apply given_handle_failure with (allowed := in_footprint cfg p);
    try solve [footprint_side cfg p].
  - apply given_update_timeout with (allowed := in_footprint cfg p);
      footprint_side cfg p.
  - cbn. apply String.eqb_refl.
  - cbn. apply String.eqb_refl.
  - intros H. cbn. rewrite H, String.eqb_refl. reflexivity.
Qed.

Lemma interesting_footprint (cfg : config) (w : world) (c : call_obs) (p : string) :
  preserves (within_footprint cfg p) (interesting cfg w c p).
Proof.
  apply given_interesting with (allowed := in_footprint cfg p)
    (good := fun _ => True) (mine_prefix := fun q => q = p)
    (mine_key := fun _ => True).
  all: try solve [footprint_side cfg p].
  - intros o _. apply given_launch_sapphire with (allowed := in_footprint cfg p);
      footprint_side cfg p.
  - intros o q fd _ ->. apply handle_failure_footprint.
  - intros key b q _. apply preserves_cache_store; footprint_side cfg p.
  - intros q -> H. cbn. rewrite H, String.eqb_refl. reflexivity.
  - intros c0 q files ->. apply replay_footprint.
Qed.

(** X19.  A call of [interesting] keeps to its own prefix.  Among its
    effects, every directory made and every set of logs saved is
    [<temp_prefix>_logs]; every copy of a cached artifact goes to a path
    that starts with [<temp_prefix>_]; the two callbacks are invoked only
    if set, and only with [temp_prefix]; and the puppet is never launched
    other than through the target. *)
Theorem call_keeps_to_its_prefix
    (cfg : config) (w : world) (c : call_obs) (p : string) (s : state) :
  exists evs, trace (snd (interesting cfg w c p s)) = trace s ++ evs /\
    (forall d, In (EvMkdir d) evs \/ In (EvSaveLogs d) evs -> d = p +:+ "_logs") /\
    (forall src dst, In (EvCopy src dst) evs \/ In (EvCopyTree src dst) evs ->
       exists sfx, dst = p +:+ "_" +:+ sfx) /\
    (forall q, In (EvInterestingCb q) evs -> q = p /\ interesting_cb cfg = true) /\
    (forall q, In (EvAltCrashCb q) evs -> q = p /\ alt_crash_cb cfg = true) /\
    (forall loc env, ~ In (EvPuppetLaunch loc env) evs).
Proof.
  destruct (interesting_footprint cfg w c p s) as (evs & Htr & Hall).
  exists evs. split; [exact Htr|].
  rewrite forallb_forall in Hall.
  repeat split.
  - intros d [H|H]; apply Hall in H; cbn in H; apply String.eqb_eq, H.
  - intros src dst [H|H]; apply Hall in H; cbn in H;
      apply prefix_inv in H; destruct H as [sfx ->]; exists sfx;
      apply append_assoc.
  - apply Hall in H. cbn in H. apply andb_true_iff in H. destruct H as [_ H].
    apply String.eqb_eq, H.
  - apply Hall in H. cbn in H. apply andb_true_iff in H. apply H.
  - apply Hall in H. cbn in H. apply andb_true_iff in H. destruct H as [_ H].
    apply String.eqb_eq, H.
  - apply Hall in H. cbn in H. apply andb_true_iff in H. apply H.
  - intros loc env H. apply Hall in H. cbn in H. discriminate H.
Qed.

(** ** The result cache *)

Lemma cache_store_other_key (cfg : config) (key k : string) (b : bool) (p : string) :
  key <> k ->
  preserves (fun s s' => result_cache s' !! k = result_cache s !! k)
    (cache_store cfg key b p).
Proof.
  intros Hne s. unfold cache_store, when, modify, ret.
  destruct (use_result_cache cfg); cbn; [|reflexivity].
  apply lookup_insert_ne, Hne.
Qed.

Lemma cache_store_disabled (cfg : config) (key : string) (b : bool) (p : string) :
  use_result_cache cfg = false ->
  preserves (fun s s' => result_cache s' = result_cache s) (cache_store cfg key b p).
Proof. intros H s. unfold cache_store. rewrite H. reflexivity. Qed.

(** X20.  The cache is written only under the content hash of the call
    that ran the trials: over a session, the entry of a hash that none of the
    calls has stays what it was, present or absent.  With result caching
    off the cache is never written at all. *)
Theorem cache_written_only_for_own_hash
    (cfg : config) (w : world) (calls : list (call_obs * string)) (s : state) :
  (forall k,
     Forall (fun cp => cache_key (fst cp) <> k) calls ->
     result_cache (snd (session cfg w calls s)) !! k = result_cache s !! k) /\
  (use_result_cache cfg = false ->
   result_cache (snd (session cfg w calls s)) = result_cache s).
Proof.
  split.
  - intros k Hk.
    apply (given_session cfg (fun s s' => result_cache s' !! k = result_cache s !! k))
      with (allowed := fun _ => true) (good := fun _ => True)
           (mine_prefix := fun _ => True) (mine_key := fun key => key <> k).
    all: try solve [frame_side].
    + intros o _. apply given_launch_sapphire with (allowed := fun _ => true);
        frame_side.
    + intros o p fd _ _.
      apply given_handle_failure with (allowed := fun _ => true);
        first [ apply given_update_timeout with (allowed := fun _ => true);
                frame_side
              | frame_side ].
    + intros key b p Hne. apply cache_store_other_key, Hne.
    + intros c p files _. apply preserves_replay with (allowed := fun _ => true);
        frame_side.
    + eapply Forall_impl; [exact Hk|]. intros cp H. split; [exact H | exact I].
  - intros Hoff.
    apply (given_session cfg (fun s s' => result_cache s' = result_cache s))
      with (allowed := fun _ => true) (good := fun _ => True)
           (mine_prefix := fun _ => True) (mine_key := fun _ => True).
    all: try solve [frame_side].
    + intros o _. apply given_launch_sapphire with (allowed := fun _ => true);
        frame_side.
    + intros o p fd _ _.
      apply given_handle_failure with (allowed := fun _ => true);
        first [ apply given_update_timeout with (allowed := fun _ => true);
                frame_side
              | frame_side ].
    + intros key b p _. apply cache_store_disabled, Hoff.
    + intros c p files _. apply preserves_replay with (allowed := fun _ => true);
        frame_side.
    + apply Forall_forall. intros; split; exact I.
Qed.

(** X21.  A verdict is remembered.  After a call that got past the skip
    gate with caching on and returned, the cache holds its verdict under the
    content hash, with the call's own prefix if the trials were run for it.
    A later call for the same content that gets past the gate runs no
    trial: it returns false with no effect at all if the verdict was
    false, and otherwise replays the artifacts, returning true unless the
    replay raises. *)
Theorem verdict_is_remembered
    (cfg : config) (w : world) (c1 : call_obs) (p1 : string) (s s1 : state)
    (b : bool) :
  not_skipped cfg s ->
  use_result_cache cfg = true ->
  interesting cfg w c1 p1 s = (Ok b, s1) ->
  (exists entry,
     result_cache s1 !! cache_key c1 = Some entry /\ ce_result entry = b /\
     (result_cache s !! cache_key c1 = None -> ce_prefix entry = p1)) /\
  (forall c2 p2,
     cache_key c2 = cache_key c1 -> not_skipped cfg s1 ->
     let r2 := fst (interesting cfg w c2 p2 s1) in
     let s2 := snd (interesting cfg w c2 p2 s1) in
     trials s2 = trials s1 /\ verdicts s2 = verdicts s1 /\
     result_cache s2 = result_cache s1 /\
     if b then r2 <> Ok false else r2 = Ok false /\ trace s2 = trace s1).
Proof.
  intros Hgate Hcache Hcall.
  assert (Hentry : exists entry,
     result_cache s1 !! cache_key c1 = Some entry /\ ce_result entry = b /\
     (result_cache s !! cache_key c1 = None -> ce_prefix entry = p1)).
  { destruct (skip_gate_passed cfg w c1 p1 s Hgate) as [v Hev].
    rewrite Hev in Hcall.
    destruct (result_cache (set_skipped v s) !! cache_key c1) as [entry0|] eqn:Hlook.
    - rewrite (evaluate_hit _ _ _ _ _ _ Hcache Hlook) in Hcall.
      cbn [result_cache set_skipped] in Hlook.
      destruct (ce_result entry0) eqn:Hres.
      + pose proof (replay_bookkeeping c1 p1
                      (glob c1 (ce_prefix entry0 +:+ "_*")) (set_skipped v s))
          as (_ & Hc & _ & _).
        destruct (replay c1 p1 _ (set_skipped v s)) as [[[]|e] s1'];
          [|discriminate Hcall].
        injection Hcall as <- <-. cbn [snd result_cache set_skipped] in Hc.
        exists entry0. rewrite Hc. repeat split; [exact Hlook | exact Hres|].
        intros Hnone. rewrite Hnone in Hlook. discriminate Hlook.
      + injection Hcall as <- <-. exists entry0.
        repeat split; [exact Hlook | exact Hres|].
        intros Hnone. cbn [result_cache set_skipped] in Hnone.
        rewrite Hnone in Hlook. discriminate Hlook.
    - rewrite (evaluate_miss _ _ _ _ _ Hcache Hlook) in Hcall.
      destruct (trial_loop_spec cfg w (cache_key c1) p1
                  (Z.max (repeat cfg) (min_crashes cfg))
                  (Z.to_nat (Z.max (repeat cfg) (min_crashes cfg))) 0 0
                  (set_skipped v s)) as (rs & ran & Hout).
      rewrite Hcall in Hout. cbn [fst snd] in Hout.
      destruct Hout as (_ & _ & _ & _ & _ & _ & Hres).
      rewrite Hcache in Hres.
      destruct b.
      + destruct Hres as (_ & _ & _ & Hc & _).
        exists (CacheEntry true p1). rewrite Hc, lookup_insert_eq. repeat split.
      + destruct Hres as (_ & _ & _ & Hc).
        exists (CacheEntry false p1). rewrite Hc, lookup_insert_eq. repeat split. }
  split; [exact Hentry|].
  intros c2 p2 Hkey Hgate2. cbv zeta.
  destruct Hentry as (entry & Hlook & Hres & _).
  destruct (skip_gate_passed cfg w c2 p2 s1 Hgate2) as [v Hev]. rewrite Hev.
  assert (Hlook2 : result_cache (set_skipped v s1) !! cache_key c2 = Some entry)
    by (rewrite Hkey; exact Hlook).
  rewrite (evaluate_hit _ _ _ _ _ _ Hcache Hlook2). rewrite Hres.
  destruct b.
  - pose proof (replay_bookkeeping c2 p2
                  (glob c2 (ce_prefix entry +:+ "_*")) (set_skipped v s1))
      as (_ & Hc & Ht & Hv).
    destruct (replay c2 p2 _ (set_skipped v s1)) as [[[]|e] s2'];
      cbn [fst snd] in *; repeat split; try assumption; discriminate.
  - cbn [fst snd]. repeat split.
Qed.

(** A call that finds a crash, and the same content offered again. *)
Lemma verdict_is_remembered_witness :
  let w := fun _ : nat => smooth_trial crashed_puppet crash_a in
  let s1 := snd (interesting (oracle false 0) w (empty_fs "k") "/tmp/1" fresh) in
  fst (interesting (oracle false 0) w (empty_fs "k") "/tmp/1" fresh) = Ok true /\
  exists entry,
    result_cache s1 !! "k" = Some entry /\ ce_result entry = true /\
    (result_cache fresh !! "k" = None -> ce_prefix entry = "/tmp/1").
Proof.
  cbv zeta. split; [vm_compute; reflexivity|].
  apply (verdict_is_remembered (oracle false 0)
           (fun _ => smooth_trial crashed_puppet crash_a)
           (empty_fs "k") "/tmp/1" fresh
           (snd (interesting (oracle false 0)
                   (fun _ => smooth_trial crashed_puppet crash_a)
                   (empty_fs "k") "/tmp/1" fresh)) true).
  - vm_compute. reflexivity.
  - reflexivity.
  - vm_compute. reflexivity.
Defined.

(** ** The trial loop when every trial has to crash *)

Lemma evaluate_runs_trials (cfg : config) (w : world) (c : call_obs) (p : string)
    (s : state) :
  use_result_cache cfg = false \/ result_cache s !! cache_key c = None ->
  evaluate cfg w c p s =
  trial_loop cfg w (cache_key c) p (Z.max (repeat cfg) (min_crashes cfg))
    (Z.to_nat (Z.max (repeat cfg) (min_crashes cfg))) 0 0 s.
Proof.
  intros H. unfold evaluate. destruct (use_result_cache cfg) eqn:Hc; [|reflexivity].
  destruct H as [H|H]; [discriminate H|].
  unfold mbind, M_bind, bind, get. rewrite H. reflexivity.
Qed.

Lemma count_true_bounds (rs : list bool) :
  0 <= count_true rs <= Z.of_nat (length rs).
Proof.
  induction rs as [|b rs IH]; cbn [count_true length]; [lia|].
  destruct b; lia.
Qed.

Lemma count_true_full (rs : list bool) :
  Z.of_nat (length rs) <= count_true rs -> rs = List.repeat true (length rs).
Proof.
  induction rs as [|b rs IH]; cbn [count_true length List.repeat]; [reflexivity|].
  pose proof (count_true_bounds rs) as Hb. destruct b; intros H.
  - f_equal. apply IH. lia.
  - lia.
Qed.

Lemma count_true_repeat (n : nat) : count_true (List.repeat true n) = Z.of_nat n.
Proof. induction n as [|n IH]; cbn [count_true List.repeat]; lia. Qed.

Lemma list_snoc_or_nil {A} (l : list A) : l = [] \/ exists q b, l = q ++ [b].
Proof.
  induction l as [|a l IH]; [left; reflexivity|]. right.
  destruct IH as [->|(q & b & ->)]; [exists [], a | exists (a :: q), b]; reflexivity.
Qed.

(** When every trial run had to leave [M] crashes reachable within [M]
    tries, all verdicts but the last are crashes. *)
Lemma verdicts_all_true_before (M : Z) (rs : list bool) (k : nat) :
  (k <= length rs)%nat ->
  M - count_true (firstn k rs) <= M - Z.of_nat k ->
  firstn k rs = List.repeat true k.
Proof.
  intros Hk H.
  assert (Hlen : length (firstn k rs) = k) by (rewrite length_firstn; lia).
  rewrite <- Hlen at 2. apply count_true_full. rewrite Hlen. lia.
Qed.

(** X22.  With [repeat] no larger than [min_crashes] every trial has to
    crash.  A call that reaches the trial loop then stops at the first trial
    that does not crash: it returns true after exactly [min_crashes] trials
    that all crashed, it returns false after some crashes, fewer than
    [min_crashes], followed by one trial that did not crash (or at once,
    when [min_crashes] is zero or less), and when a trial raises, all
    trials before it crashed. *)
Theorem all_trials_must_crash
    (cfg : config) (w : world) (c : call_obs) (p : string) (s : state) :
  repeat cfg <= min_crashes cfg ->
  not_skipped cfg s ->
  use_result_cache cfg = false \/ result_cache s !! cache_key c = None ->
  let M := min_crashes cfg in
  let r := fst (interesting cfg w c p s) in
  let s' := snd (interesting cfg w c p s) in
  match r with
  | Ok true =>
      0 < M /\ verdicts s' = verdicts s ++ List.repeat true (Z.to_nat M) /\
      trials s' = (trials s + Z.to_nat M)%nat
  | Ok false =>
      (M <= 0 /\ verdicts s' = verdicts s /\ trials s' = trials s) \/
      exists n, Z.of_nat n < M /\
        verdicts s' = verdicts s ++ List.repeat true n ++ [false] /\
        trials s' = (trials s + S n)%nat
  | Raise _ =>
      exists n, Z.of_nat n < M /\
        verdicts s' = verdicts s ++ List.repeat true n /\
        trials s' = (trials s + S n)%nat
  end.
Proof.
  intros HRM Hgate Hreach. cbv zeta.
  destruct (skip_gate_passed cfg w c p s Hgate) as [v Hev]. rewrite Hev.
  rewrite evaluate_runs_trials by exact Hreach.
  destruct (trial_loop_spec cfg w (cache_key c) p
              (Z.max (repeat cfg) (min_crashes cfg))
              (Z.to_nat (Z.max (repeat cfg) (min_crashes cfg))) 0 0
              (set_skipped v s)) as (rs & ran & Hout).
  replace (Z.max (repeat cfg) (min_crashes cfg)) with (min_crashes cfg) in * by lia.
  destruct Hout as (Hv & Ht & _ & Hran & Hk & _ & Hres).
  cbn [verdicts trials set_skipped] in Hv, Ht.
  assert (Hpre : forall k, (k < ran)%nat -> (k <= length rs)%nat ->
                   firstn k rs = List.repeat true k).
  { intros k Hlt Hle. apply (verdicts_all_true_before (min_crashes cfg)); [exact Hle|].
    specialize (Hk k Hlt). lia. }
  destruct (fst (trial_loop cfg w (cache_key c) p (min_crashes cfg)
                   (Z.to_nat (min_crashes cfg)) 0 0 (set_skipped v s)))
    as [[|]|e].
  - destruct Hres as (Hlen & (q & Hq) & Hcount & _).
    assert (Hall : rs = List.repeat true (length rs)).
    { rewrite Hq. rewrite length_app, Nat.add_comm. cbn [length Nat.add List.repeat].
      replace (true :: List.repeat true (length q))
        with (List.repeat true (length q) ++ [true])
        by (symmetry; apply (repeat_cons (length q) true)).
      f_equal. specialize (Hpre (length q)).
      rewrite Hq, firstn_app, Nat.sub_diag, firstn_all in Hpre.
      cbn [firstn] in Hpre. rewrite app_nil_r in Hpre.
      apply Hpre; rewrite Hq, ?length_app in *; cbn [length] in *; lia. }
    rewrite Hall, count_true_repeat in Hcount.
    assert (Hpos : 0 < min_crashes cfg).
    { assert (Hge : (1 <= length rs)%nat)
        by (rewrite Hq, length_app; cbn [length]; lia).
      lia. }
    assert (Hn : length rs = Z.to_nat (min_crashes cfg)) by lia.
    split; [exact Hpos|]. rewrite Hv, Ht, Hall, Hlen, Hn. split; reflexivity.
  - destruct Hres as (Hlen & Hbelow & Hstop & _).
    destruct (list_snoc_or_nil rs) as [->|(q & b & ->)].
    + cbn [length] in Hlen. subst ran. left.
      rewrite Hv, Ht, app_nil_r, Nat.add_0_r. split; [|split; reflexivity].
      cbn [count_true] in Hstop. lia.
    + right. rewrite length_app in Hlen. cbn [length] in Hlen.
      assert (Hq : q = List.repeat true (length q)).
      { specialize (Hpre (length q)).
        rewrite firstn_app, Nat.sub_diag, firstn_all in Hpre.
        cbn [firstn] in Hpre. rewrite app_nil_r in Hpre.
        apply Hpre; rewrite ?length_app; cbn [length]; lia. }
      destruct b.
      * exfalso. specialize (Hbelow q [] eq_refl).
        rewrite Hq, count_true_repeat in Hbelow.
        assert (Hc : count_true (q ++ [true]) = Z.of_nat (length q) + 1).
        { rewrite Hq at 1.
          replace (List.repeat true (length q) ++ [true])
            with (List.repeat true (S (length q)))
            by (cbn [List.repeat]; apply (repeat_cons (length q) true)).
          rewrite count_true_repeat. lia. }
        rewrite Hc in Hstop. lia.
      * exists (length q). rewrite Hv, Ht, Hlen, <- Hq.
        split; [lia|]. split; [reflexivity | f_equal; lia].
  - destruct Hres as (Hlen & _ & _).
    exists (length rs). specialize (Hpre (length rs)).
    rewrite firstn_all in Hpre. rewrite Hv, Ht, Hlen, <- Hpre by lia.
    split; [lia|]. split; reflexivity.
Qed.

(** One trial at most, one crash needed, and the trial crashes. *)
Lemma all_trials_must_crash_witness :
  let w := fun _ : nat => smooth_trial crashed_puppet crash_a in
  let r := fst (interesting (oracle false 0) w (empty_fs "k") "/tmp/1" fresh) in
  let s' := snd (interesting (oracle false 0) w (empty_fs "k") "/tmp/1" fresh) in
  r = Ok true /\
  match r with
  | Ok true =>
      0 < 1 /\ verdicts s' = verdicts fresh ++ List.repeat true (Z.to_nat 1) /\
      trials s' = (trials fresh + Z.to_nat 1)%nat
  | Ok false =>
      (1 <= 0 /\ verdicts s' = verdicts fresh /\ trials s' = trials fresh) \/
      exists n, Z.of_nat n < 1 /\
        verdicts s' = verdicts fresh ++ List.repeat true n ++ [false] /\
        trials s' = (trials fresh + S n)%nat
  | Raise _ =>
      exists n, Z.of_nat n < 1 /\
        verdicts s' = verdicts fresh ++ List.repeat true n /\
        trials s' = (trials fresh + S n)%nat
  end.
Proof.
  cbv zeta. split; [vm_compute; reflexivity|].
  apply (all_trials_must_crash (oracle false 0)
           (fun _ => smooth_trial crashed_puppet crash_a)
           (empty_fs "k") "/tmp/1" fresh).
  - vm_compute. discriminate.
  - vm_compute. reflexivity.
  - right. reflexivity.
Defined.

(** X23.  With [repeat] and [min_crashes] both zero or less there is
    nothing to try: a call that reaches the trial loop returns false
    without running a trial or touching the target, and, with caching on,
    remembers false for the content. *)
Theorem nothing_to_try
    (cfg : config) (w : world) (c : call_obs) (p : string) (s : state) :
  repeat cfg <= 0 -> min_crashes cfg <= 0 ->
  not_skipped cfg s ->
  use_result_cache cfg = false \/ result_cache s !! cache_key c = None ->
  let s' := snd (interesting cfg w c p s) in
  fst (interesting cfg w c p s) = Ok false /\
  trials s' = trials s /\ trace s' = trace s /\
  result_cache s' =
    (if use_result_cache cfg
     then <[cache_key c := CacheEntry false p]> (result_cache s)
     else result_cache s).
Proof.
  intros HR HM Hgate Hreach. cbv zeta.
  destruct (skip_gate_passed cfg w c p s Hgate) as [v Hev]. rewrite Hev.
  rewrite evaluate_runs_trials by exact Hreach.
  replace (Z.to_nat (Z.max (repeat cfg) (min_crashes cfg))) with O by lia.
  cbn [trial_loop]. rewrite declare_uninteresting_spec. cbn [fst snd].
  repeat split.
Qed.

Lemma nothing_to_try_witness :
  let cfg := Config [] false false 0 0 0 true true true None in
  fst (interesting cfg (fun _ => smooth_trial crashed_puppet crash_a)
         (empty_fs "k") "/tmp/1" fresh) = Ok false.
Proof.
  cbv zeta.
  apply (nothing_to_try (Config [] false false 0 0 0 true true true None)
           (fun _ => smooth_trial crashed_puppet crash_a)
           (empty_fs "k") "/tmp/1" fresh).
  - vm_compute. discriminate.
  - vm_compute. discriminate.
  - vm_compute. reflexivity.
  - right. reflexivity.
Defined.

(** ** [Interesting.init] *)

Lemma basename_from_has_no_slash (p : string) :
  forall acc, has_char "/" acc = false ->
  has_char "/" (basename_from acc p) = false.
Proof.
  induction p as [|ch p IH]; intros acc Hacc; cbn [basename_from]; [exact Hacc|].
  destruct (Ascii.eqb ch "/") eqn:E; [apply IH; reflexivity|].
  apply IH. clear IH. induction acc as [|a acc IHa].
  - rewrite append_empty_l. cbn [has_char]. rewrite E. reflexivity.
  - cbn [has_char] in Hacc. apply orb_false_iff in Hacc. destruct Hacc as [H1 H2].
    rewrite append_cons. cbn [has_char]. rewrite H1. apply IHa, H2.
Qed.

(** X24.  [init] starts the session afresh and leaves the rest alone.  The
    landing page becomes a bare file name, without any slash; the signature,
    the timeouts, the server and the target are as they were.  The first
    call after [init] is neither skipped nor answered from the cache: it
    runs the trial loop, whatever was cached or counted before. *)
Theorem init_starts_afresh
    (realpath : string -> string) (cfg : config) (w : world) (c : call_obs)
    (p : string) (s : state) :
  let s0 := snd (init realpath s) in
  fst (init realpath s) = Ok tt /\
  has_char "/" (landing_page s0) = false /\
  wwwdir s0 = dirname (realpath (landing_page s)) /\
  (orig_sig s0 = orig_sig s /\ idle_timeout s0 = idle_timeout s /\
   iter_timeout s0 = iter_timeout s /\ server s0 = server s /\
   target_closed s0 = target_closed s /\ trace s0 = trace s) /\
  interesting cfg w c p s0 =
    run_trials cfg w c p
      (if bool_decide (skip cfg = 0) then s0 else set_skipped (Some 0) s0).
Proof.
  cbv zeta. split; [reflexivity|]. split.
  - apply basename_from_has_no_slash. reflexivity.
  - split; [reflexivity|]. split; [repeat split|].
    unfold interesting, skip_gate, init.
    unfold mbind, M_bind, bind, get, modify, ret. cbn [snd fst].
    destruct (bool_decide (skip cfg = 0)); cbn [skipped set_skipped set_result_cache];
      unfold evaluate; destruct (use_result_cache cfg); try reflexivity;
      unfold mbind, M_bind, bind, get; cbn [result_cache set_skipped set_result_cache];
      rewrite lookup_empty; reflexivity.
Qed.

(** ** [Interesting._run]: what a returned verdict tells *)

Lemma bind_ok_inv {A B} (m : M A) (k : A -> M B) (s s' : state) (b : B) :
  (m ≫= k) s = (Ok b, s') ->
  exists a s1, m s = (Ok a, s1) /\ k a s1 = (Ok b, s').
Proof.
  rewrite bind_unfold. destruct (m s) as [[a|e] s1]; [|discriminate].
  intros H. exists a, s1. split; [reflexivity | exact H].
Qed.

Lemma try_finally_ok_inv {A} (body : M A) (fin : M unit) (s s' : state) (b : A) :
  try_finally body fin s = (Ok b, s') ->
  exists s1, body s = (Ok b, s1) /\ fin s1 = (Ok tt, s').
Proof.
  unfold try_finally. destruct (body s) as [r s1].
  destruct (fin s1) as [[[]|e] s2] eqn:Hfin; [|discriminate].
  intros H. injection H as -> <-. exists s1. split; [reflexivity | exact Hfin].
Qed.

Lemma serve_returns_status (cfg : config) (o : trial_obs) (s s' : state)
    (st : serve_status) :
  serve cfg o s = (Ok st, s') -> st = server_status o.
Proof.
  unfold serve. intros H. apply bind_ok_inv in H. destruct H as ([] & s1 & _ & H).
  rewrite run_ret in H. injection H as <- _. reflexivity.
Qed.

Lemma target_detect_failure_returns_status (cfg : config) (o : trial_obs)
    (t : bool) (s s' : state) (fd : failure_class) :
  target_detect_failure cfg o t s = (Ok fd, s') ->
  fd = fst (detect_failure (puppet o) (ignore cfg) t).
Proof.
  unfold target_detect_failure. intros H.
  apply bind_ok_inv in H. destruct H as ([] & s1 & _ & H).
  destruct (detect_failure (puppet o) (ignore cfg) t) as [status evs].
  apply bind_ok_inv in H. destruct H as ([] & s2 & _ & H).
  apply bind_ok_inv in H. destruct H as ([] & s3 & _ & H).
  rewrite run_ret in H. injection H as <- _. reflexivity.
Qed.

Lemma untouched_refl (s : state) : untouched s s.
Proof. repeat split. Qed.

Lemma untouched_trans (a b c : state) :
  untouched a b -> untouched b c -> untouched a c.
Proof. frame_side. Qed.

Lemma launch_sapphire_untouched (cfg : config) (o : trial_obs) :
  preserves untouched (launch_sapphire cfg o).
Proof. apply given_launch_sapphire with (allowed := fun _ => true); frame_side. Qed.

Lemma relaunch_untouched (cfg : config) (o : trial_obs) :
  preserves untouched (relaunch cfg o).
Proof. apply given_relaunch with (allowed := fun _ => true); frame_side. Qed.

Lemma serve_untouched (cfg : config) (o : trial_obs) :
  preserves untouched (serve cfg o).
Proof. apply given_serve with (allowed := fun _ => true); frame_side. Qed.

Lemma target_detect_failure_untouched (cfg : config) (o : trial_obs) (t : bool) :
  preserves untouched (target_detect_failure cfg o t).
Proof.
  apply given_target_detect_failure with (allowed := fun _ => true); frame_side.
Qed.

(** The phases of a trial that returned: each of them returned, the
    classification is the one of [detect_failure], the verdict is the one of
    [handle_failure], and nothing but [handle_failure] touches the
    signature or the timeouts. *)
Lemma run_returns_inv (cfg : config) (o : trial_obs) (p : string) (s s' : state)
    (b : bool) :
  _run cfg o p s = (Ok b, s') ->
  exists sd se,
    handle_failure cfg o p
      (fst (detect_failure (puppet o) (ignore cfg)
              (bool_decide (server_status o = SERVED_TIMEOUT)))) sd = (Ok b, se) /\
    untouched s sd /\ untouched se s' /\
    target_closed s' = (relaunch_due o || target_closed se).
Proof.
  unfold _run. intros H.
  apply bind_ok_inv in H. destruct H as ([] & sa & Ha & H).
  apply bind_ok_inv in H. destruct H as ([] & sb & Hb & H).
  apply try_finally_ok_inv in H. destruct H as (s1 & H & Hfin).
  unfold run_body in H. apply bind_ok_inv in H. destruct H as ([] & s0 & H0 & H).
  rewrite run_emit in H0. injection H0 as <-.
  unfold serve_and_classify in H.
  apply bind_ok_inv in H. destruct H as (st & sc & Hc & H).
  apply bind_ok_inv in H. destruct H as (fd & sd & Hd & H).
  apply bind_ok_inv in H. destruct H as (res & se & He & H).
  apply bind_ok_inv in H. destruct H as ([] & sf & Hf & H).
  apply bind_ok_inv in H. destruct H as ([] & sg & Hg & H).
  rewrite run_ret in H. injection H as -> ->.
  pose proof (serve_returns_status _ _ _ _ _ Hc) as ->.
  pose proof (target_detect_failure_returns_status _ _ _ _ _ _ Hd) as ->.
  exists sd, se. split; [exact He|].
  assert (Hpre : untouched s sd).
  { pose proof (launch_sapphire_untouched cfg o s) as H1. rewrite Ha in H1.
    pose proof (relaunch_untouched cfg o sa) as H2. rewrite Hb in H2.
    pose proof (serve_untouched cfg o
                  (set_trace (trace sb ++ [EvMonitorStart]) sb)) as H3.
    rewrite Hc in H3.
    pose proof (target_detect_failure_untouched cfg o
                  (bool_decide (server_status o = SERVED_TIMEOUT)) sc) as H4.
    rewrite Hd in H4. cbn [snd] in *.
    eapply untouched_trans; [|exact H4].
    eapply untouched_trans; [|exact H3].
    eapply untouched_trans; [exact H1 | exact H2]. }
  split; [exact Hpre|].
  unfold run_finally in Hfin. rewrite run_emit in Hfin. injection Hfin as <-.
  unfold call in Hf. destruct (raises o SCheckRelaunch); [discriminate Hf|].
  rewrite run_emit in Hf. injection Hf as <-.
  destruct (relaunch_due o); cbn in Hg; injection Hg as <-; repeat split.
Qed.

Lemma update_timeout_keeps_target (o : trial_obs) (t : Q) :
  preserves (fun s s' => target_closed s' = target_closed s /\
                         orig_sig s' = orig_sig s) (update_timeout o t).
Proof. apply given_update_timeout with (allowed := fun _ => true); frame_side. Qed.

Lemma update_timeout_summary (o : trial_obs) (t : Q) (s : state) :
  (target_closed (snd (update_timeout o t s)) = target_closed s /\
   orig_sig (snd (update_timeout o t s)) = orig_sig s) /\
  idle_timeout (snd (update_timeout o t s)) ==
    Qmin (idle_timeout s) (Qmax 10 (t * 1.5)) /\
  iter_timeout (snd (update_timeout o t s)) ==
    Qmin (iter_timeout s) (Qmax 10 (t * 2)).
Proof.
  split; [apply (update_timeout_keeps_target o t s) | apply update_timeout_values].
Qed.

Ltac fields_in_all :=
  cbn [fst snd skipped result_cache orig_sig idle_timeout iter_timeout server
       target_closed landing_page wwwdir trials verdicts trace
       set_skipped set_result_cache set_orig_sig set_idle_timeout
       set_iter_timeout set_server set_target_closed set_pages set_trials
       set_verdicts set_trace] in *.

Lemma handle_failure_returns_false (cfg : config) (o : trial_obs) (p : string)
    (fd : failure_class) (s s' : state) :
  handle_failure cfg o p fd s = (Ok false, s') -> untouched s s'.
Proof.
  unfold handle_failure, close_and_save_logs, call, when, emit, modify, raise,
    ret, get, mbind, M_bind, bind.
  destruct fd.
  - intros H. injection H as <-. repeat split.
  - destruct (raises o STargetClose); [discriminate|].
    destruct (raises o SMkdir); [discriminate|].
    destruct (raises o SSaveLogs); [discriminate|].
    destruct (raises o SReport); [discriminate|].
    destruct (String.eqb _ _); [intros H; injection H as <-; repeat split|].
    cbn [orig_sig set_trace set_target_closed].
    destruct (orig_sig s) as [sg|].
    + destruct (raises o SMatches); [discriminate|].
      destruct (matched_by (crash o) sg).
      * rewrite bool_decide_eq_false_2 by discriminate. cbn [andb].
        match goal with |- context [update_timeout ?o ?t ?s] =>
          destruct (update_timeout o t s) as [[[]|?] ?] end; discriminate.
      * destruct (alt_crash_cb cfg); [destruct (raises o SAltCrashCb)|];
          try discriminate; intros H; injection H as <-; repeat split.
    + rewrite bool_decide_eq_true_2 by reflexivity. cbn [andb].
      destruct (any_crash cfg); cbn [negb];
        [|destruct (raises o SCreateSignature); [discriminate|]];
        match goal with |- context [update_timeout ?o ?t ?s] =>
          destruct (update_timeout o t s) as [[[]|?] ?] end; discriminate.
  - destruct (raises o STargetClose); [discriminate|].
    destruct (raises o SMkdir); [discriminate|].
    destruct (raises o SSaveLogs); [discriminate|].
    intros H. injection H as <-. repeat split.
Qed.

Lemma handle_failure_returns_true (cfg : config) (o : trial_obs) (p : string)
    (fd : failure_class) (s s' : state) :
  handle_failure cfg o p fd s = (Ok true, s') ->
  fd = RESULT_FAILURE /\ target_closed s' = true /\
  createShortSignature (crash o) <> "No crash detected" /\
  orig_sig s' =
    match orig_sig s with
    | Some sg => Some sg
    | None => if any_crash cfg then None
              else Some (createCrashSignature (crash o) 5%nat)
    end /\
  match orig_sig s with
  | Some sg => matched_by (crash o) sg = true
  | None => True
  end /\
  idle_timeout s' == Qmin (idle_timeout s) (Qmax 10 (run_time o * 1.5)) /\
  iter_timeout s' == Qmin (iter_timeout s) (Qmax 10 (run_time o * 2)).
Proof.
  unfold handle_failure, close_and_save_logs, call, when, emit, modify, raise,
    ret, get, mbind, M_bind, bind.
  destruct fd.
  - discriminate.
  - destruct (raises o STargetClose); [discriminate|].
    destruct (raises o SMkdir); [discriminate|].
    destruct (raises o SSaveLogs); [discriminate|].
    destruct (raises o SReport); [discriminate|].
    destruct (String.eqb _ _) eqn:Esig; [discriminate|].
    apply String.eqb_neq in Esig.
    cbn [orig_sig set_trace set_target_closed].
    destruct (orig_sig s) as [sg|] eqn:Hs.
    + destruct (raises o SMatches); [discriminate|].
      destruct (matched_by (crash o) sg); [|destruct (alt_crash_cb cfg);
        [destruct (raises o SAltCrashCb)|]; discriminate].
      rewrite bool_decide_eq_false_2 by discriminate. cbn [andb].
      step_over_update_timeout update_timeout_summary; [|discriminate].
      intros H'. injection H' as <-. fields_in_all. rewrite Hs in *.
      repeat split; tauto.
    + rewrite bool_decide_eq_true_2 by reflexivity. cbn [andb].
      destruct (any_crash cfg); cbn [negb];
        [|destruct (raises o SCreateSignature); [discriminate|]];
        (step_over_update_timeout update_timeout_summary; [|discriminate]);
        intros H'; injection H' as <-; fields_in_all; rewrite ?Hs in *;
        repeat split; tauto.
  - destruct (raises o STargetClose); [discriminate|].
    destruct (raises o SMkdir); [discriminate|].
    destruct (raises o SSaveLogs); discriminate.
Qed.

(** X25.  Only a counted crash adapts the oracle.  A trial that returns
    false, whether the target was fine, the failure was ignored, the report
    had no signature or the signature did not match, leaves the reference
    signature and both timeouts exactly as they were. *)
Theorem uninteresting_trial_changes_nothing
    (cfg : config) (o : trial_obs) (p : string) (s s' : state) :
  _run cfg o p s = (Ok false, s') ->
  orig_sig s' = orig_sig s /\ idle_timeout s' = idle_timeout s /\
  iter_timeout s' = iter_timeout s.
Proof.
  intros H. apply run_returns_inv in H.
  destruct H as (sd & se & He & Hpre & Hpost & _).
  apply handle_failure_returns_false in He.
  exact (untouched_trans _ _ _ (untouched_trans _ _ _ Hpre He) Hpost).
Qed.

(** A healthy target: the trial returns false. *)
Lemma uninteresting_trial_changes_nothing_witness :
  let r := _run (oracle false 0) (smooth_trial healthy_puppet crash_a) "/tmp/1"
             (fresh_with_sig "sigB") in
  fst r = Ok false /\
  orig_sig (snd r) = Some "sigB" /\ idle_timeout (snd r) = 60%Q /\
  iter_timeout (snd r) = 60%Q.
Proof.
  cbv zeta. split; [vm_compute; reflexivity|].
  apply (uninteresting_trial_changes_nothing (oracle false 0)
           (smooth_trial healthy_puppet crash_a) "/tmp/1" (fresh_with_sig "sigB")).
  vm_compute. reflexivity.
Defined.

(** X26.  What a counted crash presupposes and leaves behind.  A trial
    returns true only if [detect_failure] reported Failure, the crash report
    has a signature and, when there is a reference signature, the report
    matches it.  Afterwards the reference signature is the one there was,
    or else, unless [any_crash] is set, the five-frame signature of this
    crash; each timeout is the smaller of its old value and
    [max(10, factor * run_time)], the factor being 1.5 for [idle_timeout] and
    2 for [iter_timeout]; and the target is closed, so that the next trial
    starts by launching it. *)
Theorem counted_crash_leaves_target_closed
    (cfg : config) (o : trial_obs) (p : string) (s s' : state) :
  _run cfg o p s = (Ok true, s') ->
  fst (detect_failure (puppet o) (ignore cfg)
         (bool_decide (server_status o = SERVED_TIMEOUT))) = RESULT_FAILURE /\
  createShortSignature (crash o) <> "No crash detected" /\
  match orig_sig s with
  | Some sg => matched_by (crash o) sg = true /\ orig_sig s' = Some sg
  | None =>
      orig_sig s' = if any_crash cfg then None
                    else Some (createCrashSignature (crash o) 5%nat)
  end /\
  (idle_timeout s' == Qmin (idle_timeout s) (Qmax 10 (run_time o * 1.5)) /\
   iter_timeout s' == Qmin (iter_timeout s) (Qmax 10 (run_time o * 2))) /\
  target_closed s' = true /\
  (forall o2, exists evs,
     trace (snd (relaunch cfg o2 s')) =
     trace s' ++ EvTargetLaunch (location_of cfg s') (env_mod cfg) :: evs).
Proof.
  intros H. apply run_returns_inv in H.
  destruct H as (sd & se & He & Hpre & Hpost & Hclosed).
  apply handle_failure_returns_true in He.
  destruct He as (Hfd & Hc & Hsig & Hnew & Hmatch & Hidle & Hiter).
  destruct Hpre as (Hs1 & Hi1 & Hj1). destruct Hpost as (Hs2 & Hi2 & Hj2).
  rewrite Hc, orb_true_r in Hclosed.
  split; [exact Hfd|]. split; [exact Hsig|].
  split; [|split; [|split; [exact Hclosed|]]].
  2: { rewrite Hi2, Hj2, <- Hi1, <- Hj1. split; assumption. }
  - rewrite Hs2, Hnew. rewrite Hs1 in *.
    destruct (orig_sig s); [split; [exact Hmatch|]|]; reflexivity.
  - intros o2.
    assert (Hrel : relaunch cfg o2 s' = launch_loop cfg o2 4 0 s').
    { unfold relaunch, mbind, M_bind, bind, get. rewrite Hclosed. reflexivity. }
    rewrite Hrel.
    destruct (launch_loop_spec cfg o2 4 0 s')
      as (j & Hj & _ & [(-> & Heq)|[(Hlt & _ & Heq)|(Hlt & e & _ & _ & Heq)]]);
      rewrite Heq; cbn [snd trace set_trace set_target_closed];
      unfold attempt_event.
    + eexists. cbn [failed_attempts app]. reflexivity.
    + destruct j; cbn [failed_attempts app]; eexists; reflexivity.
    + destruct j; cbn [failed_attempts app]; eexists; reflexivity.
Qed.

(** A crash on a new oracle: counted, signature adopted, target closed. *)
Lemma counted_crash_leaves_target_closed_witness :
  let r := _run (oracle false 0) (smooth_trial crashed_puppet crash_a) "/tmp/1"
             fresh in
  fst r = Ok true /\ target_closed (snd r) = true /\
  createShortSignature crash_a <> "No crash detected".
Proof.
  cbv zeta. split; [vm_compute; reflexivity|].
  destruct (counted_crash_leaves_target_closed (oracle false 0)
              (smooth_trial crashed_puppet crash_a) "/tmp/1" fresh
              (snd (_run (oracle false 0) (smooth_trial crashed_puppet crash_a)
                      "/tmp/1" fresh)))
    as (_ & Hsig & _ & _ & Hclosed & _).
  - vm_compute. reflexivity.
  - split; [exact Hclosed | exact Hsig].
Defined.

(** ** How many trials a session runs *)

Lemma skip_gate_spec (cfg : config) (s : state) :
  exists b v, skip_gate cfg s = (Ok b, set_skipped v s).
Proof.
  unfold skip_gate, mbind, M_bind, bind, get, modify, ret.
  destruct (bool_decide (skip cfg = 0)).
  - exists false, (skipped s). rewrite set_skipped_same by reflexivity. reflexivity.
  - destruct (skipped s) as [k|] eqn:Hk.
    + destruct (k <? skip cfg).
      * exists true, (Some (k + 1)). reflexivity.
      * exists false, (Some k). rewrite set_skipped_same by exact Hk. reflexivity.
    + exists false, (Some 0). reflexivity.
Qed.

Lemma interesting_trials_bound (cfg : config) (w : world) (c : call_obs)
    (p : string) (s : state) :
  let s' := snd (interesting cfg w c p s) in
  (trials s <= trials s' <=
     trials s + Z.to_nat (Z.max (repeat cfg) (min_crashes cfg)))%nat /\
  exists rs, verdicts s' = verdicts s ++ rs /\
    (length rs <= trials s' - trials s)%nat.
Proof.
  cbv zeta. unfold interesting. rewrite bind_unfold.
  destruct (skip_gate_spec cfg s) as (b & v & ->).
  destruct b.
  - cbn [snd ret trials verdicts set_skipped]. split; [lia|].
    exists []. rewrite app_nil_r. split; [reflexivity | cbn; lia].
  - destruct (use_result_cache cfg) eqn:Hc;
      [destruct (result_cache (set_skipped v s) !! cache_key c) as [entry|] eqn:Hl|].
    + rewrite (evaluate_hit _ _ _ _ _ _ Hc Hl).
      destruct (ce_result entry).
      * pose proof (replay_bookkeeping c p (glob c (ce_prefix entry +:+ "_*"))
                      (set_skipped v s)) as (_ & _ & Ht & Hv).
        destruct (replay c p _ (set_skipped v s)) as [[[]|e] s1];
          cbn [snd trials verdicts set_skipped] in *; rewrite Ht, Hv;
          (split; [lia|]); exists []; rewrite app_nil_r;
          (split; [reflexivity | cbn; lia]).
      * cbn [snd trials verdicts set_skipped]. split; [lia|].
        exists []. rewrite app_nil_r. split; [reflexivity | cbn; lia].
    + rewrite evaluate_runs_trials by (right; exact Hl).
      destruct (trial_loop_spec cfg w (cache_key c) p
                  (Z.max (repeat cfg) (min_crashes cfg))
                  (Z.to_nat (Z.max (repeat cfg) (min_crashes cfg))) 0 0
                  (set_skipped v s)) as (rs & ran & Hout).
      destruct Hout as (Hv & Ht & _ & Hran & _ & _ & Hres).
      cbn [trials verdicts set_skipped] in Hv, Ht. rewrite Ht, Hv.
      split; [lia|]. exists rs. split; [reflexivity|].
      destruct (fst (trial_loop _ _ _ _ _ _ _ _ _)) as [[|]|e];
        destruct Hres as (Hlen & _); lia.
    + rewrite evaluate_runs_trials by (left; exact Hc).
      destruct (trial_loop_spec cfg w (cache_key c) p
                  (Z.max (repeat cfg) (min_crashes cfg))
                  (Z.to_nat (Z.max (repeat cfg) (min_crashes cfg))) 0 0
                  (set_skipped v s)) as (rs & ran & Hout).
      destruct Hout as (Hv & Ht & _ & Hran & _ & _ & Hres).
      cbn [trials verdicts set_skipped] in Hv, Ht. rewrite Ht, Hv.
      split; [lia|]. exists rs. split; [reflexivity|].
      destruct (fst (trial_loop _ _ _ _ _ _ _ _ _)) as [[|]|e];
        destruct Hres as (Hlen & _); lia.
Qed.

(** X27.  A session of [n] calls runs at most [n * max(repeat,
    min_crashes)] trials, none if that maximum is zero or less; the trial
    counter never goes back; and the verdicts recorded are one per trial
    that returned, so never more than the trials run. *)
Theorem session_trials_bound
    (cfg : config) (w : world) (calls : list (call_obs * string)) (s : state) :
  let per_call := Z.to_nat (Z.max (repeat cfg) (min_crashes cfg)) in
  let s' := snd (session cfg w calls s) in
  (trials s <= trials s' <= trials s + length calls * per_call)%nat /\
  exists rs, verdicts s' = verdicts s ++ rs /\
    (length rs <= trials s' - trials s)%nat.
Proof.
  cbv zeta. revert s. induction calls as [|[c p] rest IH]; intros s; cbn [session].
  - cbn [snd length]. split; [lia|]. exists []. rewrite app_nil_r.
    split; [reflexivity | cbn; lia].
  - pose proof (interesting_trials_bound cfg w c p s) as H1. cbv zeta in H1.
    destruct (interesting cfg w c p s) as [r s1]. cbn [snd] in H1.
    specialize (IH s1). destruct (session cfg w rest s1) as [rs' s2].
    cbn [snd length] in *.
    destruct H1 as (Ht1 & rs1 & Hv1 & Hl1). destruct IH as (Ht2 & rs2 & Hv2 & Hl2).
    split; [lia|]. exists (rs1 ++ rs2). rewrite Hv2, Hv1, app_assoc, length_app.
    split; [reflexivity | lia].
Qed.

(** ** [Interesting._run]: the temporary file of a harness-less run *)

(** X28.  Without the harness, the file made by [mkstemp] to keep Sapphire
    serving is always removed again: [os.unlink] is called whether serving
    returned or raised, and an exception of [os.unlink] replaces the outcome
    of serving.  With the harness no temporary file is made: the redirect is
    set and the test case served. *)
Theorem temporary_file_is_removed (cfg : config) (o : trial_obs) (s : state) :
  let r := fst (serve cfg o s) in
  let s' := snd (serve cfg o s) in
  let served := match raises o SServe with Some _ => [] | None => [EvServe] end in
  (no_harness cfg = true -> raises o SMkstemp = None ->
   match raises o SUnlink with
   | None =>
       trace s' = trace s ++ [EvMkstemp] ++ served ++ [EvUnlink] /\
       r = match raises o SServe with
           | Some e => Raise e
           | None => Ok (server_status o)
           end
   | Some e => trace s' = trace s ++ [EvMkstemp] ++ served /\ r = Raise e
   end) /\
  (no_harness cfg = false ->
   forall pre post, trace s' <> trace s ++ pre ++ EvMkstemp :: post).
Proof.
  cbv zeta. unfold serve, try_finally, call, emit, modify, raise, ret, mbind,
    M_bind, bind. split.
  - intros -> ->. cbn [fst snd trace set_trace].
    destruct (raises o SServe), (raises o SUnlink); cbn [fst snd trace set_trace];
      rewrite <- ?app_assoc; split; reflexivity.
  - intros -> pre post.
    destruct (raises o SSetRedirect); [|destruct (raises o SServe)];
      cbn [fst snd trace set_trace]; rewrite <- ?app_assoc; intros H;
      [ rewrite <- (app_nil_r (trace s)) in H at 1 | | ];
      apply app_inv_head in H;
      repeat (destruct pre as [|? pre]; cbn in H; try discriminate H).
Qed.
